(** * Cold Agent: decision loop, action-response normaliser, run evaluator

    A shallow embedding of [run/agentLoop.ts], [run/snapshot.ts],
    [run/evaluator.ts] and the run queue of [run/runOrchestrator.ts].
    Pure functions are Rocq functions; code that can throw returns a
    [result]; the [for] loop of [runAgentLoop] is a state machine over an
    explicit loop state, fed with what the browser, the completion service
    and the clock answered at each iteration.

    Conventions.
    - A JavaScript string is a [string]: a sequence of code units, here
      below 256.  [toLowerCase], [\s], [\b] and [trim] are modelled exactly
      on that range.
    - A JavaScript number is a [number]: [NaN], the two infinities, or a
      finite value held as a rational.  The code compares numbers and tests
      them for truthiness; the one place where it computes with them, the
      time budget, is rounded as binary64 arithmetic rounds ([JSDouble]).
    - What the host platform supplies ([new URL], [JSON.parse],
      [JSON.stringify], number/string conversions) is the class
      [Platform]. *)

From Stdlib Require Import String Ascii List Bool Arith ZArith QArith Lia.
From Stdlib Require Import Numbers.DecimalString Numbers.DecimalNat.
From Stdlib Require Import Sorting.Permutation Sorting.Sorted.
Import ListNotations.
Close Scope Q_scope.
Open Scope string_scope.
Open Scope bool_scope.
Set Warnings "-register-all".

(* ===================================================================== *)
(** * Part I: definitions *)
(* ===================================================================== *)

(** ** Results of code that may throw *)

Inductive result (E A : Type) : Type :=
| Ok (a : A)
| Throw (e : E).
Arguments Ok {E A} a.
Arguments Throw {E A} e.

Definition rbind {E A B} (r : result E A) (k : A -> result E B) : result E B :=
  match r with
  | Ok a => k a
  | Throw e => Throw e
  end.

Declare Scope result_scope.
Delimit Scope result_scope with result.
Notation "x <- r ;; k" := (rbind r (fun x => k))
  (at level 61, r at next level, right associativity) : result_scope.

(** ** JavaScript strings *)

Module JSString.

Definition code (c : ascii) : nat := nat_of_ascii c.

Definition between (lo hi : nat) (c : ascii) : bool :=
  ((lo <=? code c) && (code c <=? hi))%nat.

(** [\s]: tab, line feed, vertical tab, form feed, carriage return,
    space, no-break space. *)
Definition is_space (c : ascii) : bool :=
  between 9 13 c || (code c =? 32)%nat || (code c =? 160)%nat.

(** [\w]: [A-Za-z0-9_]. *)
Definition is_word (c : ascii) : bool :=
  between 48 57 c || between 65 90 c || (code c =? 95)%nat || between 97 122 c.

Definition lower_char (c : ascii) : ascii :=
  if between 65 90 c then ascii_of_nat (code c + 32)
  else if between 192 222 c && negb (code c =? 215)%nat then ascii_of_nat (code c + 32)
  else c.

(** Canonicalisation of the [i] flag: ASCII letters fold to upper case;
    no other code unit folds onto an ASCII one. *)
Definition canon (c : ascii) : ascii :=
  if between 97 122 c then ascii_of_nat (code c - 32) else c.

Fixpoint toLowerCase (s : string) : string :=
  match s with
  | EmptyString => EmptyString
  | String c s' => String (lower_char c) (toLowerCase s')
  end.

Fixpoint startsWith (p s : string) : bool :=
  match p, s with
  | EmptyString, _ => true
  | String a p', String b s' => Ascii.eqb a b && startsWith p' s'
  | String _ _, EmptyString => false
  end.

(** [s.includes(sub)] *)
Fixpoint includes (s sub : string) : bool :=
  startsWith sub s ||
  match s with
  | EmptyString => false
  | String _ s' => includes s' sub
  end.

Fixpoint trimStart (s : string) : string :=
  match s with
  | EmptyString => EmptyString
  | String c s' => if is_space c then trimStart s' else s
  end.

Fixpoint all_space (s : string) : bool :=
  match s with
  | EmptyString => true
  | String c s' => is_space c && all_space s'
  end.

Fixpoint trimEnd (s : string) : string :=
  match s with
  | EmptyString => EmptyString
  | String c s' => if all_space s then EmptyString else String c (trimEnd s')
  end.

Definition trim (s : string) : string := trimEnd (trimStart s).

(** [xs.join(sep)] *)
Fixpoint join (sep : string) (xs : list string) : string :=
  match xs with
  | [] => ""
  | [x] => x
  | x :: rest => x ++ sep ++ join sep rest
  end.

Definition of_nat (n : nat) : string := NilZero.string_of_uint (Nat.to_uint n).

(** [s.replace(/lit\s*/g, '')]: every occurrence of [lit], with the white
    space after it, is removed.  [skip] counts the code units of [lit]
    still to drop; [eat] says that white space is being swallowed. *)
Fixpoint remove_lit_spaces (lit : string) (skip : nat) (eat : bool) (s : string) : string :=
  match s with
  | EmptyString => EmptyString
  | String c s' =>
      match skip with
      | S k => remove_lit_spaces lit k true s'
      | O =>
          if startsWith lit s && negb (String.eqb lit "")
          then remove_lit_spaces lit (String.length lit - 1) true s'
          else if eat && is_space c then remove_lit_spaces lit 0 true s'
          else String c (remove_lit_spaces lit 0 false s')
      end
  end.

Definition removeAll (lit s : string) : string := remove_lit_spaces lit 0 false s.

(** [s.match(/\{[\s\S]*\}/)]: from the first opening brace to the last
    closing brace after it. *)
Fixpoint upto_last_close (s : string) : option string :=
  match s with
  | EmptyString => None
  | String c s' =>
      match upto_last_close s' with
      | Some r => Some (String c r)
      | None => if Ascii.eqb c "}" then Some (String c EmptyString) else None
      end
  end.

Fixpoint match_braces (s : string) : option string :=
  match s with
  | EmptyString => None
  | String c s' =>
      if Ascii.eqb c "{"
      then match upto_last_close s' with
           | Some r => Some (String c r)
           | None => None
           end
      else match_braces s'
  end.

End JSString.

(** ** Regular expressions of the shape the source uses

    [/\bdelete\b/i], [/\bcancel\s+subscription\b/i]: literal code units,
    word boundaries, and [\s+]. *)

Module JSRegExp.
Import JSString.

Inductive atom : Type :=
| Chr (c : ascii)
| WordBoundary
| Spaces.

Definition pattern := list atom.

Fixpoint lit (s : string) : pattern :=
  match s with
  | EmptyString => []
  | String c s' => Chr c :: lit s'
  end.

Definition word_of (o : option ascii) : bool :=
  match o with
  | Some c => is_word c
  | None => false
  end.

Definition head (s : string) : option ascii :=
  match s with
  | EmptyString => None
  | String c _ => Some c
  end.

Definition at_boundary (prev : option ascii) (s : string) : bool :=
  xorb (word_of prev) (word_of (head s)).

(** One or more white-space code units, then the continuation. *)
Fixpoint spaces_then (k : option ascii -> string -> bool) (s : string) : bool :=
  match s with
  | EmptyString => false
  | String c s' => is_space c && (k (Some c) s' || spaces_then k s')
  end.

(** [run p prev s]: [p] matches a prefix of [s], [prev] being the code
    unit just before [s]. *)
Fixpoint run (p : pattern) : option ascii -> string -> bool :=
  match p with
  | [] => fun _ _ => true
  | Chr c :: p' =>
      fun _ s =>
        match s with
        | EmptyString => false
        | String d s' => Ascii.eqb (canon c) (canon d) && run p' (Some d) s'
        end
  | WordBoundary :: p' => fun prev s => at_boundary prev s && run p' prev s
  | Spaces :: p' => fun _ s => spaces_then (run p') s
  end.

Fixpoint test_from (p : pattern) (prev : option ascii) (s : string) : bool :=
  run p prev s ||
  match s with
  | EmptyString => false
  | String c s' => test_from p (Some c) s'
  end.

(** [pattern.test(s)] *)
Definition test (p : pattern) (s : string) : bool := test_from p None s.

End JSRegExp.

(** ** JavaScript numbers and values *)

Module JSValue.
Import JSString.

Inductive number : Type :=
| NaN
| PosInf
| NegInf
| Fin (q : Q).

Definition of_Z (z : Z) : number := Fin (inject_Z z).

(** [ToBoolean] on a number: [NaN] and the zeros are falsy. *)
Definition number_truthy (n : number) : bool :=
  match n with
  | NaN => false
  | Fin q => negb (Qeq_bool q 0%Q)
  | PosInf | NegInf => true
  end.

Definition Math_max (a b : number) : number :=
  match a, b with
  | NaN, _ | _, NaN => NaN
  | PosInf, _ | _, PosInf => PosInf
  | NegInf, x | x, NegInf => x
  | Fin x, Fin y => if Qle_bool x y then Fin y else Fin x
  end.

Definition Math_min (a b : number) : number :=
  match a, b with
  | NaN, _ | _, NaN => NaN
  | NegInf, _ | _, NegInf => NegInf
  | PosInf, x | x, PosInf => x
  | Fin x, Fin y => if Qle_bool x y then Fin x else Fin y
  end.

(** [a <= b] on numbers; false whenever [NaN] is involved. *)
Definition number_leb (a b : number) : bool :=
  match a, b with
  | NaN, _ | _, NaN => false
  | NegInf, _ => true
  | _, PosInf => true
  | _, NegInf => false
  | PosInf, _ => false
  | Fin x, Fin y => Qle_bool x y
  end.

(** [a < b] *)
Definition number_ltb (a b : number) : bool :=
  match a, b with
  | NaN, _ | _, NaN => false
  | _, NegInf => false
  | NegInf, _ => true
  | PosInf, _ => false
  | _, PosInf => true
  | Fin x, Fin y => negb (Qle_bool y x)
  end.

(** [a === b] on numbers *)
Definition number_eqb (a b : number) : bool :=
  match a, b with
  | PosInf, PosInf | NegInf, NegInf => true
  | Fin x, Fin y => Qeq_bool x y
  | _, _ => false
  end.

Inductive value : Type :=
| VUndefined
| VNull
| VBool (b : bool)
| VNum (n : number)
| VStr (s : string)
| VArr (xs : list value)
| VObj (fields : list (string * value)).

(** An object is its own properties in insertion order, keys unique. *)
Definition obj := list (string * value).

Fixpoint get (o : obj) (k : string) : value :=
  match o with
  | [] => VUndefined
  | (k', v) :: r => if String.eqb k' k then v else get r k
  end.

Fixpoint set (o : obj) (k : string) (v : value) : obj :=
  match o with
  | [] => [(k, v)]
  | (k', v') :: r => if String.eqb k' k then (k, v) :: r else (k', v') :: set r k v
  end.

Fixpoint delete (o : obj) (k : string) : obj :=
  match o with
  | [] => []
  | (k', v') :: r => if String.eqb k' k then delete r k else (k', v') :: delete r k
  end.

Fixpoint indexed {A} (f : A -> value) (i : nat) (xs : list A) : obj :=
  match xs with
  | [] => []
  | x :: r => (of_nat i, f x) :: indexed f (S i) r
  end.

Fixpoint units (s : string) : list ascii :=
  match s with
  | EmptyString => []
  | String c s' => c :: units s'
  end.

(** The own enumerable properties that [{...v}] copies. *)
Definition own_entries (v : value) : obj :=
  match v with
  | VObj o => o
  | VArr xs => indexed (fun x => x) 0 xs
  | VStr s => indexed (fun c => VStr (String c EmptyString)) 0 (units s)
  | _ => []
  end.

(** [{ ...base, ...src }] *)
Definition spread (base src : obj) : obj :=
  fold_left (fun acc kv => set acc (fst kv) (snd kv)) src base.

(** [v.k] for the property names the normaliser reads: none of them is
    an index, [length] or a name found on a built-in prototype. *)
Definition prop (v : value) (k : string) : value :=
  match v with
  | VObj o => get o k
  | _ => VUndefined
  end.

Definition truthy (v : value) : bool :=
  match v with
  | VUndefined | VNull => false
  | VBool b => b
  | VNum n => number_truthy n
  | VStr s => negb (String.eqb s "")
  | VArr _ | VObj _ => true
  end.

Definition is_undefined (v : value) : bool :=
  match v with
  | VUndefined => true
  | _ => false
  end.

(** [typeof v === 'object'] *)
Definition typeof_object (v : value) : bool :=
  match v with
  | VNull | VArr _ | VObj _ => true
  | _ => false
  end.

(** [a ?? b] *)
Definition nullish (a b : value) : value :=
  match a with
  | VUndefined | VNull => b
  | _ => a
  end.

(** [a || b] *)
Definition or_else (a b : value) : value := if truthy a then a else b.

End JSValue.

(** ** Arithmetic on doubles

    A finite double is held as the rational it denotes.  [round53] is the
    rounding of binary64 arithmetic (to nearest, ties to even, 53
    significant bits, gradual underflow below [2^-1022]); a product is the
    exact product, rounded.  Values beyond the largest double are not
    sent to an infinity: the budgets of a run are far below it. *)

Module JSDouble.

(** [2^k] *)
Definition pow2 (k : Z) : Q :=
  if (0 <=? k)%Z then inject_Z (2 ^ k)%Z else Qmake 1 (Z.to_pos (2 ^ (- k))%Z).

(** The [k] with [2^k <= n/d < 2^(k+1)]. *)
Definition ilog2 (n d : positive) : Z :=
  let k := (Z.log2 (Z.pos n) - Z.log2 (Z.pos d))%Z in
  if Qle_bool (pow2 k) (Qmake (Z.pos n) d) then k else (k - 1)%Z.

(** The integer nearest to [q >= 0], the even one at a tie. *)
Definition nearest (q : Q) : Z :=
  let a := Qnum q in
  let b := Z.pos (Qden q) in
  let f := (a / b)%Z in
  let r := (a mod b)%Z in
  if (2 * r <? b)%Z then f
  else if (b <? 2 * r)%Z then (f + 1)%Z
  else if Z.even f then f else (f + 1)%Z.

Definition round_pos (n d : positive) : Q :=
  let e := Z.max (ilog2 n d - 52) (-1074) in
  Qred (inject_Z (nearest (Qmake (Z.pos n) d / pow2 e)) * pow2 e)%Q.

Definition round53 (q : Q) : Q :=
  match Qnum q with
  | Z0 => 0%Q
  | Zpos n => round_pos n (Qden q)
  | Zneg n => Qopp (round_pos n (Qden q))
  end.

(** [a * b] on doubles *)
Definition mul (a b : Q) : Q := round53 (a * b)%Q.

End JSDouble.

Arguments JSDouble.pow2 : simpl never.
Arguments JSDouble.ilog2 : simpl never.
Arguments JSDouble.nearest : simpl never.
Arguments JSDouble.round_pos : simpl never.
Arguments JSDouble.round53 : simpl never.
Arguments JSDouble.mul : simpl never.

(** ** The host platform *)

Record URL : Type := mkURL {
  pathname : string;
  search : string;
}.

Class Platform : Type := {
  (** [new URL(s)]; [None] when the constructor throws. *)
  URL_parse : string -> option URL;
  (** [JSON.parse(s)]; the error carries [String(e)]. *)
  JSON_parse : string -> result string JSValue.value;
  (** [JSON.stringify(v)] *)
  JSON_stringify : JSValue.value -> string;
  (** [String(n)] on a number. *)
  Number_toString : JSValue.number -> string;
  (** [Number(s)] on a string. *)
  StringToNumber : string -> JSValue.number;
}.

(** ** Types of [types.ts] *)

Inductive Direction : Type := up | down.

Inductive AgentAction : Type :=
| Click (target : string)
| Fill (target value : string)
| Select (target option : string)
| Scroll (direction : Direction)
| Back
| Wait (ms : JSValue.number)
| Search (query : string)
| OpenHelp
| Done (reason : string) (evidenceSteps : list JSValue.number).

Inductive ProgressLevel : Type := none | some | major.

Record InteractiveElement : Type := {
  el_ref : string;
  el_role : string;
  el_name : string;
}.

Record PageSnapshot : Type := {
  snap_url : string;
  snap_title : string;
  headings : list string;
  navLinks : list string;
  interactiveElements : list InteractiveElement;
  snap_text : string;
  hasSearchBox : bool;
  hasHelpLink : bool;
}.

Record StepResult : Type := {
  ok : bool;
  notes : string;
  newUrl : option string;
  progress : ProgressLevel;
  error : option string;
}.

Record StepErrors : Type := {
  console : list string;
  network : list string;
  exception : option string;
}.

Record StepLog : Type := {
  i : nat;
  timestamp : string;
  url : string;
  pageTitle : string;
  snapshot : PageSnapshot;
  action : AgentAction;
  result_ : StepResult;
  screenshot : string;
  errors : StepErrors;
}.

Record HelpLadderState : Type := {
  phase : Z;
  stepsWithoutProgress : Z;
  searchTermsUsed : list string;
  helpOpened : bool;
}.

Inductive FindingType : Type := discoverability | copy | validation | bug | performance.
Inductive Severity : Type := low | med | high.

Record Finding : Type := {
  f_type : FindingType;
  severity : Severity;
  title : string;
  details : string;
  evidence_step : nat;
  evidence_screenshot : string;
}.

Record RunMetrics : Type := {
  m_steps : nat;
  pageTransitions : nat;
  backtracks : nat;
  searchUsed : bool;
  stuckEvents : nat;
  consoleErrors : nat;
  failedRequests : nat;
}.

Record SuccessHints : Type := {
  mustSeeText : option (list string);
  mustEndOnUrlIncludes : option (list string);
}.

Inductive Status : Type := success | fail | partial.

(** The destructive-action blocklist of [types.ts]. *)
Definition DESTRUCTIVE_KEYWORDS : list string :=
  [ "delete"; "remove"; "cancel subscription"; "unsubscribe"; "close account";
    "deactivate"; "terminate"; "destroy"; "erase"; "permanently" ].

(** ** agentLoop.ts: [parseActionResponse] *)

Module Normalizer.
Import JSString JSValue.

Inductive ParseError : Type :=
| EmptyResponse
| NoJsonFound (text : string)
| InvalidJson (fragment err : string)
| NoAction
| InvalidActionFormat (parsedAction : value)
| MissingField (what : string) (action : value)
| UnknownActionType (type : value)
| NotPrimitive.

Definition actionTypes : list string :=
  ["click"; "fill"; "select"; "scroll"; "back"; "wait"; "search"; "openHelp"; "done"].

(** The helper [getProperty(obj, ...keys)]. *)
Fixpoint getProperty (o : value) (keys : list string) : value :=
  match keys with
  | [] => VUndefined
  | key :: rest =>
      if negb (is_undefined (prop o key)) then prop o key else getProperty o rest
  end.

(** The first of [actionTypes] that is a defined property of [action]. *)
Fixpoint first_present (action : value) (types : list string) : option string :=
  match types with
  | [] => None
  | type :: rest =>
      if negb (is_undefined (prop action type)) then Some type
      else first_present action rest
  end.

(** Whether [String(v)] and [Number(v)] return.  An object parsed from
    JSON converts through [Object.prototype.toString] unless it has a key
    [toString] of its own, which is not callable: the conversion then
    throws a [TypeError].  An array converts its elements in turn. *)
Fixpoint convertible (v : value) : bool :=
  match v with
  | VObj o => negb (existsb (fun kv => String.eqb (fst kv) "toString") o)
  | VArr xs => forallb convertible xs
  | _ => true
  end.

Section WithPlatform.
Context {P : Platform}.

(** [String(v)], when it returns *)
Fixpoint ToString (v : value) : string :=
  match v with
  | VUndefined => "undefined"
  | VNull => "null"
  | VBool true => "true"
  | VBool false => "false"
  | VNum n => Number_toString n
  | VStr s => s
  | VArr xs =>
      join "," (map (fun x => match x with
                              | VUndefined | VNull => ""
                              | _ => ToString x
                              end) xs)
  | VObj _ => "[object Object]"
  end.

(** [Number(v)], when it returns *)
Definition ToNumber (v : value) : number :=
  match v with
  | VUndefined => NaN
  | VNull => of_Z 0
  | VBool true => of_Z 1
  | VBool false => of_Z 0
  | VNum n => n
  | VStr s => StringToNumber s
  | VArr _ => StringToNumber (ToString v)
  | VObj _ => NaN
  end.

(** [Math.min(5000, Math.max(100, Number(ms) || 1000))] *)
Definition clampWait (ms : value) : number :=
  let n := ToNumber ms in
  Math_min (of_Z 5000) (Math_max (of_Z 100) (if number_truthy n then n else of_Z 1000)).

(** The flat shape: [action = { type: action, ...parsed }], minus the
    wrapper keys. *)
Definition fromFlat (parsed : value) (type : string) : value :=
  let a := spread [("type", VStr type)] (own_entries parsed) in
  let a := delete a "action" in
  let a := delete a "command" in
  VObj (if truthy (prop parsed "thinking") then delete a "thinking" else a).

(** The double-nested shape: [action = { type: innerType, ...action }]. *)
Definition unwrapNested (action : value) : value :=
  if truthy action && typeof_object action
     && (truthy (prop action "action") || truthy (prop action "command"))
  then
    match nullish (prop action "action") (prop action "command") with
    | VStr innerType =>
        let a := spread [("type", VStr innerType)] (own_entries action) in
        let a := delete a "action" in
        let a := delete a "command" in
        VObj (if truthy (get a "thinking") then delete a "thinking" else a)
    | _ => action
    end
  else action.

(** [if (!action.type && action.name) action.type = action.name] *)
Definition aliasName (action : value) : value :=
  if negb (truthy (prop action "type")) && truthy (prop action "name")
  then match action with
       | VObj o => VObj (set o "type" (prop action "name"))
       | _ => action
       end
  else action.

(** Shorthand and fully nested shapes, tried when [type] is missing.
    On an array, [action['fill']] is the method [Array.prototype.fill]: it
    is the first of the names that is defined, and it is neither a string
    nor an object. *)
Definition fromShorthand (action : value) : value :=
  if negb (truthy (prop action "type")) then
    match action with
    | VArr _ => VObj [("type", VStr "fill")]
    | _ =>
    match first_present action actionTypes with
    | Some type =>
        match prop action type with
        | VStr nested =>
            if String.eqb type "click" then VObj [("type", VStr type); ("target", VStr nested)]
            else if String.eqb type "search" then VObj [("type", VStr type); ("query", VStr nested)]
            else if String.eqb type "scroll" then VObj [("type", VStr type); ("direction", VStr nested)]
            else VObj [("type", VStr type); ("target", VStr nested)]
        | (VObj _ | VArr _) as nested =>
            VObj (spread [("type", VStr type)] (own_entries nested))
        | _ => VObj [("type", VStr type)]
        end
    | None => action
    end
    end
  else action.

(** The [switch (action.type)] that validates and builds the action.
    Where the source converts with [String(..)], [Number(..)] or a
    template literal, a value that is not [convertible] throws. *)
Definition dispatch (action : value) : result ParseError AgentAction :=
  match prop action "type" with
  | VStr type =>
      if String.eqb type "click" then
        let target := getProperty action ["target"; "element"; "ref"; "selector"; "text"] in
        if negb (truthy target) then Throw (MissingField "Click action missing target" action)
        else if negb (convertible target) then Throw NotPrimitive
        else Ok (Click (ToString target))
      else if String.eqb type "fill" then
        let target := getProperty action ["target"; "element"; "ref"; "selector"; "field"] in
        let value := getProperty action ["value"; "text"; "input"] in
        if negb (truthy target) || is_undefined value
        then Throw (MissingField "Fill action missing target/value" action)
        else if negb (convertible target && convertible value) then Throw NotPrimitive
        else Ok (Fill (ToString target) (ToString value))
      else if String.eqb type "select" then
        let target := getProperty action ["target"; "element"; "ref"; "selector"] in
        let option := getProperty action ["option"; "value"; "choice"] in
        if negb (truthy target) || negb (truthy option)
        then Throw (MissingField "Select action missing target/option" action)
        else if negb (convertible target && convertible option) then Throw NotPrimitive
        else Ok (Select (ToString target) (ToString option))
      else if String.eqb type "scroll" then
        Ok (Scroll (match prop action "direction" with
                    | VStr d => if String.eqb d "up" then up else down
                    | _ => down
                    end))
      else if String.eqb type "back" then Ok Back
      else if String.eqb type "wait" then
        if negb (convertible (prop action "ms")) then Throw NotPrimitive
        else Ok (Wait (clampWait (prop action "ms")))
      else if String.eqb type "search" then
        let query := getProperty action ["query"; "term"; "text"; "input"; "value"] in
        if negb (truthy query) then Throw (MissingField "Search action missing query" action)
        else if negb (convertible query) then Throw NotPrimitive
        else Ok (Search (ToString query))
      else if String.eqb type "openHelp" then Ok OpenHelp
      else if String.eqb type "done" then
        let reason := or_else (getProperty action ["reason"; "message"; "explanation"])
                              (VStr "Task completed") in
        let evidenceSteps := match prop action "evidenceSteps" with
                             | VArr steps => steps
                             | _ => []
                             end in
        if negb (convertible reason && forallb convertible evidenceSteps)
        then Throw NotPrimitive
        else Ok (Done (ToString reason) (map ToNumber evidenceSteps))
      else Throw (UnknownActionType (VStr type))
  | other =>
      if negb (convertible other) then Throw NotPrimitive
      else Throw (UnknownActionType other)
  end.

(** The action object that reaches the [switch]: the payload under
    [action] or [command], brought to the flat shape. *)
Definition resolve (parsed : value) : result ParseError value :=
  let action := nullish (prop parsed "action") (prop parsed "command") in
  let action := match action with
                | VStr type => fromFlat parsed type
                | _ => action
                end in
  let action := unwrapNested action in
  if negb (truthy action) then Throw NoAction else
  let action := aliasName action in
  let action := fromShorthand action in
  if negb (truthy (prop action "type"))
  then Throw (InvalidActionFormat (prop parsed "action"))
  else Ok action.

(** [parseActionResponse] from the parsed JSON on. *)
Definition normalize (parsed : value) : result ParseError AgentAction :=
  (action <- resolve parsed ;; dispatch action)%result.

(** The message of the [Error] thrown for each failure. *)
Definition errorMessage (e : ParseError) : string :=
  match e with
  | EmptyResponse => "Empty response from Claude CLI"
  | NoJsonFound text => "No JSON found in response: " ++ text
  | InvalidJson fragment err =>
      "Invalid JSON in response: " ++ fragment ++ "... Error: " ++ err
  | NoAction => "No action in response"
  | InvalidActionFormat VUndefined =>
      (* [JSON.stringify(undefined)] is [undefined], and [.slice] throws *)
      "Cannot read properties of undefined (reading 'slice')"
  | InvalidActionFormat parsedAction =>
      "Invalid action format: " ++ substring 0 200 (JSON_stringify parsedAction)
  | MissingField what action => what ++ ": " ++ JSON_stringify action
  | UnknownActionType type => "Unknown action type: " ++ ToString type
  | NotPrimitive => "Cannot convert object to primitive value"
  end.

Definition parseActionResponse (text : string) : result ParseError AgentAction :=
  if String.eqb text "" || String.eqb (trim text) "" then Throw EmptyResponse else
  let cleanText := trim (removeAll "```" (removeAll "```json" text)) in
  match match_braces cleanText with
  | None => Throw (NoJsonFound (substring 0 300 text))
  | Some json =>
      match JSON_parse json with
      | Throw e => Throw (InvalidJson (substring 0 200 json) e)
      | Ok parsed => normalize parsed
      end
  end.

End WithPlatform.
End Normalizer.

(** ** snapshot.ts: [getPageKey] *)

(** A thrown JavaScript value: whether it is an [Error], its [message],
    and [String(e)]. *)
Record JSError : Type := {
  is_Error : bool;
  message : string;
  as_string : string;
}.

(** [error instanceof Error ? error.message : String(error)] *)
Definition describe (e : JSError) : string :=
  if is_Error e then message e else as_string e.

(** What [new URL(s)] throws on a string that is not a URL. *)
Definition InvalidURL : JSError :=
  {| is_Error := true; message := "Invalid URL"; as_string := "TypeError: Invalid URL" |}.

Section Snapshot.
Context {P : Platform}.

Definition URL_pathname (u : string) : result JSError string :=
  match URL_parse u with
  | Some parsed => Ok (pathname parsed)
  | None => Throw InvalidURL
  end.

Definition URL_search (u : string) : result JSError string :=
  match URL_parse u with
  | Some parsed => Ok (search parsed)
  | None => Throw InvalidURL
  end.

Definition getPageKey (snapshot : PageSnapshot) : result JSError string :=
  (urlPath <- URL_pathname (snap_url snapshot) ;;
   let primaryHeading := hd "" (headings snapshot) in
   Ok (urlPath ++ "::" ++ primaryHeading))%result.

End Snapshot.

(** ** agentLoop.ts *)

Module AgentLoop.
Import JSString JSValue.

(** [/\bw1\s+w2...\b/i] *)
Fixpoint spaced (ws : list string) : JSRegExp.pattern :=
  match ws with
  | [] => []
  | [w] => JSRegExp.lit w
  | w :: rest => (JSRegExp.lit w ++ JSRegExp.Spaces :: spaced rest)%list
  end.

Definition words (ws : list string) : JSRegExp.pattern :=
  (JSRegExp.WordBoundary :: spaced ws ++ [JSRegExp.WordBoundary])%list.

Definition DESTRUCTIVE_PATTERNS : list JSRegExp.pattern :=
  [ words ["delete"];
    words ["remove"];
    words ["cancel"; "subscription"];
    words ["unsubscribe"];
    words ["close"; "account"];
    words ["deactivate"];
    words ["terminate"];
    words ["destroy"];
    words ["erase"];
    words ["permanently"] ].

Record AgentLoopConfig : Type := {
  goal : string;
  maxSteps : nat;
  maxMinutes : Q;
  successHints : option SuccessHints;
}.

Record AgentLoopResult : Type := {
  res_steps : list StepLog;
  res_finalStatus : Status;
  res_reason : string;
  res_completionEvidence : list string;
}.

Record PreviousState : Type := {
  prev_url : string;
  prev_title : string;
  prev_pageKey : string;
}.

Definition isDestructiveAction (action : AgentAction) (goal : string) : bool :=
  match action with
  | Click target =>
      let target := toLowerCase target in
      let goalLower := toLowerCase goal in
      existsb (fun pattern =>
                 JSRegExp.test pattern target && negb (JSRegExp.test pattern goalLower))
              DESTRUCTIVE_PATTERNS
  | _ => false
  end.

Definition updateHelpLadder (ladderState : HelpLadderState) (snapshot : PageSnapshot)
  : HelpLadderState :=
  if (10 <=? stepsWithoutProgress ladderState)%Z && negb (helpOpened ladderState)
     && hasHelpLink snapshot
  then {| phase := 2;
          stepsWithoutProgress := stepsWithoutProgress ladderState;
          searchTermsUsed := searchTermsUsed ladderState;
          helpOpened := helpOpened ladderState |}
  else if (6 <=? stepsWithoutProgress ladderState)%Z && hasSearchBox snapshot
  then {| phase := 1;
          stepsWithoutProgress := stepsWithoutProgress ladderState;
          searchTermsUsed := searchTermsUsed ladderState;
          helpOpened := helpOpened ladderState |}
  else ladderState.

(** "Update ladder state based on progress" in [runAgentLoop]. *)
Definition updateProgress (ladderState : HelpLadderState) (p : ProgressLevel)
  : HelpLadderState :=
  {| phase := phase ladderState;
     stepsWithoutProgress :=
       match p with
       | major => 0
       | none => stepsWithoutProgress ladderState + 1
       | some => Z.max 0 (stepsWithoutProgress ladderState - 1)
       end%Z;
     searchTermsUsed := searchTermsUsed ladderState;
     helpOpened := helpOpened ladderState |}.

Definition nonempty {A} (o : option (list A)) : option (list A) :=
  match o with
  | Some (x :: r) => Some (x :: r)
  | _ => None
  end.

Definition checkSuccessHints (snapshot : PageSnapshot) (hints : SuccessHints) : bool :=
  let seen :=
    match nonempty (mustSeeText hints) with
    | Some texts =>
        let pageText := toLowerCase (snap_text snapshot) in
        forallb (fun text => includes pageText (toLowerCase text)) texts
    | None => true
    end in
  if negb seen then false else
  match nonempty (mustEndOnUrlIncludes hints) with
  | Some patterns =>
      let urlLower := toLowerCase (snap_url snapshot) in
      existsb (fun pattern => includes urlLower (toLowerCase pattern)) patterns
  | None => true
  end.

Definition typeName (action : AgentAction) : string :=
  match action with
  | Click _ => "click"
  | Fill _ _ => "fill"
  | Select _ _ => "select"
  | Scroll _ => "scroll"
  | Back => "back"
  | Wait _ => "wait"
  | Search _ => "search"
  | OpenHelp => "openHelp"
  | Done _ _ => "done"
  end.

(** The action as the object [JSON.stringify] receives. *)
Definition actionValue (action : AgentAction) : value :=
  VObj (("type", VStr (typeName action)) ::
        match action with
        | Click target => [("target", VStr target)]
        | Fill target v => [("target", VStr target); ("value", VStr v)]
        | Select target o => [("target", VStr target); ("option", VStr o)]
        | Scroll d => [("direction", VStr (match d with up => "up" | down => "down" end))]
        | Wait ms => [("ms", VNum ms)]
        | Search query => [("query", VStr query)]
        | Done reason evidenceSteps =>
            [("reason", VStr reason); ("evidenceSteps", VArr (map VNum evidenceSteps))]
        | Back | OpenHelp => []
        end).

(** What the world answers during one iteration of the loop.  The calls
    the source awaits outside its two [try] blocks ([buildSnapshot],
    [takeScreenshot], [appendStepLog], [onStep]) are taken to return: a run
    in which one of them rejects is not described here. *)
Record Env : Type := {
  elapsed : Z;                           (* Date.now() - startTime *)
  observed : PageSnapshot;               (* buildSnapshot(page) *)
  completion : result JSError string;    (* the completion service's answer *)
  shot : string;                         (* evidence.takeScreenshot(page, stepIndex) *)
  clock : string;                        (* new Date().toISOString() *)
  stepErrors : StepErrors;               (* evidence.getStepErrors() *)
  beforeUrl : string;                    (* page.url() before the action *)
  driver : option JSError;               (* what the driver call threw, if it did *)
  afterUrl : string;                     (* page.url() after the action *)
  reobserved : PageSnapshot;             (* buildSnapshot(page) after the step *)
}.

Record LoopState : Type := {
  steps : list StepLog;
  ladderState : HelpLadderState;
  visitedPages : list (string * nat);
  previousState : option PreviousState;
  finalStatus : Status;
  reason : string;
  completionEvidence : list string;
}.

Inductive Control : Type :=
| Continue
| Break
| Raise (e : JSError).

Definition initialState : LoopState :=
  {| steps := [];
     ladderState := {| phase := 0; stepsWithoutProgress := 0;
                       searchTermsUsed := []; helpOpened := false |};
     visitedPages := [];
     previousState := None;
     finalStatus := fail;
     reason := "Unknown";
     completionEvidence := [] |}.

Fixpoint visit (m : list (string * nat)) (k : string) : list (string * nat) :=
  match m with
  | [] => [(k, 1)]
  | (k', n) :: r => if String.eqb k' k then (k, S n) :: r else (k', n) :: visit r k
  end.

Section WithPlatform.
Context {P : Platform}.

Definition assessProgress (beforeUrl afterUrl : string)
           (_previousState : option PreviousState) : result JSError ProgressLevel :=
  (beforePath <- URL_pathname beforeUrl ;;
   afterPath <- URL_pathname afterUrl ;;
   if negb (String.eqb beforePath afterPath) then Ok major else
   beforeParams <- URL_search beforeUrl ;;
   afterParams <- URL_search afterUrl ;;
   if negb (String.eqb beforeParams afterParams) then Ok some else
   Ok none)%result.

Definition executeAction (env : Env) (action : AgentAction) (snapshot : PageSnapshot)
           (previousState : option PreviousState) : result JSError StepResult :=
  let beforeUrl := beforeUrl env in
  match action with
  | Done _ _ =>
      Ok {| ok := true; notes := "Task declared complete"; newUrl := None;
            progress := major; error := None |}
  | _ =>
      match driver env with
      | Some e => Throw e
      | None =>
          let afterUrl := afterUrl env in
          (progress <- assessProgress beforeUrl afterUrl previousState ;;
           Ok {| ok := true;
                 notes := "Executed " ++ typeName action;
                 newUrl := if negb (String.eqb afterUrl beforeUrl)
                           then Some afterUrl else None;
                 progress := progress;
                 error := None |})%result
      end
  end.

(** [decideNextAction]: the prompt goes to the completion service, whose
    call may throw; its text goes through [parseActionResponse]. *)
Definition decideNextAction (answer : result JSError string) : result JSError AgentAction :=
  match answer with
  | Throw e => Throw e
  | Ok text =>
      match Normalizer.parseActionResponse text with
      | Ok action => Ok action
      | Throw e =>
          let name := match e with
                      | Normalizer.InvalidActionFormat VUndefined => "TypeError"
                      | Normalizer.NotPrimitive => "TypeError"
                      | _ => "Error"
                      end in
          Throw {| is_Error := true;
                   message := Normalizer.errorMessage e;
                   as_string := name ++ ": " ++ Normalizer.errorMessage e |}
      end
  end.

(** [config.maxMinutes * 60 * 1000], two products of doubles.
    [maxMinutes] is the value of a double; a rational that is not one is
    read as the double nearest to it, as a number literal is. *)
Definition timeoutMs (config : AgentLoopConfig) : Q :=
  JSDouble.mul (JSDouble.mul (JSDouble.round53 (maxMinutes config)) 60) 1000.

Definition withOutcome (st : LoopState) (status : Status) (why : string)
           (evidence : list string) : LoopState :=
  {| steps := steps st; ladderState := ladderState st;
     visitedPages := visitedPages st; previousState := previousState st;
     finalStatus := status; reason := why; completionEvidence := evidence |}.

Definition mkStep (env : Env) (stepIndex : nat) (snapshot : PageSnapshot)
           (action : AgentAction) (result : StepResult) : StepLog :=
  {| i := stepIndex; timestamp := clock env;
     url := snap_url snapshot; pageTitle := snap_title snapshot;
     snapshot := snapshot; action := action; result_ := result;
     screenshot := shot env; errors := stepErrors env |}.

(** The body of the [for] loop of [runAgentLoop], for [stepIndex].  The
    decision context built at each turn (goal, snapshot, recent history,
    the ladder object itself, remaining budgets) only feeds the prompt;
    what the completion service answers to it is [completion env]. *)
Definition iteration (config : AgentLoopConfig) (env : Env) (stepIndex : nat)
           (st : LoopState) : LoopState * Control :=
  (* Check time budget *)
  if Qle_bool (timeoutMs config) (inject_Z (elapsed env)) then
    (withOutcome st (match steps st with [] => fail | _ => partial end)
       ("Time budget exhausted (" ++ Number_toString (Fin (maxMinutes config)) ++ " minutes)")
       (completionEvidence st),
     Break)
  else
  let snapshot := observed env in
  match getPageKey snapshot with
  | Throw e => (st, Raise e)
  | Ok pageKey =>
  let visited := visit (visitedPages st) pageKey in
  (* Check for help ladder escalation *)
  let ladder := updateHelpLadder (ladderState st) snapshot in
  let st := {| steps := steps st; ladderState := ladder; visitedPages := visited;
               previousState := previousState st; finalStatus := finalStatus st;
               reason := reason st; completionEvidence := completionEvidence st |} in
  (* Decide next action *)
  match decideNextAction (completion env) with
  | Throw e => (withOutcome st (finalStatus st) ("Decision error: " ++ describe e)
                  (completionEvidence st), Break)
  | Ok (Done why evidenceSteps as action) =>
      let evidence := map (fun s => "step:" ++ Number_toString s) evidenceSteps in
      let hintsValid := match successHints config with
                        | Some hints => checkSuccessHints snapshot hints
                        | None => true
                        end in
      let stepLog := mkStep env stepIndex snapshot action
                       {| ok := true; notes := "Agent declared task complete";
                          newUrl := None; progress := major; error := None |} in
      ({| steps := steps st ++ [stepLog]; ladderState := ladder;
          visitedPages := visited; previousState := previousState st;
          finalStatus := if hintsValid then success else partial;
          reason := if hintsValid then why
                    else "Agent declared done but success hints not fully satisfied";
          completionEvidence := evidence |},
       Break)
  | Ok action =>
      (* Check for destructive action *)
      if isDestructiveAction action (goal config) then
        (withOutcome st fail
           ("Blocked destructive action: " ++ JSON_stringify (actionValue action))
           (completionEvidence st),
         Break)
      else
      (* Execute action *)
      let result :=
        match executeAction env action snapshot (previousState st) with
        | Ok r => r
        | Throw e => {| ok := false; notes := "Action failed: " ++ describe e;
                        newUrl := None; progress := none;
                        error := Some (as_string e) |}
        end in
      let stepLog := mkStep env stepIndex snapshot action result in
      (* Update ladder state based on progress *)
      let ladder := updateProgress ladder (progress result) in
      let st := {| steps := steps st ++ [stepLog]; ladderState := ladder;
                   visitedPages := visited; previousState := previousState st;
                   finalStatus := finalStatus st; reason := reason st;
                   completionEvidence := completionEvidence st |} in
      (* Check for help ladder phase 2 failure *)
      if (14 <=? stepsWithoutProgress ladder)%Z then
        (withOutcome st fail "Discoverability block: no progress for 14 steps"
           (completionEvidence st),
         Break)
      else
      (* Store previous state for next iteration *)
      let st := {| steps := steps st; ladderState := ladder; visitedPages := visited;
                   previousState := Some {| prev_url := snap_url snapshot;
                                            prev_title := snap_title snapshot;
                                            prev_pageKey := pageKey |};
                   finalStatus := finalStatus st; reason := reason st;
                   completionEvidence := completionEvidence st |} in
      (* Check success hints after each step *)
      match successHints config with
      | Some hints =>
          if checkSuccessHints (reobserved env) hints then
            (withOutcome st success "Success hints satisfied"
               ["step:" ++ of_nat stepIndex],
             Break)
          else (st, Continue)
      | None => (st, Continue)
      end
  end
  end.

(** The loop state after [k] turns of the [for] loop, the world
    answering [world j] at iteration [j]; a [Break] or an escaping
    exception freezes it. *)
Fixpoint after (config : AgentLoopConfig) (world : nat -> Env) (k : nat)
  : LoopState * Control :=
  match k with
  | O => (initialState, Continue)
  | S j =>
      match after config world j with
      | (st, Continue) => iteration config (world j) j st
      | stopped => stopped
      end
  end.

(** "If we exhausted steps without success" *)
Definition finish (config : AgentLoopConfig) (st : LoopState) : AgentLoopResult :=
  if (maxSteps config <=? length (steps st))%nat
     && match finalStatus st with fail => true | _ => false end
  then {| res_steps := steps st;
          res_finalStatus := partial;
          res_reason := "Step budget exhausted (" ++ of_nat (maxSteps config) ++ " steps)";
          res_completionEvidence := completionEvidence st |}
  else {| res_steps := steps st;
          res_finalStatus := finalStatus st;
          res_reason := reason st;
          res_completionEvidence := completionEvidence st |}.

Definition runAgentLoop (config : AgentLoopConfig) (world : nat -> Env)
  : result JSError AgentLoopResult :=
  match after config world (maxSteps config) with
  | (_, Raise e) => Throw e
  | (st, _) => Ok (finish config st)
  end.

End WithPlatform.
End AgentLoop.

(** ** evaluator.ts *)

Module Evaluator.
Import JSString.

Definition dq : string := String "034" EmptyString.

Definition isSearch (a : AgentAction) : bool :=
  match a with
  | Search _ => true
  | _ => false
  end.

Definition isOpenHelp (a : AgentAction) : bool :=
  match a with
  | OpenHelp => true
  | _ => false
  end.

Definition isSome (p : ProgressLevel) : bool :=
  match p with
  | some => true
  | _ => false
  end.

Definition formatActionShort (step : StepLog) : string :=
  match action step with
  | Click _ => "click"
  | Fill _ _ => "fill"
  | Select _ _ => "select"
  | Scroll _ => "scroll"
  | Back => "back"
  | Wait _ => "wait"
  | Search query => "search(" ++ dq ++ query ++ dq ++ ")"
  | OpenHelp => "help"
  | Done _ _ => "done"
  end.

Definition severityOrder (s : Severity) : nat :=
  match s with
  | high => 0
  | med => 1
  | low => 2
  end.

(** [findings.sort((a, b) => severityOrder[a.severity] - severityOrder[b.severity])];
    the sort of the language is stable. *)
Fixpoint insertBySeverity (x : Finding) (sorted : list Finding) : list Finding :=
  match sorted with
  | [] => [x]
  | y :: rest =>
      if (severityOrder (severity y) <=? severityOrder (severity x))%nat
      then y :: insertBySeverity x rest
      else x :: sorted
  end.

Definition sortBySeverity (findings : list Finding) : list Finding :=
  fold_left (fun sorted x => insertBySeverity x sorted) findings [].

Definition ellipsis (xs : list string) : string :=
  if (3 <? length xs)%nat then "..." else "".

(** Finding 1: one entry per stuck window. *)
Definition windowFinding (window : list StepLog) : list Finding :=
  if (3 <=? length window)%nat then
    match window with
    | [] => []
    | firstStep :: _ =>
        [{| f_type := discoverability;
            severity := if (6 <=? length window)%nat then high else med;
            title := "Navigation difficulty at " ++ pageTitle firstStep;
            details := "Agent spent " ++ of_nat (length window)
                       ++ " steps on the same page (" ++ url firstStep
                       ++ ") without meaningful progress. Actions attempted: "
                       ++ join ", " (map formatActionShort window);
            evidence_step := i firstStep;
            evidence_screenshot := screenshot firstStep |}]
    end
  else [].

(** Finding 2: repeated searches. *)
Definition searchFinding (steps : list StepLog) : list Finding :=
  let searchSteps := filter (fun s => isSearch (action s)) steps in
  if (2 <=? length searchSteps)%nat then
    match searchSteps with
    | [] => []
    | first :: _ =>
        let searchTerms := map (fun s => match action s with
                                         | Search query => query
                                         | _ => ""
                                         end) searchSteps in
        [{| f_type := discoverability;
            severity := med;
            title := "Required search to find feature";
            details := "Agent used search " ++ of_nat (length searchSteps)
                       ++ " times with terms: " ++ dq
                       ++ join (dq ++ ", " ++ dq) searchTerms ++ dq;
            evidence_step := i first;
            evidence_screenshot := screenshot first |}]
    end
  else [].

(** Finding 3: backtracking, given [findBacktrackSteps(steps)]. *)
Definition backtrackFinding (metrics : RunMetrics) (backtrackSteps : list StepLog)
  : list Finding :=
  match backtrackSteps with
  | [] => []
  | first :: _ =>
      [{| f_type := discoverability;
          severity := if (5 <=? backtracks metrics)%nat then high else med;
          title := "Excessive navigation backtracking";
          details := "Agent backtracked " ++ of_nat (backtracks metrics)
                     ++ " times, suggesting unclear navigation paths.";
          evidence_step := i first;
          evidence_screenshot := screenshot first |}]
  end.

(** Finding 4: console errors. *)
Definition consoleFinding (steps : list StepLog) (metrics : RunMetrics) : list Finding :=
  let stepsWithErrors :=
    filter (fun s => (0 <? length (console (errors s)))%nat) steps in
  match stepsWithErrors with
  | [] => []
  | first :: _ =>
      let allErrors := flat_map (fun s => console (errors s)) stepsWithErrors in
      [{| f_type := bug;
          severity := if (5 <=? consoleErrors metrics)%nat then high else med;
          title := "Console errors detected (" ++ of_nat (consoleErrors metrics) ++ " total)";
          details := "Errors include: " ++ join "; " (firstn 3 allErrors)
                     ++ ellipsis allErrors;
          evidence_step := i first;
          evidence_screenshot := screenshot first |}]
  end.

(** Finding 5: failed network requests. *)
Definition networkFinding (steps : list StepLog) (metrics : RunMetrics) : list Finding :=
  let stepsWithNetworkErrors :=
    filter (fun s => (0 <? length (network (errors s)))%nat) steps in
  match stepsWithNetworkErrors with
  | [] => []
  | first :: _ =>
      let allNetworkErrors := flat_map (fun s => network (errors s)) stepsWithNetworkErrors in
      [{| f_type := bug;
          severity := if (3 <=? failedRequests metrics)%nat then high else low;
          title := "Failed network requests (" ++ of_nat (failedRequests metrics) ++ " total)";
          details := "Failed requests: " ++ join "; " (firstn 3 allNetworkErrors)
                     ++ ellipsis allNetworkErrors;
          evidence_step := i first;
          evidence_screenshot := screenshot first |}]
  end.

(** The filter of finding 6, with the precedence the language gives it:
    [a && b || c] is [(a && b) || c]. *)
Definition isValidationStep (s : StepLog) : bool :=
  isSome (progress (result_ s))
  && includes (toLowerCase (notes (result_ s))) "validation"
  || includes (toLowerCase (notes (result_ s))) "error".

(** Finding 6: validation. *)
Definition validationFinding (steps : list StepLog) : list Finding :=
  let validationSteps := filter isValidationStep steps in
  match validationSteps with
  | [] => []
  | first :: _ =>
      [{| f_type := validation;
          severity := low;
          title := "Form validation triggered";
          details := "Validation errors were encountered during the flow at "
                     ++ of_nat (length validationSteps) ++ " step(s).";
          evidence_step := i first;
          evidence_screenshot := screenshot first |}]
  end.

(** Finding 7: help escalation. *)
Definition helpFinding (steps : list StepLog) : list Finding :=
  match find (fun s => isOpenHelp (action s)) steps with
  | Some helpStep =>
      [{| f_type := discoverability;
          severity := med;
          title := "Agent needed to access help";
          details := "The agent escalated to using help documentation, suggesting the feature was not easily discoverable.";
          evidence_step := i helpStep;
          evidence_screenshot := screenshot helpStep |}]
  | None => []
  end.

Section WithPlatform.
Context {P : Platform}.

(** The [for] loop of [detectStuckEvents]. *)
Fixpoint detectLoop (steps : list StepLog) (stuckCount consecutiveCount : nat)
         (lastPageKey : string) : result JSError nat :=
  match steps with
  | [] => Ok stuckCount
  | step :: rest =>
      (pageKey <- getPageKey (snapshot step) ;;
       if String.eqb pageKey lastPageKey then
         let consecutiveCount := S consecutiveCount in
         if (3 <=? consecutiveCount)%nat
         then detectLoop rest (S stuckCount) 0 lastPageKey
         else detectLoop rest stuckCount consecutiveCount lastPageKey
       else detectLoop rest stuckCount 1 pageKey)%result
  end.

Definition detectStuckEvents (steps : list StepLog) : result JSError nat :=
  if (length steps <? 3)%nat then Ok 0%nat else detectLoop steps 0 1 "".

(** The [for] loop of [findStuckWindows]; it returns the windows
    pushed so far and the window still open. *)
Fixpoint windowLoop (steps : list StepLog) (windows : list (list StepLog))
         (currentWindow : list StepLog) (lastPageKey : string)
  : result JSError (list (list StepLog) * list StepLog) :=
  match steps with
  | [] => Ok (windows, currentWindow)
  | step :: rest =>
      (pageKey <- getPageKey (snapshot step) ;;
       if String.eqb pageKey lastPageKey then
         windowLoop rest windows (currentWindow ++ [step])%list lastPageKey
       else
         windowLoop rest
           (if (3 <=? length currentWindow)%nat
            then (windows ++ [currentWindow])%list else windows)
           [step] pageKey)%result
  end.

Definition findStuckWindows (steps : list StepLog) : result JSError (list (list StepLog)) :=
  (r <- windowLoop steps [] [] "" ;;
   let '(windows, currentWindow) := r in
   (* Don't forget the last window *)
   Ok (if (3 <=? length currentWindow)%nat
       then (windows ++ [currentWindow])%list else windows))%result.

Fixpoint backtrackLoop (steps : list StepLog) (backtrackSteps : list StepLog)
         (seenPages : list string) : result JSError (list StepLog) :=
  match steps with
  | [] => Ok backtrackSteps
  | step :: rest =>
      (pageKey <- getPageKey (snapshot step) ;;
       if existsb (String.eqb pageKey) seenPages
       then backtrackLoop rest (backtrackSteps ++ [step])%list seenPages
       else backtrackLoop rest backtrackSteps (seenPages ++ [pageKey])%list)%result
  end.

Definition findBacktrackSteps (steps : list StepLog) : result JSError (list StepLog) :=
  backtrackLoop steps [] [].

(** The [for] loop of [calculateMetrics]. *)
Fixpoint metricsLoop (steps : list StepLog) (prevStep : option StepLog)
         (pageVisits : list string) (m : RunMetrics) : result JSError RunMetrics :=
  match steps with
  | [] => Ok m
  | step :: rest =>
      (transitions <-
         match prevStep with
         | Some prev =>
             if negb (String.eqb (url step) (url prev)) then
               prevPath <- URL_pathname (url prev) ;;
               currPath <- URL_pathname (url step) ;;
               Ok (if negb (String.eqb prevPath currPath)
                   then S (pageTransitions m) else pageTransitions m)
             else Ok (pageTransitions m)
         | None => Ok (pageTransitions m)
         end ;;
       pageKey <- getPageKey (snapshot step) ;;
       metricsLoop rest (Some step) (pageVisits ++ [pageKey])%list
         {| m_steps := m_steps m;
            pageTransitions := transitions;
            backtracks := if existsb (String.eqb pageKey) pageVisits
                          then S (backtracks m) else backtracks m;
            searchUsed := isSearch (action step) || searchUsed m;
            stuckEvents := stuckEvents m;
            consoleErrors := consoleErrors m + length (console (errors step));
            failedRequests := failedRequests m + length (network (errors step)) |})%result
  end.

(** [calculateMetrics], without [durationMs], which reads the clock. *)
Definition calculateMetrics (steps : list StepLog) : result JSError RunMetrics :=
  (m <- metricsLoop steps None []
          {| m_steps := length steps; pageTransitions := 0; backtracks := 0;
             searchUsed := false; stuckEvents := 0; consoleErrors := 0;
             failedRequests := 0 |} ;;
   stuck <- detectStuckEvents steps ;;
   Ok {| m_steps := m_steps m; pageTransitions := pageTransitions m;
         backtracks := backtracks m; searchUsed := searchUsed m;
         stuckEvents := stuck; consoleErrors := consoleErrors m;
         failedRequests := failedRequests m |})%result.

(** The findings in the order they are pushed, before sorting. *)
Definition collectFindings (steps : list StepLog) (metrics : RunMetrics)
  : result JSError (list Finding) :=
  (stuckWindows <- findStuckWindows steps ;;
   let f1 := flat_map windowFinding stuckWindows in
   let f2 := searchFinding steps in
   f3 <- (if (3 <=? backtracks metrics)%nat
          then backtrackSteps <- findBacktrackSteps steps ;;
               Ok (backtrackFinding metrics backtrackSteps)
          else Ok []) ;;
   Ok (f1 ++ f2 ++ f3 ++ consoleFinding steps metrics ++ networkFinding steps metrics
          ++ validationFinding steps ++ helpFinding steps)%list)%result.

Definition identifyFindings (steps : list StepLog) (metrics : RunMetrics)
  : result JSError (list Finding) :=
  (findings <- collectFindings steps metrics ;;
   (* Limit to top 7 findings *)
   Ok (firstn 7 (sortBySeverity findings)))%result.

(** The part of [evaluateRun] that computes metrics and findings. *)
Definition evaluate (steps : list StepLog) : result JSError (RunMetrics * list Finding) :=
  (metrics <- calculateMetrics steps ;;
   findings <- identifyFindings steps metrics ;;
   Ok (metrics, findings))%result.

End WithPlatform.
End Evaluator.

(** ** snapshot.ts: building and searching a snapshot *)

Module SnapshotBuilder.
Import JSString.

Definition MAX_INTERACTIVE_ELEMENTS : nat := 50.
Definition MAX_NAV_LINKS : nat := 15.
Definition MAX_HEADINGS : nat := 10.

(** A node of the accessibility tree.  [role] and [name] are read with
    [?.], so they may be missing; a missing flag is a false one and missing
    [children] are no children. *)
Inductive A11yNode : Type :=
| Node (role name value : option string) (disabled focused : bool)
       (children : list A11yNode).

Definition INTERACTIVE_ROLES : list string :=
  [ "button"; "link"; "textbox"; "combobox"; "listbox"; "option"; "checkbox";
    "radio"; "switch"; "slider"; "spinbutton"; "searchbox"; "menuitem";
    "menuitemcheckbox"; "menuitemradio"; "tab" ].

Definition NAV_ROLES : list string := ["navigation"; "menubar"; "menu"].
Definition HEADING_ROLES : list string := ["heading"].

(** [set.has(x)] *)
Definition has (set : list string) (x : string) : bool := existsb (String.eqb x) set.

(** An [InteractiveElement] with the optional fields [buildSnapshot] sets. *)
Record Element : Type := {
  element : InteractiveElement;
  el_value : option string;
  el_disabled : bool;
  el_focused : bool;
}.

(** The variables [buildSnapshot] closes over. *)
Record Builder : Type := {
  b_headings : list string;
  b_navLinks : list string;
  b_elements : list Element;
  b_hasSearchBox : bool;
  b_hasHelpLink : bool;
  refCounter : nat;
}.

Definition emptyBuilder : Builder :=
  {| b_headings := []; b_navLinks := []; b_elements := [];
     b_hasSearchBox := false; b_hasHelpLink := false; refCounter := 0 |}.

(** [generateRef(role)], given the counter already incremented. *)
Definition generateRef (role : string) (refCounter : nat) : string :=
  let prefix := toLowerCase (substring 0 3 role) in
  prefix ++ "_" ++ of_nat refCounter.

(** [/search/i] *)
Definition searchPattern : JSRegExp.pattern := JSRegExp.lit "search".

(** [/\bhelp\b/i] *)
Definition helpPattern : JSRegExp.pattern :=
  (JSRegExp.WordBoundary :: JSRegExp.lit "help" ++ [JSRegExp.WordBoundary])%list.

(** The body of [processNode] before it recurses into the children. *)
Definition visitNode (role name : string) (value : option string)
           (disabled focused : bool) (isNavRegion : bool) (b : Builder) : Builder :=
  (* Collect headings *)
  let headings :=
    if has HEADING_ROLES role && negb (String.eqb name "")
       && (length (b_headings b) <? MAX_HEADINGS)%nat
    then (b_headings b ++ [name])%list else b_headings b in
  (* Collect nav links *)
  let navLinks :=
    if isNavRegion && String.eqb role "link" && negb (String.eqb name "")
       && (length (b_navLinks b) <? MAX_NAV_LINKS)%nat
    then (b_navLinks b ++ [name])%list else b_navLinks b in
  (* Collect interactive elements *)
  if has INTERACTIVE_ROLES role && negb (String.eqb name "")
     && (length (b_elements b) <? MAX_INTERACTIVE_ELEMENTS)%nat
  then
    let counter := S (refCounter b) in
    {| b_headings := headings;
       b_navLinks := navLinks;
       b_elements :=
         (b_elements b
          ++ [{| element := {| el_ref := generateRef role counter;
                               el_role := role; el_name := name |};
                 el_value := value;
                 el_disabled := disabled;
                 el_focused := focused |}])%list;
       b_hasSearchBox :=
         if String.eqb role "searchbox"
            || String.eqb role "textbox" && JSRegExp.test searchPattern name
         then true else b_hasSearchBox b;
       b_hasHelpLink :=
         if String.eqb role "link" && JSRegExp.test helpPattern name
         then true else b_hasHelpLink b;
       refCounter := counter |}
  else
    {| b_headings := headings;
       b_navLinks := navLinks;
       b_elements := b_elements b;
       b_hasSearchBox := b_hasSearchBox b;
       b_hasHelpLink := b_hasHelpLink b;
       refCounter := refCounter b |}.

Fixpoint processNode (node : A11yNode) (inNav : bool) (b : Builder) {struct node}
  : Builder :=
  match node with
  | Node role name value disabled focused children =>
      let role := match role with
                  | Some r => toLowerCase r
                  | None => ""
                  end in
      let name := match name with
                  | Some n => trim n
                  | None => ""
                  end in
      (* Track if we're in a navigation region *)
      let isNavRegion := inNav || has NAV_ROLES role in
      (* Recurse into children *)
      fold_left (fun b child => processNode child isNavRegion b) children
                (visitNode role name value disabled focused isNavRegion b)
  end.

(** [buildCompactText] *)
Definition describeElement (el : Element) : string :=
  "[" ++ el_ref (element el) ++ "] " ++ el_role (element el) ++ ": "
  ++ Evaluator.dq ++ el_name (element el) ++ Evaluator.dq
  ++ match el_value el with
     | Some v => if String.eqb v "" then ""
                 else " (value: " ++ Evaluator.dq ++ v ++ Evaluator.dq ++ ")"
     | None => ""
     end
  ++ (if el_disabled el then " [disabled]" else "")
  ++ (if el_focused el then " [focused]" else "").

Definition nl : string := String "010" EmptyString.

Definition buildCompactText (url title : string) (headings navLinks : list string)
           (elements : list Element) : string :=
  let lines := ["Page: " ++ title; "URL: " ++ url] in
  let lines := if (0 <? length headings)%nat
               then (lines ++ [(nl ++ "Headings: " ++ join " > " headings)%string])%list
               else lines in
  let lines := if (0 <? length navLinks)%nat
               then (lines ++ [(nl ++ "Nav: " ++ join ", " navLinks)%string])%list
               else lines in
  let lines := if (0 <? length elements)%nat
               then (lines
                     ++ (nl ++ "Interactive elements (" ++ of_nat (length elements)
                            ++ "):")%string
                     :: map describeElement elements)%list
               else lines in
  join nl lines.

(** [buildSnapshot] when the page has an accessibility tree [root]. *)
Definition buildSnapshot (url title : string) (root : A11yNode) : PageSnapshot :=
  let b := processNode root false emptyBuilder in
  {| snap_url := url;
     snap_title := title;
     headings := b_headings b;
     navLinks := b_navLinks b;
     interactiveElements := map element (b_elements b);
     snap_text := buildCompactText url title (b_headings b) (b_navLinks b) (b_elements b);
     hasSearchBox := b_hasSearchBox b;
     hasHelpLink := b_hasHelpLink b |}.

Definition findElementByRef (snapshot : PageSnapshot) (ref : string)
  : option InteractiveElement :=
  find (fun el => String.eqb (el_ref el) ref) (interactiveElements snapshot).

Definition findElementByText (snapshot : PageSnapshot) (text : string)
  : option InteractiveElement :=
  let lowerText := toLowerCase text in
  find (fun el => includes (toLowerCase (el_name el)) lowerText)
       (interactiveElements snapshot).

Definition findSearchBox (snapshot : PageSnapshot) : option InteractiveElement :=
  find (fun el => String.eqb (el_role el) "searchbox"
                  || String.eqb (el_role el) "textbox"
                     && JSRegExp.test searchPattern (el_name el))
       (interactiveElements snapshot).

Definition findHelpLink (snapshot : PageSnapshot) : option InteractiveElement :=
  find (fun el => String.eqb (el_role el) "link"
                  && JSRegExp.test helpPattern (el_name el))
       (interactiveElements snapshot).

(** The element [executeAction] acts on for a click, fill or select:
    [findElementByRef(snapshot, target) || findElementByText(snapshot, target)]. *)
Definition locate (snapshot : PageSnapshot) (target : string) : option InteractiveElement :=
  match findElementByRef snapshot target with
  | Some el => Some el
  | None => findElementByText snapshot target
  end.

End SnapshotBuilder.

(** ** agentLoop.ts: the history shown to the model *)

Module History.
Import JSString.

Definition HISTORY_LENGTH : nat := 8.

Record StepSummary : Type := {
  sum_i : nat;
  sum_action : string;
  sum_result : string;
  sum_url : string;
}.

Section WithPlatform.
Context {P : Platform}.

Definition formatAction (action : AgentAction) : string :=
  match action with
  | Click target => "click(" ++ Evaluator.dq ++ target ++ Evaluator.dq ++ ")"
  | Fill target value =>
      "fill(" ++ Evaluator.dq ++ target ++ Evaluator.dq ++ ", "
      ++ Evaluator.dq ++ value ++ Evaluator.dq ++ ")"
  | Select target option =>
      "select(" ++ Evaluator.dq ++ target ++ Evaluator.dq ++ ", "
      ++ Evaluator.dq ++ option ++ Evaluator.dq ++ ")"
  | Scroll direction =>
      "scroll(" ++ match direction with up => "up" | down => "down" end ++ ")"
  | Back => "back()"
  | Wait ms => "wait(" ++ Number_toString ms ++ "ms)"
  | Search query => "search(" ++ Evaluator.dq ++ query ++ Evaluator.dq ++ ")"
  | OpenHelp => "openHelp()"
  | Done reason _ => "done(" ++ Evaluator.dq ++ reason ++ Evaluator.dq ++ ")"
  end.

(** [steps.slice(-n)] *)
Definition lastOf {A} (n : nat) (xs : list A) : list A := skipn (length xs - n) xs.

Definition summarize (step : StepLog) : StepSummary :=
  {| sum_i := i step;
     sum_action := formatAction (action step);
     sum_result := if ok (result_ step) then notes (result_ step)
                   else "FAILED: " ++ match error (result_ step) with
                                      | Some e => e
                                      | None => "undefined"
                                      end;
     sum_url := url step |}.

Definition buildRecentHistory (steps : list StepLog) : list StepSummary :=
  let recent := lastOf HISTORY_LENGTH steps in
  map summarize recent.

End WithPlatform.
End History.

(** ** runOrchestrator.ts: the run queue *)

Module Orchestrator.
Import JSValue.
Local Open Scope Z_scope.

Section Limit.
Context {P : Platform}.

(** [Math.max(1, Number(process.env.MAX_CONCURRENT_RUNS || 2))]; [env] is
    the environment variable, when it is set. *)
Definition MAX_CONCURRENT_RUNS (env : option string) : number :=
  Math_max (of_Z 1)
           (Normalizer.ToNumber
              (or_else (match env with
                        | Some s => VStr s
                        | None => VUndefined
                        end)
                       (VNum (of_Z 2)))).

End Limit.

Section Queue.
Variable Run : Type.
Variable limit : number.

(** The module variables [pendingQueue] and [runningCount], and the calls
    of [executeRun] made so far, in order. *)
Record Scheduler : Type := {
  pendingQueue : list Run;
  runningCount : Z;
  executed : list Run;
}.

Definition idle : Scheduler :=
  {| pendingQueue := []; runningCount := 0; executed := [] |}.

(** [processQueue]: the [while] loop, on the queue it consumes. *)
Fixpoint processLoop (queue : list Run) (runningCount : Z) (executed : list Run)
  : Scheduler :=
  match queue with
  | [] => {| pendingQueue := []; runningCount := runningCount; executed := executed |}
  | next :: rest =>
      if number_ltb (of_Z runningCount) limit
      then processLoop rest (runningCount + 1) (executed ++ [next])
      else {| pendingQueue := queue; runningCount := runningCount; executed := executed |}
  end.

Definition processQueue (s : Scheduler) : Scheduler :=
  processLoop (pendingQueue s) (runningCount s) (executed s).

Definition enqueueRun (s : Scheduler) (runState : Run) : Scheduler :=
  processQueue {| pendingQueue := pendingQueue s ++ [runState];
                  runningCount := runningCount s;
                  executed := executed s |}.

(** The [finally] callback of a run that has settled. *)
Definition settled (s : Scheduler) : Scheduler :=
  processQueue {| pendingQueue := pendingQueue s;
                  runningCount := runningCount s - 1;
                  executed := executed s |}.

(** The schedulers the module can be in after the runs [enqueued] were
    started with [startRun], in that order; a run settles only while it is
    executing. *)
Inductive reaches : list Run -> Scheduler -> Prop :=
| reaches_idle : reaches [] idle
| reaches_enqueue (enqueued : list Run) (s : Scheduler) (runState : Run) :
    reaches enqueued s -> reaches (enqueued ++ [runState]) (enqueueRun s runState)
| reaches_settled (enqueued : list Run) (s : Scheduler) :
    reaches enqueued s -> 0 < runningCount s -> reaches enqueued (settled s).

End Queue.

Arguments pendingQueue {Run} _.
Arguments runningCount {Run} _.
Arguments executed {Run} _.
Arguments idle {Run}.
Arguments processLoop {Run} _ _ _ _.
Arguments processQueue {Run} _ _.
Arguments enqueueRun {Run} _ _ _.
Arguments settled {Run} _ _.
Arguments reaches {Run} _ _ _.

End Orchestrator.

(** ** A platform to run the model on

    The theorems below hold for every [Platform].  This one is written
    for the examples: URLs of the plain shape
    [scheme://authority/path?query#fragment], JSON without [\u] escapes
    or exponents, numbers printed in decimal. *)

Module Reference.
Import JSString JSValue.

Fixpoint span (stop : ascii -> bool) (s : string) : string * string :=
  match s with
  | EmptyString => (EmptyString, EmptyString)
  | String c s' =>
      if stop c then (EmptyString, s)
      else let '(a, b) := span stop s' in (String c a, b)
  end.

Definition is_char (a : ascii) (c : ascii) : bool := Ascii.eqb a c.

Definition parse_url (s : string) : option URL :=
  let '(scheme, rest) := span (is_char ":") s in
  if String.eqb scheme "" || negb (startsWith "://" rest) then None else
  let rest := substring 3 (String.length rest) rest in
  let '(authority, rest) :=
    span (fun c => is_char "/" c || is_char "?" c || is_char "#" c) rest in
  if String.eqb authority "" then None else
  let '(path, rest) := span (fun c => is_char "?" c || is_char "#" c) rest in
  let '(query, _) := span (is_char "#") rest in
  Some {| pathname := if String.eqb path "" then "/" else path;
          search := if String.eqb query "?" then "" else query |}.

Definition digit (n : Z) : string := of_nat (Z.to_nat n).

Fixpoint fraction (fuel : nat) (num den : Z) : string :=
  match fuel with
  | O => ""
  | S f =>
      if (num =? 0)%Z then ""
      else digit (10 * num / den) ++ fraction f ((10 * num) mod den) den
  end.

Definition print_Q (q : Q) : string :=
  let n := Qnum q in
  let d := Z.pos (Qden q) in
  let a := Z.abs n in
  (if (n <? 0)%Z then "-" else "")
  ++ digit (a / d)
  ++ (if (a mod d =? 0)%Z then "" else "." ++ fraction 17 (a mod d) d).

Definition print_number (n : number) : string :=
  match n with
  | NaN => "NaN"
  | PosInf => "Infinity"
  | NegInf => "-Infinity"
  | Fin q => print_Q q
  end.

Definition digit_of (c : ascii) : option Z :=
  if between 48 57 c then Some (Z.of_nat (code c) - 48)%Z else None.

(** Digits of [s] read into [acc], scaled by [scale] after the point. *)
Fixpoint read_digits (s : string) (acc : Z) (scale : positive) (frac : bool)
  : Z * positive * string :=
  match s with
  | EmptyString => (acc, scale, s)
  | String c s' =>
      match digit_of c with
      | Some d => read_digits s' (10 * acc + d)%Z
                    (if frac then 10 * scale else scale)%positive frac
      | None => (acc, scale, s)
      end
  end.

(** An optionally signed decimal at the head of [s], and what follows. *)
Definition read_decimal (s : string) : option (Q * string) :=
  let '(neg, s) := match s with
                   | String "-" r => (true, r)
                   | _ => (false, s)
                   end in
  match s with
  | EmptyString => None
  | String c _ =>
      match digit_of c with
      | None => None
      | Some _ =>
          let '(whole, _, rest) := read_digits s 0 1 false in
          let '(num, scale, rest) :=
            match rest with
            | String "." r => read_digits r whole 1 true
            | _ => (whole, 1%positive, rest)
            end in
          Some (Qmake (if neg then - num else num) scale, rest)
      end
  end.

Definition string_to_number (s : string) : number :=
  let t := trim s in
  if String.eqb t "" then of_Z 0
  else if String.eqb t "Infinity" then PosInf
  else if String.eqb t "-Infinity" then NegInf
  else match read_decimal t with
       | Some (q, EmptyString) => Fin q
       | _ => NaN
       end.

(** A JSON string body up to its closing quote. *)
Fixpoint read_string (s : string) : option (string * string) :=
  match s with
  | EmptyString => None
  | String c s' =>
      if is_char "034" c then Some (EmptyString, s')
      else if is_char "\" c then
        match s' with
        | String e s'' =>
            let unescaped :=
              if is_char "n" e then Some "010"%char
              else if is_char "t" e then Some "009"%char
              else if is_char "r" e then Some "013"%char
              else if is_char "034" e || is_char "\" e || is_char "/" e then Some e
              else None in
            match unescaped, read_string s'' with
            | Some u, Some (body, rest) => Some (String u body, rest)
            | _, _ => None
            end
        | EmptyString => None
        end
      else match read_string s' with
           | Some (body, rest) => Some (String c body, rest)
           | None => None
           end
  end.

Fixpoint read_value (fuel : nat) (s : string) {struct fuel} : option (value * string) :=
  match fuel with
  | O => None
  | S f =>
      let s := trimStart s in
      match s with
      | String "{" r =>
          match trimStart r with
          | String "}" r' => Some (VObj [], r')
          | _ => read_members f r []
          end
      | String "[" r =>
          match trimStart r with
          | String "]" r' => Some (VArr [], r')
          | _ => read_elements f r []
          end
      | String "034" r =>
          match read_string r with
          | Some (body, rest) => Some (VStr body, rest)
          | None => None
          end
      | _ =>
          if startsWith "true" s then Some (VBool true, substring 4 (String.length s) s)
          else if startsWith "false" s then Some (VBool false, substring 5 (String.length s) s)
          else if startsWith "null" s then Some (VNull, substring 4 (String.length s) s)
          else match read_decimal s with
               | Some (q, rest) => Some (VNum (Fin q), rest)
               | None => None
               end
      end
  end
with read_members (fuel : nat) (s : string) (acc : obj) {struct fuel}
     : option (value * string) :=
  match fuel with
  | O => None
  | S f =>
      match trimStart s with
      | String "034" r =>
          match read_string r with
          | Some (key, rest) =>
              match trimStart rest with
              | String ":" rest' =>
                  match read_value f rest' with
                  | Some (v, rest'') =>
                      match trimStart rest'' with
                      | String "," more => read_members f more (set acc key v)
                      | String "}" more => Some (VObj (set acc key v), more)
                      | _ => None
                      end
                  | None => None
                  end
              | _ => None
              end
          | None => None
          end
      | _ => None
      end
  end
with read_elements (fuel : nat) (s : string) (acc : list value) {struct fuel}
     : option (value * string) :=
  match fuel with
  | O => None
  | S f =>
      match read_value f s with
      | Some (v, rest) =>
          match trimStart rest with
          | String "," more => read_elements f more (acc ++ [v])%list
          | String "]" more => Some (VArr (acc ++ [v])%list, more)
          | _ => None
          end
      | None => None
      end
  end.

Definition parse_json (s : string) : result string value :=
  match read_value (2 * String.length s + 2) s with
  | Some (v, rest) =>
      if String.eqb (trimStart rest) "" then Ok v
      else Throw "SyntaxError: Unexpected non-whitespace character after JSON"
  | None => Throw "SyntaxError: Unexpected token in JSON"
  end.

Fixpoint quote_body (s : string) : string :=
  match s with
  | EmptyString => EmptyString
  | String c s' =>
      (if is_char "034" c || is_char "\" c then String "\" (String c EmptyString)
       else if is_char "010" c then "\n"
       else if is_char "009" c then "\t"
       else if is_char "013" c then "\r"
       else String c EmptyString) ++ quote_body s'
  end.

Definition quote (s : string) : string :=
  String "034" (quote_body s ++ String "034" EmptyString).

Fixpoint stringify (v : value) : string :=
  match v with
  | VUndefined => "undefined"
  | VNull => "null"
  | VBool true => "true"
  | VBool false => "false"
  | VNum (Fin q) => print_Q q
  | VNum _ => "null"
  | VStr s => quote s
  | VArr xs => "[" ++ join "," (map stringify xs) ++ "]"
  | VObj fields =>
      "{" ++ join "," (map (fun kv => quote (fst kv) ++ ":" ++ stringify (snd kv)) fields)
      ++ "}"
  end.

Definition platform : Platform :=
  {| URL_parse := parse_url;
     JSON_parse := parse_json;
     JSON_stringify := stringify;
     Number_toString := print_number;
     StringToNumber := string_to_number |}.

End Reference.

(* ===================================================================== *)
(** * Part II: the vocabulary of the properties *)
(* ===================================================================== *)

(** ** Responses to normalise *)

Module Shapes.
Import JSString JSValue Normalizer.

(** The response shapes the source documents, for a click on [t].  The
    prompt asks for [{"thinking": ..., "action": {...}}]: [th] is the
    ["thinking"] text beside the action, when there is one. *)
Definition withThinking (th : option string) (fields : obj) : value :=
  VObj match th with
       | Some s => ("thinking", VStr s) :: fields
       | None => fields
       end.

(** [{"action":{"type":"click","target":t}}] *)
Definition shape_flat (th : option string) (t : string) : value :=
  withThinking th [("action", VObj [("type", VStr "click"); ("target", VStr t)])].

(** [{"action":{"click":t}}] *)
Definition shape_shorthand (th : option string) (t : string) : value :=
  withThinking th [("action", VObj [("click", VStr t)])].

(** [{"command":"click","target":t}] *)
Definition shape_alias (th : option string) (t : string) : value :=
  withThinking th [("command", VStr "click"); ("target", VStr t)].

(** [{"action":"click","target":t}] *)
Definition shape_root (th : option string) (t : string) : value :=
  withThinking th [("action", VStr "click"); ("target", VStr t)].

(** [{"action":{"click":{"target":t}}}] *)
Definition shape_nested (th : option string) (t : string) : value :=
  withThinking th [("action", VObj [("click", VObj [("target", VStr t)])])].

(** [{"action":{"action":"click","target":t}}] *)
Definition shape_double (th : option string) (t : string) : value :=
  withThinking th [("action", VObj [("action", VStr "click"); ("target", VStr t)])].

(** [{"action":{"command":"click","target":t}}] *)
Definition shape_double_alias (th : option string) (t : string) : value :=
  withThinking th [("action", VObj [("command", VStr "click"); ("target", VStr t)])].

(** [{"command":{"type":"click","target":t}}] *)
Definition shape_command (th : option string) (t : string) : value :=
  withThinking th [("command", VObj [("type", VStr "click"); ("target", VStr t)])].

(** [{"action":{"name":"click","target":t}}] *)
Definition shape_name (th : option string) (t : string) : value :=
  withThinking th [("action", VObj [("name", VStr "click"); ("target", VStr t)])].

Definition documentedShapes (th : option string) (t : string) : list value :=
  [ shape_flat th t; shape_shorthand th t; shape_alias th t; shape_root th t;
    shape_nested th t; shape_double th t; shape_double_alias th t;
    shape_command th t; shape_name th t ].

(** [{"action":{"type":"wait","ms":v}}] *)
Definition waitPayload (v : value) : value :=
  VObj [("action", VObj [("type", VStr "wait"); ("ms", v)])].

(** The error "Click action missing target: ..." *)
Definition missingTarget {A} (r : result ParseError A) : bool :=
  match r with
  | Throw (MissingField what _) => String.eqb what "Click action missing target"
  | _ => false
  end.

(** [Math.min(5000, Math.max(100, n))] on a number that is not [NaN]. *)
Definition clamp (n : number) : number :=
  Math_min (of_Z 5000) (Math_max (of_Z 100) n).

(** The text [{"action":{"click":"btn_1"}}] inside a code fence. *)
Definition fencedShorthand : string :=
  "```json" ++ String "010" "{" ++ Evaluator.dq ++ "action" ++ Evaluator.dq ++ ":{"
  ++ Evaluator.dq ++ "click" ++ Evaluator.dq ++ ":" ++ Evaluator.dq ++ "btn_1"
  ++ Evaluator.dq ++ "}}" ++ String "010" "```".

Section WithPlatform.
Context {P : Platform}.

(** What [parseActionResponse] does with a text whose braces hold JSON. *)
Definition holdsJson (text : string) (parsed : value) : Prop :=
  text <> "" /\ trim text <> ""
  /\ exists json,
       match_braces (trim (removeAll "```" (removeAll "```json" text))) = Some json
       /\ JSON_parse json = Ok parsed.

End WithPlatform.
End Shapes.

(** ** Runs of the loop *)

Module Runs.
Import JSString JSValue AgentLoop.

Definition isDone (a : AgentAction) : bool :=
  match a with
  | Done _ _ => true
  | _ => false
  end.

(** The rule of "Update ladder state based on progress", on the counter. *)
Definition nextStepsWithoutProgress (p : ProgressLevel) (n : Z) : Z :=
  match p with
  | major => 0
  | none => n + 1
  | some => Z.max 0 (n - 1)
  end.

(** What every iteration preserves of the ladder. *)
Definition ladderInvariant (l : HelpLadderState) : Prop :=
  (0 <= stepsWithoutProgress l)%Z
  /\ (0 <= phase l <= 2)%Z
  /\ searchTermsUsed l = []
  /\ helpOpened l = false.

(** The loop reaches the decision of iteration [j], and the decision is
    [action]. *)
Definition decides {P : Platform} (config : AgentLoopConfig) (world : nat -> Env)
           (j : nat) (st : LoopState) (action : AgentAction) : Prop :=
  after config world j = (st, Continue)
  /\ (j < maxSteps config)%nat
  /\ Qle_bool (timeoutMs config) (inject_Z (elapsed (world j))) = false
  /\ (exists pageKey, getPageKey (observed (world j)) = Ok pageKey)
  /\ decideNextAction (completion (world j)) = Ok action.

End Runs.

(** Worlds to run the loop in. *)
Module Scenario.
Import AgentLoop.

Definition page (help searchBox : bool) : PageSnapshot :=
  {| snap_url := "https://app.test/home"; snap_title := "Home";
     headings := ["Home"]; navLinks := []; interactiveElements := [];
     snap_text := "Page: Home"; hasSearchBox := searchBox; hasHelpLink := help |}.

(** The answer of a completion service that asks for [a]:
    [{"thinking":"next","action":{...}}]. *)
Definition answer (a : AgentAction) : string :=
  Reference.stringify
    (JSValue.VObj [("thinking", JSValue.VStr "next"); ("action", actionValue a)]).

(** The agent decides [a] on [snap]; the driver performs it and the URL
    stays where it was. *)
Definition quiet (a : AgentAction) (snap : PageSnapshot) : Env :=
  {| elapsed := 0; observed := snap; completion := Ok (answer a);
     shot := "screens/step.png"; clock := "2024-01-01T00:00:00.000Z";
     stepErrors := {| console := []; network := []; exception := None |};
     beforeUrl := "https://app.test/home"; driver := None;
     afterUrl := "https://app.test/home"; reobserved := snap |}.

(** As [quiet], but the driver call throws [e]. *)
Definition failing (a : AgentAction) (snap : PageSnapshot) (e : JSError) : Env :=
  {| elapsed := 0; observed := snap; completion := Ok (answer a);
     shot := "screens/step.png"; clock := "2024-01-01T00:00:00.000Z";
     stepErrors := {| console := []; network := []; exception := None |};
     beforeUrl := "https://app.test/home"; driver := Some e;
     afterUrl := "https://app.test/home"; reobserved := snap |}.

Definition browse (n : nat) : AgentLoopConfig :=
  {| goal := "browse the product"; maxSteps := n; maxMinutes := 6%Q;
     successHints := None |}.

End Scenario.

(** ** Traces to evaluate *)

Module Traces.
Import JSString AgentLoop Evaluator.

(** An event each time the length of the current run of equal keys
    reaches a multiple of 3: the reset rule of [detectStuckEvents], told
    without the reset.  [run] is the length of the run that [last] ends. *)
Fixpoint runEvents (run : nat) (last : string) (keys : list string) : nat :=
  match keys with
  | [] => 0
  | key :: rest =>
      if String.eqb key last
      then (if (S run mod 3 =? 0)%nat then 1 else 0) + runEvents (S run) last rest
      else runEvents 1 key rest
  end.

(** The finding of a stuck window, recognised by its title. *)
Definition isWindowFinding (f : Finding) : bool :=
  startsWith "Navigation difficulty at " (title f).

Definition isValidationFinding (f : Finding) : bool :=
  match f_type f with
  | validation => true
  | _ => false
  end.

Definition isHighDiscoverability (f : Finding) : bool :=
  match f_type f, severity f with
  | discoverability, high => true
  | _, _ => false
  end.

(** At most one finding, and not the finding of a stuck window. *)
Definition aside (fs : list Finding) : Prop :=
  (length fs <= 1)%nat /\ filter isWindowFinding fs = [].

Section WithPlatform.
Context {P : Platform}.

(** The page keys of a trace, when every URL in it parses. *)
Fixpoint pageKeys (steps : list StepLog) : result JSError (list string) :=
  match steps with
  | [] => Ok []
  | step :: rest =>
      (key <- getPageKey (snapshot step) ;;
       keys <- pageKeys rest ;;
       Ok (key :: keys))%result
  end.

(** A stall: every step of the trace has the page key [key]. *)
Definition stall (key : string) (steps : list StepLog) : Prop :=
  Forall (fun step => getPageKey (snapshot step) = Ok key) steps.

End WithPlatform.

(** Six scrolls on one page: the trace the loop records in a quiet world. *)
Definition sixScrolls : list StepLog :=
  map (fun n => mkStep (Scenario.quiet (Scroll down) (Scenario.page false false)) n
                  (Scenario.page false false) (Scroll down)
                  {| ok := true; notes := "Executed scroll"; newUrl := None;
                     progress := none; error := None |})
      (seq 0 6).

Definition noMetrics : RunMetrics :=
  {| m_steps := 0; pageTransitions := 0; backtracks := 0; searchUsed := false;
     stuckEvents := 0; consoleErrors := 0; failedRequests := 0 |}.

(** What a driver may throw on a click. *)
Definition strictMode : JSError :=
  {| is_Error := true;
     message := "locator.click: Error: strict mode violation";
     as_string := "Error: locator.click: Error: strict mode violation" |}.

(** The one-step trace of a run whose click failed in the driver. *)
Definition failedClick : list StepLog :=
  [ mkStep (Scenario.failing (Click "Submit") (Scenario.page false false) strictMode) 0
      (Scenario.page false false) (Click "Submit")
      {| ok := false;
         notes := "Action failed: locator.click: Error: strict mode violation";
         newUrl := None; progress := none;
         error := Some "Error: locator.click: Error: strict mode violation" |} ].

End Traces.

(** ** More about runs *)

Module Outcomes.
Import JSString JSValue AgentLoop.

(** The loop enters iteration [j] in state [st]. *)
Definition reaches {P : Platform} (config : AgentLoopConfig) (world : nat -> Env)
           (j : nat) (st : LoopState) : Prop :=
  after config world j = (st, Continue) /\ (j < maxSteps config)%nat.

(** The time budget is not exhausted when iteration [env] starts. *)
Definition timeLeft (config : AgentLoopConfig) (env : Env) : Prop :=
  Qle_bool (timeoutMs config) (inject_Z (elapsed env)) = false.

(** The page observed in [env] has a URL that [new URL] accepts. *)
Definition pageKeyed {P : Platform} (env : Env) : Prop :=
  exists pageKey, getPageKey (observed env) = Ok pageKey.

(** Hints that name no text and no URL fragment: [{}],
    [{mustSeeText: []}], ... *)
Definition emptyHints (hints : SuccessHints) : Prop :=
  nonempty (mustSeeText hints) = None /\ nonempty (mustEndOnUrlIncludes hints) = None.

(** The result of the terminal step the loop logs for [done]. *)
Definition doneResult : StepResult :=
  {| ok := true; notes := "Agent declared task complete"; newUrl := None;
     progress := major; error := None |}.

(** The ladder against the number of recorded steps [n]. *)
Definition ladderWithin (l : HelpLadderState) (n : Z) : Prop :=
  (stepsWithoutProgress l <= n)%Z
  /\ (1 <= phase l -> 6 <= n)%Z
  /\ (phase l = 2%Z -> 10 <= n)%Z.

End Outcomes.

(** More worlds and configurations. *)
Module Episodes.
Import AgentLoop.

(** The completion service answers with prose only. *)
Definition mute (snap : PageSnapshot) : Env :=
  {| elapsed := 0; observed := snap; completion := Ok "I cannot decide.";
     shot := "screens/step.png"; clock := "2024-01-01T00:00:00.000Z";
     stepErrors := {| console := []; network := []; exception := None |};
     beforeUrl := "https://app.test/home"; driver := None;
     afterUrl := "https://app.test/home"; reobserved := snap |}.

(** What [decideNextAction] throws in a [mute] world. *)
Definition noJson : JSError :=
  {| is_Error := true;
     message := "No JSON found in response: I cannot decide.";
     as_string := "Error: No JSON found in response: I cannot decide." |}.

(** As [Scenario.quiet], 400 seconds after the start of the run. *)
Definition late (a : AgentAction) (snap : PageSnapshot) : Env :=
  {| elapsed := 400000; observed := snap; completion := Ok (Scenario.answer a);
     shot := "screens/step.png"; clock := "2024-01-01T00:06:40.000Z";
     stepErrors := {| console := []; network := []; exception := None |};
     beforeUrl := "https://app.test/home"; driver := None;
     afterUrl := "https://app.test/home"; reobserved := snap |}.

(** One quiet scroll, then the clock has run out. *)
Definition scrollThenLate (j : nat) : Env :=
  match j with
  | O => Scenario.quiet (Scroll down) (Scenario.page false false)
  | _ => late (Scroll down) (Scenario.page false false)
  end.

(** A page whose URL [new URL] rejects. *)
Definition nowhere : PageSnapshot :=
  {| snap_url := ""; snap_title := ""; headings := []; navLinks := [];
     interactiveElements := []; snap_text := "Page: "; hasSearchBox := false;
     hasHelpLink := false |}.

(** A budget of 0.069 minutes: the products of doubles give
    4140.000000000001 ms, not 4140. *)
Definition brief : AgentLoopConfig :=
  {| goal := "browse the product"; maxSteps := 5; maxMinutes := (69 # 1000)%Q;
     successHints := None |}.

(** One quiet scroll, then the clock reads [ms]. *)
Definition scrollThenAt (ms : Z) (j : nat) : Env :=
  match j with
  | O => Scenario.quiet (Scroll down) (Scenario.page false false)
  | _ => {| elapsed := ms; observed := Scenario.page false false;
            completion := Ok (Scenario.answer (Scroll down));
            shot := "screens/step.png"; clock := "2024-01-01T00:00:04.140Z";
            stepErrors := {| console := []; network := []; exception := None |};
            beforeUrl := "https://app.test/home"; driver := None;
            afterUrl := "https://app.test/home";
            reobserved := Scenario.page false false |}
  end.

(** [{mustEndOnUrlIncludes: []}] *)
Definition noHints : SuccessHints :=
  {| mustSeeText := None; mustEndOnUrlIncludes := Some [] |}.

Definition hinted (n : nat) : AgentLoopConfig :=
  {| goal := "browse the product"; maxSteps := n; maxMinutes := 6%Q;
     successHints := Some noHints |}.

End Episodes.

(** ** More about traces *)

Module Reports.
Import JSString AgentLoop Evaluator.

(** Earlier findings are at least as severe as later ones. *)
Definition ranked (findings : list Finding) : Prop :=
  StronglySorted
    (fun a b => (severityOrder (severity a) <= severityOrder (severity b))%nat) findings.

Definition hasSeverity (s : Severity) (f : Finding) : bool :=
  (severityOrder (severity f) =? severityOrder s)%nat.

(** A step as the loop records it: its page key can be computed, and its
    [url] is the URL of its snapshot. *)
Definition keyed {P : Platform} (step : StepLog) : Prop :=
  (exists key, getPageKey (snapshot step) = Ok key)
  /\ url step = snap_url (snapshot step).

(** A stuck window as [findStuckWindows] means it: at least three steps,
    all with one page key. *)
Definition stuckWindow {P : Platform} (window : list StepLog) : Prop :=
  (3 <= length window)%nat /\ exists key, Traces.stall key window.

(** One stuck event for every three steps of a window. *)
Definition eventsOf (windows : list (list StepLog)) : nat :=
  list_sum (map (fun window => (length window / 3)%nat) windows).

End Reports.

(** ** More about responses *)

Module Responses.
Import JSString JSValue Normalizer.


(** [parsed.action ?? parsed.command] *)
Definition payload (parsed : value) : value :=
  nullish (prop parsed "action") (prop parsed "command").

Definition isString (v : value) : bool :=
  match v with
  | VStr _ => true
  | _ => false
  end.

(** The action types whose [case] has no [throw]. *)
Definition lenientTypes : list string := ["scroll"; "back"; "wait"; "openHelp"; "done"].

(** Every field of the action object can be converted with [String] and
    [Number]: none is an object with a [toString] key of its own, nor an
    array that holds one. *)
Definition plainFields (action : value) : Prop :=
  forall key, convertible (prop action key) = true.

(** No code unit of [s] is [c]. *)
Fixpoint lacks (c : ascii) (s : string) : bool :=
  match s with
  | EmptyString => true
  | String c' s' => negb (Ascii.eqb c' c) && lacks c s'
  end.

End Responses.

(** ** More about responses: a text to parse *)

Module Chat.
Import JSString.

(** [Sure: {"action":{"type":"back"}} That is all.], in three parts. *)
Definition before : string := "Sure: ".

Definition fields : string :=
  Evaluator.dq ++ "action" ++ Evaluator.dq ++ ":{" ++ Evaluator.dq ++ "type"
  ++ Evaluator.dq ++ ":" ++ Evaluator.dq ++ "back" ++ Evaluator.dq ++ "}".

Definition behind : string := " That is all.".

End Chat.

(** ** More about snapshots *)

Module Pages.
Import JSString SnapshotBuilder.

(** The test of [findSearchBox], also made by [processNode]. *)
Definition searchLike (el : InteractiveElement) : bool :=
  String.eqb (el_role el) "searchbox"
  || String.eqb (el_role el) "textbox" && JSRegExp.test searchPattern (el_name el).

(** The test of [findHelpLink], also made by [processNode]. *)
Definition helpLike (el : InteractiveElement) : bool :=
  String.eqb (el_role el) "link" && JSRegExp.test helpPattern (el_name el).

(** What holds of the builder all along [processNode]. *)
Definition built (b : Builder) : Prop :=
  (length (b_headings b) <= MAX_HEADINGS)%nat
  /\ (length (b_navLinks b) <= MAX_NAV_LINKS)%nat
  /\ (length (b_elements b) <= MAX_INTERACTIVE_ELEMENTS)%nat
  /\ Forall (fun heading => heading <> "") (b_headings b)
  /\ refCounter b = length (b_elements b)
  /\ (forall k el,
        nth_error (b_elements b) k = Some el ->
        el_ref (element el) = generateRef (el_role (element el)) (S k)
        /\ has INTERACTIVE_ROLES (el_role (element el)) = true
        /\ el_name (element el) <> "")
  /\ b_hasSearchBox b = existsb searchLike (map element (b_elements b))
  /\ b_hasHelpLink b = existsb helpLike (map element (b_elements b)).

Definition isFound {A} (o : option A) : bool :=
  match o with
  | Some _ => true
  | None => false
  end.

End Pages.

(* ===================================================================== *)
(** * Part III: properties *)
(* ===================================================================== *)

(** ** The progress assessor *)

Section ProgressAssessor.
Context {P : Platform}.
Import AgentLoop.

Lemma URL_pathname_parsed (s : string) (u : URL) :
  URL_parse s = Some u -> URL_pathname s = Ok (pathname u).
Proof. intros H. unfold URL_pathname. now rewrite H. Qed.

Lemma URL_search_parsed (s : string) (u : URL) :
  URL_parse s = Some u -> URL_search s = Ok (search u).
Proof. intros H. unfold URL_search. now rewrite H. Qed.

Lemma assessProgress_parsed (before after : string) (ub ua : URL)
      (prev : option PreviousState) :
  URL_parse before = Some ub ->
  URL_parse after = Some ua ->
  assessProgress before after prev =
  Ok (if negb (String.eqb (pathname ub) (pathname ua)) then major
      else if negb (String.eqb (search ub) (search ua)) then some
      else none).
Proof.
  intros Hb Ha. unfold assessProgress.
  rewrite (URL_pathname_parsed _ _ Hb), (URL_pathname_parsed _ _ Ha).
  rewrite (URL_search_parsed _ _ Hb), (URL_search_parsed _ _ Ha).
  cbn. destruct (String.eqb (pathname ub) (pathname ua)); cbn; [|reflexivity].
  destruct (String.eqb (search ub) (search ua)); reflexivity.
Qed.

(** C2.  For two well-formed URLs, [assessProgress] answers [major] when
    the paths differ, [some] when the paths agree and the query strings
    differ, [none] otherwise; the answer depends on the two URLs only:
    the third argument is never consulted. *)
Theorem assessProgress_by_path_then_query
        (before after : string) (ub ua : URL) (prev : option PreviousState)
        (Hbefore : URL_parse before = Some ub)
        (Hafter : URL_parse after = Some ua) :
  (pathname ub <> pathname ua -> assessProgress before after prev = Ok major)
  /\ (pathname ub = pathname ua -> search ub <> search ua ->
      assessProgress before after prev = Ok some)
  /\ (pathname ub = pathname ua -> search ub = search ua ->
      assessProgress before after prev = Ok none)
  /\ (forall prev', assessProgress before after prev' = assessProgress before after prev).
Proof.
  rewrite (assessProgress_parsed _ _ _ _ prev Hbefore Hafter).
  repeat split.
  - intros Hp. apply String.eqb_neq in Hp. now rewrite Hp.
  - intros Hp Hs. apply String.eqb_eq in Hp. apply String.eqb_neq in Hs.
    now rewrite Hp, Hs.
  - intros Hp Hs. apply String.eqb_eq in Hp. apply String.eqb_eq in Hs.
    now rewrite Hp, Hs.
  - intros prev'. apply (assessProgress_parsed _ _ _ _ prev' Hbefore Hafter).
Qed.

End ProgressAssessor.

Lemma assessProgress_by_path_then_query_witness :
  let P := Reference.platform in
  AgentLoop.assessProgress "https://shop.test/cart?step=1" "https://shop.test/cart?step=2" None
  = Ok some
  /\ AgentLoop.assessProgress "https://shop.test/cart?step=1" "https://shop.test/pay" None
     = Ok major.
Proof.
  intros P.
  destruct (assessProgress_by_path_then_query (P := P)
              "https://shop.test/cart?step=1" "https://shop.test/cart?step=2"
              {| pathname := "/cart"; search := "?step=1" |}
              {| pathname := "/cart"; search := "?step=2" |} None
              eq_refl eq_refl) as (_ & Hsome & _).
  destruct (assessProgress_by_path_then_query (P := P)
              "https://shop.test/cart?step=1" "https://shop.test/pay"
              {| pathname := "/cart"; search := "?step=1" |}
              {| pathname := "/pay"; search := "" |} None
              eq_refl eq_refl) as (Hmajor & _).
  split.
  - apply Hsome; [reflexivity | discriminate].
  - apply Hmajor; discriminate.
Defined.

(** ** The action-response normaliser *)

Module NormalizerFacts.
Import JSString JSValue Normalizer Shapes.

Section Facts.
Context {P : Platform}.

Lemma parseActionResponse_holdsJson (text : string) (parsed : value) :
  holdsJson text parsed -> parseActionResponse text = normalize parsed.
Proof.
  intros (H1 & H2 & json & Hm & Hj). unfold parseActionResponse.
  apply String.eqb_neq in H1. apply String.eqb_neq in H2.
  rewrite H1, H2. cbn [orb]. rewrite Hm, Hj. reflexivity.
Qed.

Lemma normalize_shapes (th : option string) (t : string) (c : ascii) :
  Forall (fun shape => normalize shape = Ok (Click (String c t)))
         (documentedShapes th (String c t)).
Proof.
  unfold documentedShapes.
  repeat constructor; destruct th as [[|a s]|]; reflexivity.
Qed.

Lemma normalize_shapes_empty (th : option string) :
  Forall (fun shape =>
            exists action,
              normalize shape = Throw (MissingField "Click action missing target" action))
         (documentedShapes th "").
Proof.
  unfold documentedShapes.
  repeat constructor; destruct th as [[|a s]|]; eexists; reflexivity.
Qed.

(** C3, as the code has it.  For every non-empty target [t], each of the
    documented shapes (flat, shorthand, alias-keyed, single- and
    double-nested, with or without a ["thinking"] text) normalises to the
    one canonical action [click{target:t}]; so does every response text
    whose braces hold one of these shapes.  For the empty target, each of
    the shapes, and every such text, is rejected with the error "Click
    action missing target". *)
Theorem documented_shapes_normalize_to_click
        (th : option string) (t : string) (shape : value)
        (Hshape : In shape (documentedShapes th t)) :
  (t <> "" ->
   normalize shape = Ok (Click t)
   /\ forall text, holdsJson text shape -> parseActionResponse text = Ok (Click t))
  /\ (t = "" ->
      exists action,
        normalize shape = Throw (MissingField "Click action missing target" action)
        /\ forall text,
             holdsJson text shape ->
             parseActionResponse text
             = Throw (MissingField "Click action missing target" action)).
Proof.
  split.
  - intros Hnonempty.
    assert (Hn : normalize shape = Ok (Click t)).
    { destruct t as [|c t]; [congruence|].
      pose proof (normalize_shapes th t c) as HF.
      rewrite Forall_forall in HF. now apply HF. }
    split; [exact Hn|].
    intros text Htext. now rewrite (parseActionResponse_holdsJson _ _ Htext).
  - intros ->.
    pose proof (normalize_shapes_empty th) as HF.
    rewrite Forall_forall in HF. destruct (HF shape Hshape) as (action & Hn).
    exists action. split; [exact Hn|].
    intros text Htext. now rewrite (parseActionResponse_holdsJson _ _ Htext).
Qed.

Lemma dispatch_wait (action : value) (ms : number) :
  dispatch action = Ok (Wait ms) ->
  prop action "type" = VStr "wait" /\ ms = clampWait (prop action "ms").
Proof.
  unfold dispatch.
  destruct (prop action "type") as [| | | |type| |];
    try (destruct (negb (convertible _)); discriminate).
  repeat match goal with
         | |- context [String.eqb type ?lit] =>
             destruct (String.eqb_spec type lit) as [->|?]
         end;
    repeat match goal with
           | |- context [if ?c then Throw _ else _] => destruct c
           end;
    try discriminate.
  intros H. inversion H. split; reflexivity.
Qed.

Lemma normalize_wait (parsed : value) (ms : number) :
  normalize parsed = Ok (Wait ms) ->
  exists action, resolve parsed = Ok action
                 /\ prop action "type" = VStr "wait"
                 /\ ms = clampWait (prop action "ms").
Proof.
  unfold normalize. destruct (resolve parsed) as [action|e]; cbn; [|discriminate].
  intros H. exists action. split; [reflexivity|]. now apply dispatch_wait.
Qed.

Lemma Qle_bool_false (x y : Q) : Qle_bool x y = false -> (y < x)%Q.
Proof.
  intros H. apply Qnot_le_lt. intros Hle.
  apply Qle_bool_iff in Hle. congruence.
Qed.

Lemma Qle_bool_lt (x y : Q) : (x < y)%Q -> Qle_bool y x = false.
Proof.
  intros H. destruct (Qle_bool y x) eqn:E; [|reflexivity].
  apply Qle_bool_iff in E. exfalso. exact (Qlt_not_le _ _ H E).
Qed.

Lemma clamp_range (n : number) :
  n <> NaN ->
  number_leb (of_Z 100) (clamp n) = true /\ number_leb (clamp n) (of_Z 5000) = true.
Proof.
  intros Hn. destruct n as [| | |q]; [congruence| split; reflexivity | split; reflexivity |].
  unfold clamp, of_Z. cbn [Math_max].
  destruct (Qle_bool (inject_Z 100) q) eqn:E1; cbn [Math_min].
  - destruct (Qle_bool (inject_Z 5000) q) eqn:E2; cbn [number_leb].
    + split; reflexivity.
    + split; [exact E1|]. apply Qle_bool_iff. apply Qlt_le_weak. now apply Qle_bool_false.
  - split; reflexivity.
Qed.

Lemma clamp_low (n : number) :
  number_ltb n (of_Z 100) = true -> clamp n = of_Z 100.
Proof.
  destruct n as [| | |q]; try discriminate; [reflexivity|].
  unfold clamp, of_Z. cbn [number_ltb Math_max]. intros H.
  apply negb_true_iff in H. rewrite H. reflexivity.
Qed.

Lemma clamp_high (n : number) :
  number_ltb (of_Z 5000) n = true -> clamp n = of_Z 5000.
Proof.
  destruct n as [| | |q]; try discriminate; [reflexivity|].
  unfold clamp, of_Z. cbn [number_ltb Math_max]. intros H.
  apply negb_true_iff in H. apply Qle_bool_false in H.
  assert (H100 : Qle_bool (inject_Z 100) q = true).
  { apply Qle_bool_iff. apply Qlt_le_weak. eapply Qlt_trans; [|exact H]. reflexivity. }
  rewrite H100. cbn [Math_min].
  assert (H5000 : Qle_bool (inject_Z 5000) q = true).
  { apply Qle_bool_iff. now apply Qlt_le_weak. }
  now rewrite H5000.
Qed.

Lemma clamp_kept (n : number) :
  number_leb (of_Z 100) n = true -> number_leb n (of_Z 5000) = true ->
  number_eqb (clamp n) n = true.
Proof.
  destruct n as [| | |q]; try discriminate.
  unfold clamp, of_Z. cbn [number_leb Math_max]. intros H1 H2. rewrite H1.
  cbn [Math_min]. destruct (Qle_bool (inject_Z 5000) q) eqn:E; cbn [number_eqb].
  - apply Qeq_bool_iff. apply Qle_antisym; now apply Qle_bool_iff.
  - apply Qeq_bool_iff. reflexivity.
Qed.

Lemma number_truthy_not_NaN (n : number) : number_truthy n = true -> n <> NaN.
Proof. destruct n; cbn; congruence. Qed.

Lemma clampWait_cases (v : value) :
  (number_truthy (ToNumber v) = false -> clampWait v = of_Z 1000)
  /\ (number_truthy (ToNumber v) = true -> clampWait v = clamp (ToNumber v)).
Proof.
  unfold clampWait, clamp. split; intros H; rewrite H; reflexivity.
Qed.

Lemma clampWait_range (v : value) :
  number_leb (of_Z 100) (clampWait v) = true
  /\ number_leb (clampWait v) (of_Z 5000) = true.
Proof.
  destruct (clampWait_cases v) as [Hf Ht].
  destruct (number_truthy (ToNumber v)) eqn:E.
  - rewrite (Ht eq_refl). apply clamp_range. now apply number_truthy_not_NaN.
  - rewrite (Hf eq_refl). split; reflexivity.
Qed.

(** C9, as the code has it.  Whenever a payload normalises to a wait
    action, its [ms] lies in [[100, 5000]].  With [n = Number(action.ms)]:
    a falsy [n] ([NaN], that is an unparsable [ms], but also the number 0)
    gives the default 1000; any other [n] below 100 gives 100, above 5000
    gives 5000, and in between is kept. *)
Theorem wait_ms_clamped (parsed : value) (ms : number)
        (Hwait : normalize parsed = Ok (Wait ms)) :
  (number_leb (of_Z 100) ms = true /\ number_leb ms (of_Z 5000) = true)
  /\ exists action,
       resolve parsed = Ok action
       /\ let n := ToNumber (prop action "ms") in
          (number_truthy n = false -> ms = of_Z 1000)
          /\ (number_truthy n = true -> number_ltb n (of_Z 100) = true -> ms = of_Z 100)
          /\ (number_ltb (of_Z 5000) n = true -> ms = of_Z 5000)
          /\ (number_leb (of_Z 100) n = true -> number_leb n (of_Z 5000) = true ->
              number_eqb ms n = true).
Proof.
  destruct (normalize_wait _ _ Hwait) as (action & Hres & _ & Hms).
  subst ms. split; [apply clampWait_range|].
  exists action. split; [exact Hres|].
  destruct (clampWait_cases (prop action "ms")) as [Hf Ht].
  cbv zeta. repeat split.
  - exact Hf.
  - intros Htr Hlow. rewrite (Ht Htr). now apply clamp_low.
  - intros Hhigh.
    assert (Htr : number_truthy (ToNumber (prop action "ms")) = true).
    { destruct (ToNumber (prop action "ms")) as [| | |q]; try discriminate; [reflexivity|].
      cbn in Hhigh |- *. apply negb_true_iff in Hhigh. apply Qle_bool_false in Hhigh.
      apply negb_true_iff. destruct (Qeq_bool q 0) eqn:E; [|reflexivity].
      apply Qeq_bool_iff in E. rewrite E in Hhigh. discriminate. }
    rewrite (Ht Htr). now apply clamp_high.
  - intros Hlo Hhi.
    assert (Htr : number_truthy (ToNumber (prop action "ms")) = true).
    { destruct (ToNumber (prop action "ms")) as [| | |q]; try discriminate.
      cbn in Hlo |- *. apply Qle_bool_iff in Hlo.
      apply negb_true_iff. destruct (Qeq_bool q 0) eqn:E; [|reflexivity].
      apply Qeq_bool_iff in E. rewrite E in Hlo. apply Qle_bool_iff in Hlo. discriminate. }
    rewrite (Ht Htr). now apply clamp_kept.
Qed.

Lemma normalize_waitPayload (v : value) :
  convertible v = true -> normalize (waitPayload v) = Ok (Wait (clampWait v)).
Proof.
  intros H.
  change (normalize (waitPayload v))
    with (if negb (convertible v) then Throw NotPrimitive
          else Ok (E := ParseError) (Wait (clampWait v))).
  now rewrite H.
Qed.

End Facts.
End NormalizerFacts.

Module NormalizerExamples.
Import JSString JSValue Normalizer Shapes NormalizerFacts.

Lemma fencedShorthand_holds :
  holdsJson (P := Reference.platform) fencedShorthand (shape_shorthand None "btn_1").
Proof.
  repeat split; try discriminate.
  eexists. split; reflexivity.
Defined.

Lemma documented_shapes_normalize_to_click_witness :
  normalize (P := Reference.platform) (shape_shorthand None "btn_1") = Ok (Click "btn_1")
  /\ parseActionResponse (P := Reference.platform) fencedShorthand = Ok (Click "btn_1").
Proof.
  destruct (documented_shapes_normalize_to_click (P := Reference.platform)
              None "btn_1" (shape_shorthand None "btn_1")) as [Hclick _].
  - right. left. reflexivity.
  - destruct Hclick as [Hn Ht]; [discriminate|].
    split; [exact Hn | apply Ht, fencedShorthand_holds].
Defined.

(** C3 as stated fails at the empty target: no documented shape of a click
    on [""] normalises to [click{target:""}]; each of the nine is rejected
    with "Click action missing target". *)
Lemma empty_target_is_rejected :
  normalize (P := Reference.platform) (shape_flat None "")
  = Throw (MissingField "Click action missing target" (VObj [("type", VStr "click"); ("target", VStr "")]))
  /\ Forall (fun shape => missingTarget (normalize (P := Reference.platform) shape) = true)
            (documentedShapes None "")
  /\ length (documentedShapes None "") = 9%nat.
Proof.
  split; [reflexivity|]. split; [repeat constructor | reflexivity].
Qed.

Lemma wait_ms_clamped_witness :
  number_leb (of_Z 100) (of_Z 250) = true /\ number_leb (of_Z 250) (of_Z 5000) = true.
Proof.
  exact (proj1 (wait_ms_clamped (P := Reference.platform)
                  (waitPayload (VNum (of_Z 250))) (of_Z 250) eq_refl)).
Defined.

(** C9 as stated fails at [ms = 0]: a numeric value below 100, yet the
    result is the default 1000, not 100. *)
Lemma wait_zero_gives_default :
  number_ltb (of_Z 0) (of_Z 100) = true
  /\ normalize (P := Reference.platform) (waitPayload (VNum (of_Z 0)))
     = Ok (Wait (of_Z 1000)).
Proof. split; reflexivity. Qed.

End NormalizerExamples.

(** ** The decision loop *)

Module LoopFacts.
Import JSString JSValue AgentLoop Runs.

Ltac split_iteration H :=
  unfold iteration in H;
  repeat match type of H with
         | context [if ?b then _ else _] => destruct b eqn:?
         | context [match ?x with _ => _ end] =>
             lazymatch x with
             | steps _ => fail
             | _ => destruct x eqn:?
             end
         end.

Section Facts.
Context {P : Platform}.
Variable config : AgentLoopConfig.

(** *** One iteration *)

(** An iteration records nothing, or records the terminal [done] step, or
    records an executed step and applies the progress rule to it. *)
Lemma iteration_cases (env : Env) (j : nat) (st st' : LoopState) (c : Control) :
  iteration config env j st = (st', c) ->
  (steps st' = steps st
   /\ c <> Continue
   /\ (ladderState st' = ladderState st
       \/ ladderState st' = updateHelpLadder (ladderState st) (observed env)))
  \/ (exists step,
        steps st' = (steps st ++ [step])%list
        /\ isDone (action step) = true
        /\ c = Break
        /\ ladderState st' = updateHelpLadder (ladderState st) (observed env))
  \/ (exists step,
        steps st' = (steps st ++ [step])%list
        /\ isDone (action step) = false
        /\ ladderState st'
           = updateProgress (updateHelpLadder (ladderState st) (observed env))
                            (progress (result_ step))).
Proof.
  intros H. split_iteration H; inversion H; subst; clear H; cbn;
    first
      [ left; split; [first [reflexivity | assumption]|]; split; [discriminate|];
        first [left; reflexivity | right; reflexivity]
      | right; left; eexists; split; [reflexivity|]; split; [reflexivity|];
        split; reflexivity
      | right; right; eexists; split; [reflexivity|]; split; reflexivity ].
Qed.

(** What a continuing iteration leaves untouched. *)
Lemma iteration_continue (env : Env) (j : nat) (st st' : LoopState) :
  iteration config env j st = (st', Continue) ->
  length (steps st') = S (length (steps st))
  /\ finalStatus st' = finalStatus st
  /\ reason st' = reason st
  /\ completionEvidence st' = completionEvidence st.
Proof.
  intros H. split_iteration H; inversion H; subst; clear H; cbn;
    rewrite length_app; cbn; repeat split; lia.
Qed.

Lemma iteration_length (env : Env) (j : nat) (st st' : LoopState) (c : Control) :
  iteration config env j st = (st', c) ->
  (length (steps st') <= S (length (steps st)))%nat.
Proof.
  intros H. destruct (iteration_cases _ _ _ _ _ H)
    as [(Hs & _) | [(step & Hs & _) | (step & Hs & _)]];
    rewrite Hs; rewrite ?length_app; cbn; lia.
Qed.

(** *** The ladder *)

Lemma updateHelpLadder_fields (l : HelpLadderState) (s : PageSnapshot) :
  stepsWithoutProgress (updateHelpLadder l s) = stepsWithoutProgress l
  /\ searchTermsUsed (updateHelpLadder l s) = searchTermsUsed l
  /\ helpOpened (updateHelpLadder l s) = helpOpened l.
Proof.
  unfold updateHelpLadder.
  destruct (_ && _ && _); [repeat split|]. destruct (_ && _); repeat split.
Qed.

Lemma updateHelpLadder_phase (l : HelpLadderState) (s : PageSnapshot) :
  phase (updateHelpLadder l s)
  = if (10 <=? stepsWithoutProgress l)%Z && negb (helpOpened l) && hasHelpLink s then 2%Z
    else if (6 <=? stepsWithoutProgress l)%Z && hasSearchBox s then 1%Z
    else phase l.
Proof.
  unfold updateHelpLadder.
  destruct (_ && _ && _); [reflexivity|]. destruct (_ && _); reflexivity.
Qed.

Lemma updateProgress_fields (l : HelpLadderState) (p : ProgressLevel) :
  phase (updateProgress l p) = phase l
  /\ stepsWithoutProgress (updateProgress l p)
     = nextStepsWithoutProgress p (stepsWithoutProgress l)
  /\ searchTermsUsed (updateProgress l p) = searchTermsUsed l
  /\ helpOpened (updateProgress l p) = helpOpened l.
Proof. destruct p; repeat split. Qed.

Lemma nextStepsWithoutProgress_nonneg (p : ProgressLevel) (n : Z) :
  (0 <= n -> 0 <= nextStepsWithoutProgress p n)%Z.
Proof. destruct p; cbn; lia. Qed.

Lemma updateHelpLadder_invariant (l : HelpLadderState) (s : PageSnapshot) :
  ladderInvariant l -> ladderInvariant (updateHelpLadder l s).
Proof.
  intros (H1 & H2 & H3 & H4).
  destruct (updateHelpLadder_fields l s) as (E1 & E2 & E3).
  unfold ladderInvariant. rewrite E1, E2, E3, updateHelpLadder_phase.
  repeat split; try assumption;
    destruct (_ && _ && _); try lia; destruct (_ && _); lia.
Qed.

Lemma updateProgress_invariant (l : HelpLadderState) (p : ProgressLevel) :
  ladderInvariant l -> ladderInvariant (updateProgress l p).
Proof.
  intros (H1 & H2 & H3 & H4).
  destruct (updateProgress_fields l p) as (E0 & E1 & E2 & E3).
  unfold ladderInvariant. rewrite E0, E1, E2, E3.
  repeat split; try assumption; try lia.
  now apply nextStepsWithoutProgress_nonneg.
Qed.

Lemma iteration_invariant (env : Env) (j : nat) (st st' : LoopState) (c : Control) :
  iteration config env j st = (st', c) ->
  ladderInvariant (ladderState st) -> ladderInvariant (ladderState st').
Proof.
  intros H Hinv.
  destruct (iteration_cases _ _ _ _ _ H)
    as [(_ & _ & [Hl | Hl]) | [(step & _ & _ & _ & Hl) | (step & _ & _ & Hl)]];
    rewrite Hl; auto using updateHelpLadder_invariant, updateProgress_invariant.
Qed.

(** The phase after an iteration is the phase [updateHelpLadder] chose. *)
Lemma iteration_phase (env : Env) (j : nat) (st st' : LoopState) (c : Control) :
  iteration config env j st = (st', c) ->
  phase (ladderState st') = phase (ladderState st)
  \/ phase (ladderState st') = phase (updateHelpLadder (ladderState st) (observed env)).
Proof.
  intros H.
  destruct (iteration_cases _ _ _ _ _ H)
    as [(_ & _ & [Hl | Hl]) | [(step & _ & _ & _ & Hl) | (step & _ & _ & Hl)]];
    rewrite Hl; auto.
Qed.

(** *** The loop *)

Variable world : nat -> Env.

Lemma after_S (k : nat) :
  after config world (S k)
  = match after config world k with
    | (st, Continue) => iteration config (world k) k st
    | stopped => stopped
    end.
Proof. reflexivity. Qed.

(** While the loop continues, nothing has been decided and every
    iteration has recorded one step. *)
Lemma after_continue (k : nat) (st : LoopState) :
  after config world k = (st, Continue) ->
  length (steps st) = k
  /\ finalStatus st = fail
  /\ reason st = "Unknown"
  /\ completionEvidence st = [].
Proof.
  revert st. induction k as [|k IH]; intros st H.
  - inversion H. repeat split.
  - rewrite after_S in H. destruct (after config world k) as [st0 [| |e]] eqn:E;
      try discriminate.
    destruct (IH st0 eq_refl) as (L & F & R & C).
    destruct (iteration_continue _ _ _ _ H) as (L' & F' & R' & C').
    repeat split; congruence.
Qed.

(** A [Break] or an escaping exception ends the loop. *)
Lemma after_stopped (k m : nat) (st : LoopState) (c : Control) :
  after config world k = (st, c) -> c <> Continue -> (k <= m)%nat ->
  after config world m = (st, c).
Proof.
  intros H Hc Hle. induction Hle as [|m Hle IH]; [exact H|].
  rewrite after_S, IH. destruct c; congruence.
Qed.

Lemma after_length (k : nat) :
  (length (steps (fst (after config world k))) <= k)%nat.
Proof.
  induction k as [|k IH]; [cbn; lia|].
  rewrite after_S. destruct (after config world k) as [st [| |e]]; cbn in *; try lia.
  destruct (iteration config (world k) k st) as [st' c] eqn:E.
  pose proof (iteration_length _ _ _ _ _ E). cbn. lia.
Qed.

Lemma after_invariant (k : nat) :
  ladderInvariant (ladderState (fst (after config world k))).
Proof.
  induction k as [|k IH].
  - cbn. unfold ladderInvariant. cbn. repeat split; lia.
  - rewrite after_S. destruct (after config world k) as [st [| |e]]; cbn in *; try assumption.
    destruct (iteration config (world k) k st) as [st' c] eqn:E.
    cbn. eapply iteration_invariant; eauto.
Qed.

(** The phase after [S k] turns is the phase after [k] turns, or the one
    [updateHelpLadder] chose at iteration [k]. *)
Lemma after_phase (k : nat) :
  let l := ladderState (fst (after config world k)) in
  let l' := ladderState (fst (after config world (S k))) in
  phase l' = phase l \/ phase l' = phase (updateHelpLadder l (observed (world k))).
Proof.
  cbv zeta. rewrite after_S.
  destruct (after config world k) as [st [| |e]]; cbn [fst]; auto.
  destruct (iteration config (world k) k st) as [st' c] eqn:E. cbn [fst].
  eapply iteration_phase; eauto.
Qed.

End Facts.
End LoopFacts.

Module LoopClaims.
Import JSString JSValue AgentLoop Runs LoopFacts.

Section Claims.
Context {P : Platform}.

(** C4.  When an iteration records a non-terminal step, the counter
    [stepsWithoutProgress] becomes 0 on [major] progress, one more on
    [none], and one less, but never below 0, on [some]; and in every run
    the counter is non-negative after any number of iterations. *)
Theorem stepsWithoutProgress_follows_rule
        (config : AgentLoopConfig) (world : nat -> Env)
        (env : Env) (j : nat) (st st' : LoopState) (c : Control) (step : StepLog)
        (Hiteration : iteration config env j st = (st', c))
        (Hrecorded : steps st' = (steps st ++ [step])%list)
        (Hnonterminal : isDone (action step) = false) :
  stepsWithoutProgress (ladderState st')
  = match progress (result_ step) with
    | major => 0
    | none => stepsWithoutProgress (ladderState st) + 1
    | some => Z.max 0 (stepsWithoutProgress (ladderState st) - 1)
    end%Z
  /\ forall k, (0 <= stepsWithoutProgress (ladderState (fst (after config world k))))%Z.
Proof.
  split; [|intros k; apply (after_invariant config world k)].
  destruct (iteration_cases _ _ _ _ _ _ Hiteration)
    as [(Hs & _) | [(step' & Hs & Hd & _) | (step' & Hs & _ & Hl)]].
  - rewrite Hs in Hrecorded. apply (f_equal (@length _)) in Hrecorded.
    rewrite length_app in Hrecorded. cbn in Hrecorded. lia.
  - rewrite Hs in Hrecorded. apply app_inv_head in Hrecorded.
    inversion Hrecorded. subst. congruence.
  - rewrite Hs in Hrecorded. apply app_inv_head in Hrecorded.
    inversion Hrecorded. subst step'. rewrite Hl.
    destruct (updateProgress_fields
                (updateHelpLadder (ladderState st) (observed env))
                (progress (result_ step))) as (_ & E & _).
    rewrite E. destruct (updateHelpLadder_fields (ladderState st) (observed env)) as (E' & _).
    rewrite E'. reflexivity.
Qed.

(** C5, as the code has it.  Across the iterations of a run the phase
    stays within 0..2 and never falls back to 0; it never decreases,
    except that it moves from 2 to 1 when, at that iteration, the phase-2
    condition fails while [stepsWithoutProgress >= 6] and a search
    affordance is present. *)
Theorem phase_only_falls_from_two_to_one
        (config : AgentLoopConfig) (world : nat -> Env) (k : nat) :
  let l := ladderState (fst (after config world k)) in
  let l' := ladderState (fst (after config world (S k))) in
  (0 <= phase l <= 2)%Z
  /\ (1 <= phase l -> 1 <= phase l')%Z
  /\ ((phase l <= phase l')%Z
      \/ (phase l = 2%Z /\ phase l' = 1%Z
          /\ ((10 <=? stepsWithoutProgress l)%Z && hasHelpLink (observed (world k)) = false)
          /\ ((6 <=? stepsWithoutProgress l)%Z && hasSearchBox (observed (world k)) = true))).
Proof.
  cbv zeta.
  destruct (after_invariant config world k) as (_ & Hp & _ & Hh).
  pose proof (after_phase config world k) as Hstep. cbv zeta in Hstep.
  rewrite updateHelpLadder_phase, Hh in Hstep. cbn [negb] in Hstep.
  rewrite andb_true_r in Hstep.
  split; [exact Hp|].
  destruct Hstep as [E | E]; rewrite E; [split; [tauto | left; lia]|].
  destruct ((10 <=? _)%Z && hasHelpLink _) eqn:C2; [split; [lia | left; lia]|].
  destruct ((6 <=? _)%Z && hasSearchBox _) eqn:C1; [|split; [tauto | left; lia]].
  split; [lia|].
  destruct (Z.eq_dec (phase (ladderState (fst (after config world k)))) 2) as [E2 | N2].
  - right. repeat split; assumption.
  - left. lia.
Qed.

(** C10.  In every run, after any number of iterations, [helpOpened] is
    still [false] and [searchTermsUsed] is still empty, whatever actions
    were decided and executed ([openHelp] and [search] included); so the
    guard [!ladderState.helpOpened] of the phase-2 escalation holds at
    every step. *)
Theorem help_is_never_marked_opened
        (config : AgentLoopConfig) (world : nat -> Env) (k : nat) :
  let l := ladderState (fst (after config world k)) in
  helpOpened l = false
  /\ searchTermsUsed l = []
  /\ negb (helpOpened l) = true
  /\ forall snapshot,
       phase (updateHelpLadder l snapshot)
       = if (10 <=? stepsWithoutProgress l)%Z && hasHelpLink snapshot then 2%Z
         else if (6 <=? stepsWithoutProgress l)%Z && hasSearchBox snapshot then 1%Z
         else phase l.
Proof.
  cbv zeta. destruct (after_invariant config world k) as (_ & _ & Hs & Hh).
  repeat split; try assumption.
  - now rewrite Hh.
  - intros snapshot. rewrite updateHelpLadder_phase, Hh. cbn [negb].
    now rewrite andb_true_r.
Qed.

(** What the loop does with a decided click that [isDestructiveAction]
    flags. *)
Lemma blocked_iteration (config : AgentLoopConfig) (env : Env) (j : nat)
      (st : LoopState) (action : AgentAction) (pageKey : string) :
  Qle_bool (timeoutMs config) (inject_Z (elapsed env)) = false ->
  getPageKey (observed env) = Ok pageKey ->
  decideNextAction (completion env) = Ok action ->
  isDone action = false ->
  isDestructiveAction action (goal config) = true ->
  exists st',
    iteration config env j st = (st', Break)
    /\ steps st' = steps st
    /\ finalStatus st' = fail
    /\ reason st' = "Blocked destructive action: " ++ JSON_stringify (actionValue action)
    /\ completionEvidence st' = completionEvidence st.
Proof.
  intros Ht Hk Hd Hn Hb. unfold iteration. rewrite Ht, Hk, Hd.
  destruct action; try discriminate; rewrite Hb; eexists; repeat split.
Qed.

(** What the loop does with a decided action that is neither [done] nor
    flagged: it executes it and records the step. *)
Lemma executed_iteration (config : AgentLoopConfig) (env : Env) (j : nat)
      (st : LoopState) (action : AgentAction) (pageKey : string) :
  Qle_bool (timeoutMs config) (inject_Z (elapsed env)) = false ->
  getPageKey (observed env) = Ok pageKey ->
  decideNextAction (completion env) = Ok action ->
  isDone action = false ->
  isDestructiveAction action (goal config) = false ->
  exists st' c result,
    iteration config env j st = (st', c)
    /\ steps st' = (steps st ++ [mkStep env j (observed env) action result])%list.
Proof.
  intros Ht Hk Hd Hn Hb. unfold iteration. rewrite Ht, Hk, Hd.
  destruct action; try discriminate; rewrite Hb;
    repeat match goal with
           | |- context [if ?b then _ else _] => destruct b
           | |- context [match ?x with _ => _ end] => destruct x
           end;
    do 3 eexists; split; reflexivity.
Qed.

Lemma isDestructiveAction_click (target goal : string) (pattern : JSRegExp.pattern) :
  In pattern DESTRUCTIVE_PATTERNS ->
  JSRegExp.test pattern (toLowerCase target) = true ->
  JSRegExp.test pattern (toLowerCase goal) = false ->
  isDestructiveAction (Click target) goal = true.
Proof.
  intros Hin Ht Hg. cbn [isDestructiveAction]. apply existsb_exists.
  exists pattern. split; [exact Hin|]. now rewrite Ht, Hg.
Qed.

(** C1, as the code has it.  A keyword is matched as a whole word (the
    patterns are [/\bkeyword\b/i], a run of white space standing between
    the words of a two-word keyword), not as a substring.  Whenever the
    loop decides a click whose target matches one of these patterns while
    the goal does not match that same pattern, the run ends at once: no
    step is recorded for the click, the status is [fail], and the reason
    is "Blocked destructive action: " followed by the action.  A click on
    "Delete my account" is flagged under the goal "browse the product" and
    not under the goal "delete my account", where the loop executes it and
    records its step. *)
Theorem destructive_click_is_blocked
        (config : AgentLoopConfig) (world : nat -> Env) (j : nat) (st : LoopState)
        (target : string) (pattern : JSRegExp.pattern)
        (Hdecides : decides config world j st (Click target))
        (Hpattern : In pattern DESTRUCTIVE_PATTERNS)
        (Htarget : JSRegExp.test pattern (toLowerCase target) = true)
        (Hgoal : JSRegExp.test pattern (toLowerCase (goal config)) = false) :
  runAgentLoop config world
  = Ok {| res_steps := steps st;
          res_finalStatus := fail;
          res_reason := "Blocked destructive action: "
                        ++ JSON_stringify (actionValue (Click target));
          res_completionEvidence := [] |}
  /\ isDestructiveAction (Click "Delete my account") "browse the product" = true
  /\ isDestructiveAction (Click "Delete my account") "delete my account" = false
  /\ (forall config' world' j' st',
        goal config' = "delete my account" ->
        decides config' world' j' st' (Click "Delete my account") ->
        exists step,
          steps (fst (after config' world' (S j'))) = (steps st' ++ [step])%list
          /\ action step = Click "Delete my account").
Proof.
  split; [|split; [reflexivity | split; [reflexivity|]]].
  2:{ intros config' world' j' st' Hg (Hafter & _ & Htime & (pageKey & Hkey) & Hdecided).
      destruct (executed_iteration config' (world' j') j' st'
                  (Click "Delete my account") pageKey Htime Hkey Hdecided eq_refl)
        as (st2 & c & result & Hit & Hsteps).
      { rewrite Hg. reflexivity. }
      rewrite after_S, Hafter, Hit. cbn [fst]. eexists. split; [exact Hsteps | reflexivity]. }
  destruct Hdecides as (Hafter & Hj & Htime & (pageKey & Hkey) & Hdecided).
  destruct (after_continue _ _ _ _ Hafter) as (Hlen & _ & _ & Hev).
  destruct (blocked_iteration config (world j) j st (Click target) pageKey
              Htime Hkey Hdecided eq_refl
              (isDestructiveAction_click _ _ _ Hpattern Htarget Hgoal))
    as (st' & Hit & Hsteps & Hstatus & Hreason & Hev').
  assert (HS : after config world (S j) = (st', Break)).
  { rewrite after_S, Hafter. exact Hit. }
  assert (Hend : after config world (maxSteps config) = (st', Break)).
  { apply (after_stopped config world (S j)); [exact HS | discriminate | lia]. }
  unfold runAgentLoop. rewrite Hend. unfold finish.
  rewrite Hsteps, Hlen, Hstatus, Hreason, Hev', Hev.
  replace (maxSteps config <=? j)%nat with false
    by (symmetry; apply Nat.leb_gt; exact Hj).
  reflexivity.
Qed.

End Claims.

(** C8: a run the code reports against the claim.  With a budget of 14
    steps and 14 steps without progress, the ceiling check of the last
    iteration sets the status to [fail] with the discoverability reason
    and breaks; the check after the loop then finds all 14 steps used and
    the status [fail], and overwrites both: the result is [partial],
    "Step budget exhausted (14 steps)". *)
Theorem ceiling_on_last_step_is_reported_partial :
  let P := Reference.platform in
  let config := Scenario.browse 14 in
  let world := fun _ : nat => Scenario.quiet (Scroll down) (Scenario.page false false) in
  (finalStatus (fst (after config world 14)) = fail
   /\ reason (fst (after config world 14))
      = "Discoverability block: no progress for 14 steps"
   /\ snd (after config world 14) = Break)
  /\ runAgentLoop config world
     = Ok {| res_steps := steps (fst (after config world 14));
             res_finalStatus := partial;
             res_reason := "Step budget exhausted (14 steps)";
             res_completionEvidence := [] |}.
Proof. vm_compute. repeat split. Qed.

Lemma stepsWithoutProgress_follows_rule_witness :
  let P := Reference.platform in
  let env := Scenario.quiet (Scroll down) (Scenario.page false false) in
  stepsWithoutProgress
    (ladderState (fst (iteration (Scenario.browse 3) env 0 initialState))) = 1%Z.
Proof.
  intros P env.
  refine (proj1 (stepsWithoutProgress_follows_rule (P := P)
                   (Scenario.browse 3) (fun _ => env) env 0 initialState
                   (fst (iteration (Scenario.browse 3) env 0 initialState))
                   (snd (iteration (Scenario.browse 3) env 0 initialState))
                   (mkStep env 0 (Scenario.page false false) (Scroll down)
                      {| ok := true; notes := "Executed scroll"; newUrl := None;
                         progress := none; error := None |})
                   _ _ _)); vm_compute; reflexivity.
Defined.

Lemma destructive_click_is_blocked_witness :
  let P := Reference.platform in
  runAgentLoop (Scenario.browse 5)
    (fun _ => Scenario.quiet (Click "Delete my account") (Scenario.page false false))
  = Ok {| res_steps := [];
          res_finalStatus := fail;
          res_reason := "Blocked destructive action: "
                        ++ Reference.stringify (actionValue (Click "Delete my account"));
          res_completionEvidence := [] |}.
Proof.
  intros P.
  refine (proj1 (destructive_click_is_blocked (P := P) (Scenario.browse 5)
                   (fun _ => Scenario.quiet (Click "Delete my account")
                                            (Scenario.page false false))
                   0 initialState "Delete my account" (words ["delete"]) _ _ _ _)).
  - repeat split; try reflexivity.
    + cbn. lia.
    + eexists. reflexivity.
  - left. reflexivity.
  - reflexivity.
  - reflexivity.
Defined.

(** C5 as stated fails: ten steps without progress raise the phase to 2
    on a page with a help link; on the next page, without a help link but
    with a search box, the update sets it back to 1. *)
Lemma phase_drops_from_two_to_one :
  let P := Reference.platform in
  let world := fun j : nat =>
                 Scenario.quiet (Scroll down) (Scenario.page (Nat.eqb j 10) true) in
  phase (ladderState (fst (after (Scenario.browse 20) world 11))) = 2%Z
  /\ phase (ladderState (fst (after (Scenario.browse 20) world 12))) = 1%Z
  /\ snd (after (Scenario.browse 20) world 12) = Continue.
Proof. vm_compute. repeat split. Qed.

(** C1 as stated fails: "Deleted items" contains the keyword "delete" as
    a substring and the goal contains no keyword, yet the click is not
    flagged: it is executed and recorded. *)
Lemma substring_match_is_not_blocked :
  let P := Reference.platform in
  In "delete" DESTRUCTIVE_KEYWORDS
  /\ includes (toLowerCase "Deleted items") "delete" = true
  /\ existsb (includes (toLowerCase "browse the product")) DESTRUCTIVE_KEYWORDS = false
  /\ isDestructiveAction (Click "Deleted items") "browse the product" = false
  /\ match runAgentLoop (Scenario.browse 1)
             (fun _ => Scenario.quiet (Click "Deleted items") (Scenario.page false false))
     with
     | Ok r => map action (res_steps r) = [Click "Deleted items"]
               /\ map (fun s => notes (result_ s)) (res_steps r) = ["Executed click"]
     | Throw _ => False
     end.
Proof. vm_compute. repeat split. left. reflexivity. Qed.

End LoopClaims.

(** ** The run evaluator *)

Module EvaluatorFacts.
Import JSString Evaluator Traces.

Section Facts.
Context {P : Platform}.

Lemma getPageKey_nonempty (s : PageSnapshot) (key : string) :
  getPageKey s = Ok key -> String.eqb key "" = false.
Proof.
  unfold getPageKey. destruct (URL_pathname (snap_url s)) as [path|e]; cbn; [|discriminate].
  intros H. inversion H. destruct path; reflexivity.
Qed.

Lemma mod3_S (n : nat) :
  S n mod 3 = if (n mod 3 =? 2)%nat then 0%nat else S (n mod 3).
Proof.
  pose proof (Nat.mod_upper_bound n 3 ltac:(lia)) as Hb.
  pose proof (Nat.div_mod_eq n 3) as Hn.
  destruct (n mod 3 =? 2)%nat eqn:E.
  - apply Nat.eqb_eq in E. symmetry.
    apply (Nat.mod_unique (S n) 3 (S (n / 3)) 0); lia.
  - apply Nat.eqb_neq in E. symmetry.
    apply (Nat.mod_unique (S n) 3 (n / 3) (S (n mod 3))); lia.
Qed.

(** The loop of [detectStuckEvents] against [runEvents]: the counter is
    the run length modulo 3. *)
Lemma detectLoop_runEvents (steps : list StepLog) :
  forall (keys : list string) (stuck c run : nat) (last : string),
    pageKeys steps = Ok keys ->
    c = (run mod 3)%nat ->
    detectLoop steps stuck c last = Ok (stuck + runEvents run last keys)%nat.
Proof.
  induction steps as [|step rest IH]; intros keys stuck c run last Hk Hc.
  - inversion Hk. cbn [detectLoop runEvents]. f_equal. lia.
  - cbn [pageKeys] in Hk. cbn [detectLoop].
    destruct (getPageKey (snapshot step)) as [key|e]; cbn [rbind] in Hk |- *; [|discriminate].
    destruct (pageKeys rest) as [keys'|e]; cbn [rbind] in Hk; [|discriminate].
    inversion Hk; subst keys. cbn [runEvents].
    pose proof (Nat.mod_upper_bound run 3 ltac:(lia)) as Hb.
    destruct (String.eqb key last).
    + rewrite mod3_S. destruct (run mod 3 =? 2)%nat eqn:E.
      * apply Nat.eqb_eq in E. replace (3 <=? S c)%nat with true
          by (symmetry; apply Nat.leb_le; lia).
        rewrite (IH keys' (S stuck) 0%nat (S run) last eq_refl).
        -- cbn [Nat.eqb]. f_equal. lia.
        -- rewrite mod3_S, E. now rewrite Nat.eqb_refl.
      * apply Nat.eqb_neq in E. replace (3 <=? S c)%nat with false
          by (symmetry; apply Nat.leb_gt; lia).
        rewrite (IH keys' stuck (S c) (S run) last eq_refl).
        -- cbn [Nat.eqb]. f_equal.
        -- rewrite mod3_S. replace (run mod 3 =? 2)%nat with false
             by (symmetry; apply Nat.eqb_neq; lia). lia.
    + rewrite (IH keys' stuck 1%nat 1%nat key eq_refl); reflexivity.
Qed.

Lemma runEvents_short (keys : list string) :
  forall (run : nat) (last : string),
    (run mod 3 + length keys < 3)%nat -> runEvents run last keys = 0%nat.
Proof.
  induction keys as [|key rest IH]; intros run last H; [reflexivity|].
  cbn [runEvents]. cbn [length] in H. destruct (String.eqb key last).
  - rewrite mod3_S. replace (run mod 3 =? 2)%nat with false
      by (symmetry; apply Nat.eqb_neq; lia).
    cbn. apply IH. rewrite mod3_S.
    replace (run mod 3 =? 2)%nat with false by (symmetry; apply Nat.eqb_neq; lia).
    lia.
  - apply IH. cbn. lia.
Qed.

Lemma pageKeys_length (steps : list StepLog) :
  forall keys, pageKeys steps = Ok keys -> length keys = length steps.
Proof.
  induction steps as [|step rest IH]; intros keys H.
  - now inversion H.
  - cbn in H. destruct (getPageKey (snapshot step)); cbn in H; [|discriminate].
    destruct (pageKeys rest) as [keys'|]; cbn in H; [|discriminate].
    inversion H. cbn. f_equal. now apply IH.
Qed.

(** For every trace: [detectStuckEvents] counts one event each time a run
    of equal page keys reaches length 3, 6, 9, ... *)
Lemma detectStuckEvents_runEvents (steps : list StepLog) (keys : list string) :
  pageKeys steps = Ok keys ->
  detectStuckEvents steps = Ok (runEvents 0 "" keys).
Proof.
  intros Hk. unfold detectStuckEvents.
  destruct (length steps <? 3)%nat eqn:E.
  - apply Nat.ltb_lt in E. rewrite runEvents_short; [reflexivity|].
    rewrite (pageKeys_length _ _ Hk). cbn. lia.
  - destruct steps as [|step rest]; [discriminate|].
    cbn in Hk. cbn [detectLoop].
    destruct (getPageKey (snapshot step)) as [key|e] eqn:Ekey; cbn in Hk |- *; [|discriminate].
    destruct (pageKeys rest) as [keys'|e] eqn:Erest; cbn in Hk; [|discriminate].
    inversion Hk; subst keys. cbn [runEvents].
    rewrite (getPageKey_nonempty _ _ Ekey).
    now rewrite (detectLoop_runEvents rest keys' 0 1 1 key Erest eq_refl).
Qed.

Lemma stall_pageKeys (key : string) (steps : list StepLog) :
  stall key steps -> pageKeys steps = Ok (repeat key (length steps)).
Proof.
  induction 1 as [|step rest Hk _ IH]; [reflexivity|].
  cbn. rewrite Hk. cbn. rewrite IH. reflexivity.
Qed.

Lemma runEvents_repeat (key : string) (n : nat) :
  forall run, runEvents run key (repeat key n) = ((run mod 3 + n) / 3)%nat.
Proof.
  induction n as [|n IH]; intros run;
    pose proof (Nat.mod_upper_bound run 3 ltac:(lia)) as Hb.
  - cbn [repeat runEvents]. rewrite Nat.add_0_r.
    symmetry. apply Nat.div_small. exact Hb.
  - cbn [repeat runEvents]. rewrite String.eqb_refl, IH, mod3_S.
    destruct (run mod 3 =? 2)%nat eqn:E.
    + apply Nat.eqb_eq in E. rewrite E, Nat.eqb_refl, Nat.add_0_l.
      replace (2 + S n)%nat with (1 * 3 + n)%nat by lia.
      rewrite Nat.div_add_l by lia. lia.
    + apply Nat.eqb_neq in E.
      change (S (run mod 3) =? 0)%nat with false. cbv iota.
      rewrite Nat.add_0_l. f_equal. lia.
Qed.

(** A stall of [n] steps counts [n / 3] stuck events. *)
Lemma detectStuckEvents_stall (key : string) (steps : list StepLog) :
  stall key steps -> detectStuckEvents steps = Ok (length steps / 3)%nat.
Proof.
  intros Hs. rewrite (detectStuckEvents_runEvents _ _ (stall_pageKeys _ _ Hs)).
  destruct steps as [|step rest]; [reflexivity|].
  cbn [length repeat runEvents].
  inversion Hs as [|? ? Hk _]; subst.
  rewrite (getPageKey_nonempty _ _ Hk).
  rewrite (runEvents_repeat key (length rest) 1). reflexivity.
Qed.

(** *** Stuck windows and the findings of a stall *)

Lemma windowLoop_stall (key : string) (rest : list StepLog) :
  stall key rest ->
  forall windows current,
    windowLoop rest windows current key = Ok (windows, (current ++ rest)%list).
Proof.
  induction 1 as [|step rest Hk _ IH]; intros windows current.
  - cbn [windowLoop]. now rewrite app_nil_r.
  - cbn [windowLoop]. rewrite Hk. cbn [rbind]. rewrite String.eqb_refl, IH.
    now rewrite <- app_assoc.
Qed.

(** A stall of at least three steps is one stuck window: the stall. *)
Lemma findStuckWindows_stall (key : string) (steps : list StepLog) :
  stall key steps -> (3 <= length steps)%nat -> findStuckWindows steps = Ok [steps].
Proof.
  intros Hs Hlen. unfold findStuckWindows.
  destruct steps as [|step rest]; [cbn in Hlen; lia|].
  inversion Hs as [|? ? Hk Hrest]; subst.
  cbn [windowLoop]. rewrite Hk. cbn [rbind].
  rewrite (getPageKey_nonempty _ _ Hk).
  change (3 <=? @length StepLog [])%nat with false. cbv iota.
  rewrite (windowLoop_stall key rest Hrest). cbn [rbind app].
  apply Nat.leb_le in Hlen. rewrite Hlen. reflexivity.
Qed.

Lemma backtrackLoop_returns (steps : list StepLog) :
  forall keys found seen,
    pageKeys steps = Ok keys ->
    exists backtrackSteps, backtrackLoop steps found seen = Ok backtrackSteps.
Proof.
  induction steps as [|step rest IH]; intros keys found seen Hk.
  - eexists. reflexivity.
  - cbn [pageKeys] in Hk. cbn [backtrackLoop].
    destruct (getPageKey (snapshot step)) as [key|e]; cbn [rbind] in Hk |- *; [|discriminate].
    destruct (pageKeys rest) as [keys'|e] eqn:E; cbn [rbind] in Hk; [|discriminate].
    destruct (existsb _ seen); eapply IH; reflexivity.
Qed.

Lemma aside_nil : aside [].
Proof. split; [cbn; lia | reflexivity]. Qed.

Lemma aside_app (fs gs : list Finding) (n : nat) :
  aside fs -> (length gs <= n)%nat /\ filter isWindowFinding gs = [] ->
  (length (fs ++ gs) <= S n)%nat /\ filter isWindowFinding (fs ++ gs) = [].
Proof.
  intros (L1 & F1) (L2 & F2). rewrite length_app, filter_app, F1, F2.
  split; [lia | reflexivity].
Qed.

Lemma searchFinding_aside (steps : list StepLog) : aside (searchFinding steps).
Proof.
  unfold searchFinding. destruct (2 <=? _)%nat; [|apply aside_nil].
  destruct (filter _ steps); [apply aside_nil|]. split; [cbn; lia | reflexivity].
Qed.

Lemma backtrackFinding_aside (metrics : RunMetrics) (found : list StepLog) :
  aside (backtrackFinding metrics found).
Proof.
  destruct found; [apply aside_nil|]. split; [cbn; lia | reflexivity].
Qed.

Lemma consoleFinding_aside (steps : list StepLog) (metrics : RunMetrics) :
  aside (consoleFinding steps metrics).
Proof.
  unfold consoleFinding. destruct (filter _ steps); [apply aside_nil|].
  split; [cbn; lia | reflexivity].
Qed.

Lemma networkFinding_aside (steps : list StepLog) (metrics : RunMetrics) :
  aside (networkFinding steps metrics).
Proof.
  unfold networkFinding. destruct (filter _ steps); [apply aside_nil|].
  split; [cbn; lia | reflexivity].
Qed.

Lemma validationFinding_aside (steps : list StepLog) : aside (validationFinding steps).
Proof.
  unfold validationFinding. destruct (filter _ steps); [apply aside_nil|].
  split; [cbn; lia | reflexivity].
Qed.

Lemma helpFinding_aside (steps : list StepLog) : aside (helpFinding steps).
Proof.
  unfold helpFinding. destruct (find _ steps); [|apply aside_nil].
  split; [cbn; lia | reflexivity].
Qed.

(** The findings of a stall, as pushed: the window's, then at most six
    others. *)
Lemma collectFindings_stall (key : string) (steps : list StepLog) (metrics : RunMetrics) :
  stall key steps -> (3 <= length steps)%nat ->
  exists others,
    collectFindings steps metrics = Ok (windowFinding steps ++ others)%list
    /\ (length others <= 6)%nat
    /\ filter isWindowFinding others = [].
Proof.
  intros Hs Hlen. unfold collectFindings.
  rewrite (findStuckWindows_stall key steps Hs Hlen). cbn [rbind flat_map].
  rewrite app_nil_r.
  assert (H3 : exists found,
             (if (3 <=? backtracks metrics)%nat
              then (backtrackSteps <- findBacktrackSteps steps ;;
                    Ok (backtrackFinding metrics backtrackSteps))%result
              else Ok [])
             = Ok found /\ aside found).
  { destruct (3 <=? backtracks metrics)%nat.
    - destruct (backtrackLoop_returns steps _ [] [] (stall_pageKeys _ _ Hs)) as (l & Hl).
      unfold findBacktrackSteps. rewrite Hl. cbn [rbind].
      eexists. split; [reflexivity | apply backtrackFinding_aside].
    - eexists. split; [reflexivity | apply aside_nil]. }
  destruct H3 as (found & -> & Hfound). cbn [rbind].
  eexists. split; [reflexivity|].
  apply aside_app; [apply searchFinding_aside|].
  apply aside_app; [exact Hfound|].
  apply aside_app; [apply consoleFinding_aside|].
  apply aside_app; [apply networkFinding_aside|].
  apply aside_app; [apply validationFinding_aside|].
  apply helpFinding_aside.
Qed.

(** *** Sorting keeps the findings *)

Lemma insertBySeverity_perm (x : Finding) (sorted : list Finding) :
  Permutation (insertBySeverity x sorted) (x :: sorted).
Proof.
  induction sorted as [|y rest IH]; cbn [insertBySeverity]; [reflexivity|].
  destruct (_ <=? _)%nat; [|reflexivity].
  rewrite IH. apply perm_swap.
Qed.

Lemma sortBySeverity_perm (findings : list Finding) :
  Permutation (sortBySeverity findings) findings.
Proof.
  unfold sortBySeverity.
  assert (G : forall acc, Permutation
                (fold_left (fun sorted x => insertBySeverity x sorted) findings acc)
                (acc ++ findings)).
  { induction findings as [|x rest IH]; intros acc; cbn [fold_left].
    - now rewrite app_nil_r.
    - rewrite IH, insertBySeverity_perm. apply Permutation_middle. }
  apply (G []).
Qed.

Lemma filter_perm {A} (f : A -> bool) (l l' : list A) :
  Permutation l l' -> Permutation (filter f l) (filter f l').
Proof.
  induction 1 as [|x l l' _ IH|x y l|l l' l'' _ IH1 _ IH2]; cbn [filter].
  - reflexivity.
  - destruct (f x); [now constructor | exact IH].
  - destruct (f x), (f y); try reflexivity. apply perm_swap.
  - now transitivity (filter f l').
Qed.

(** *** The validation finding *)

(** The finding is produced exactly when some step passes the filter as
    the language reads it: [(some && validation) || error]. *)
Lemma validationFinding_trigger (steps : list StepLog) :
  validationFinding steps <> [] <-> exists s, In s steps /\ isValidationStep s = true.
Proof.
  unfold validationFinding. split.
  - destruct (filter isValidationStep steps) as [|s l] eqn:E; [congruence|].
    intros _. exists s. apply filter_In. rewrite E. now left.
  - intros (s & Hin & Hs).
    assert (Hf : In s (filter isValidationStep steps)) by (apply filter_In; auto).
    destruct (filter isValidationStep steps); [contradiction | discriminate].
Qed.


End Facts.
End EvaluatorFacts.

Module EvaluatorExamples.
Import AgentLoop Evaluator Traces EvaluatorFacts.

Lemma sixScrolls_recorded :
  let P := Reference.platform in
  fst (after (Scenario.browse 20)
         (fun _ => Scenario.quiet (Scroll down) (Scenario.page false false)) 6)
  = {| steps := sixScrolls;
       ladderState := {| phase := 0; stepsWithoutProgress := 6;
                         searchTermsUsed := []; helpOpened := false |};
       visitedPages := [("/home::Home", 6%nat)];
       previousState := Some {| prev_url := "https://app.test/home";
                                prev_title := "Home";
                                prev_pageKey := "/home::Home" |};
       finalStatus := fail; reason := "Unknown"; completionEvidence := [] |}.
Proof. vm_compute. reflexivity. Qed.

(** C7: a trace the code treats against the claim.  The loop records
    [failedClick] when the driver throws; its only step has progress
    [none], yet, its notes mentioning "error", the evaluator reports a
    validation finding for it. *)
Theorem validation_finding_without_some_progress :
  let P := Reference.platform in
  match runAgentLoop (Scenario.browse 1)
          (fun _ => Scenario.failing (Click "Submit") (Scenario.page false false) strictMode)
  with
  | Ok r => res_steps r = failedClick
  | Throw _ => False
  end
  /\ map (fun s => progress (result_ s)) failedClick = [none]
  /\ match evaluate failedClick with
     | Ok (_, findings) =>
         filter isValidationFinding findings
         = [ {| f_type := validation; severity := low;
                title := "Form validation triggered";
                details := "Validation errors were encountered during the flow at 1 step(s).";
                evidence_step := 0; evidence_screenshot := "screens/step.png" |} ]
     | Throw _ => False
     end.
Proof. vm_compute. repeat split. Qed.

End EvaluatorExamples.

Module LoopRecord.
Import JSString JSValue AgentLoop Runs LoopFacts.

Section Record.
Context {P : Platform}.

(** A result that [executeAction] returns is a success; failures are
    thrown. *)
Lemma executeAction_ok (env : Env) (action : AgentAction) (snapshot : PageSnapshot)
      (previousState : option PreviousState) (r : StepResult) :
  executeAction env action snapshot previousState = Ok r -> ok r = true.
Proof.
  unfold executeAction.
  destruct action; try (intros H; inversion H; reflexivity);
    (destruct (driver env); [discriminate|];
     destruct (assessProgress _ _ _); cbn [rbind]; [|discriminate];
     intros H; inversion H; reflexivity).
Qed.

(** What an iteration records, when it can leave [success], and what it
    lets escape. *)
Lemma iteration_record (config : AgentLoopConfig) (env : Env) (j : nat)
      (st st' : LoopState) (c : Control) :
  iteration config env j st = (st', c) ->
  (steps st' = steps st
   \/ exists step key,
        steps st' = (steps st ++ [step])%list
        /\ i step = j
        /\ snapshot step = observed env
        /\ url step = snap_url (observed env)
        /\ getPageKey (snapshot step) = Ok key
        /\ (ok (result_ step) = true
            \/ exists e, error (result_ step) = Some (as_string e)))
  /\ (finalStatus st' = success ->
      finalStatus st = success
      \/ (exists hints, successHints config = Some hints
                        /\ reason st' = "Success hints satisfied")
      \/ (exists step why evidenceSteps,
            steps st' = (steps st ++ [step])%list
            /\ action step = Done why evidenceSteps
            /\ reason st' = why))
  /\ (forall e, c = Raise e -> getPageKey (observed env) = Throw e).
Proof.
  intros H. split_iteration H; inversion H; subst; clear H; cbn;
    (split; [|split];
     [ first [ left; first [reflexivity | assumption]
             | right; do 2 eexists; split; [reflexivity|];
               repeat split;
               first [ eassumption
                     | left; reflexivity
                     | left; eapply executeAction_ok; eassumption
                     | right; eexists; reflexivity ] ]
     | first [ discriminate
             | intros Hs; left; exact Hs
             | intros _; right; left; eexists; split;
               [first [reflexivity | eassumption] | reflexivity]
             | intros _; right; right; do 3 eexists; split; [reflexivity|];
               split; reflexivity ]
     | first [ discriminate
             | intros e' He'; inversion He'; subst;
               first [assumption | reflexivity] ] ]).
Qed.

End Record.
End LoopRecord.

Module LoopExtras.
Import JSString JSValue AgentLoop Runs LoopFacts LoopRecord Outcomes.

Section Extras.
Context {P : Platform}.
Variable config : AgentLoopConfig.
Variable world : nat -> Env.

(** An iteration that breaks ends the run in the state it leaves. *)
Lemma run_breaks (j : nat) (st st' : LoopState) :
  reaches config world j st ->
  iteration config (world j) j st = (st', Break) ->
  runAgentLoop config world = Ok (finish config st').
Proof.
  intros (Hafter & Hj) Hit.
  assert (HS : after config world (S j) = (st', Break)).
  { rewrite after_S, Hafter. exact Hit. }
  unfold runAgentLoop.
  rewrite (after_stopped config world (S j) (maxSteps config) st' Break HS); [reflexivity| |lia].
  discriminate.
Qed.

Lemma finish_under_budget (st : LoopState) :
  (length (steps st) < maxSteps config)%nat ->
  finish config st
  = {| res_steps := steps st; res_finalStatus := finalStatus st;
       res_reason := reason st; res_completionEvidence := completionEvidence st |}.
Proof.
  intros H. unfold finish.
  replace (maxSteps config <=? length (steps st))%nat with false
    by (symmetry; apply Nat.leb_gt; exact H).
  reflexivity.
Qed.

Lemma finish_not_fail (st : LoopState) :
  finalStatus st <> fail ->
  finish config st
  = {| res_steps := steps st; res_finalStatus := finalStatus st;
       res_reason := reason st; res_completionEvidence := completionEvidence st |}.
Proof.
  intros H. unfold finish. destruct (finalStatus st); try congruence;
    now rewrite andb_false_r.
Qed.

(** X1: a failed decision is fatal.  When the completion service throws,
    or its answer does not normalise, the run ends there with status
    [fail] and the reason "Decision error: ..."; nothing is recorded for
    the iteration and the status is not rewritten after the loop. *)
Theorem decision_error_ends_run_with_fail
        (j : nat) (st : LoopState) (e : JSError)
        (Hreach : reaches config world j st)
        (Htime : timeLeft config (world j))
        (Hpage : pageKeyed (world j))
        (Hdecision : decideNextAction (completion (world j)) = Throw e) :
  runAgentLoop config world
  = Ok {| res_steps := steps st;
          res_finalStatus := fail;
          res_reason := "Decision error: " ++ describe e;
          res_completionEvidence := [] |}.
Proof.
  destruct Hpage as (pageKey & Hkey).
  destruct (after_continue _ _ _ _ (proj1 Hreach)) as (Hlen & Hstatus & _ & Hev).
  rewrite (run_breaks j st
             (withOutcome
                {| steps := steps st;
                   ladderState := updateHelpLadder (ladderState st) (observed (world j));
                   visitedPages := visit (visitedPages st) pageKey;
                   previousState := previousState st; finalStatus := finalStatus st;
                   reason := reason st; completionEvidence := completionEvidence st |}
                (finalStatus st) ("Decision error: " ++ describe e)
                (completionEvidence st)) Hreach).
  - rewrite finish_under_budget; cbn; [|destruct Hreach; lia].
    now rewrite Hstatus, Hev.
  - unfold iteration. unfold timeLeft in Htime. rewrite Htime, Hkey, Hdecision. reflexivity.
Qed.

(** X2: the time budget.  When the budget is exhausted at the start of an
    iteration, that is when [elapsed >= timeoutMs] with [timeoutMs] the
    double the two products [maxMinutes * 60 * 1000] round to, the run ends
    there: [fail] if no step has been taken, [partial] otherwise, with the
    reason "Time budget exhausted (...)". *)
Theorem time_budget_ends_run
        (j : nat) (st : LoopState)
        (Hreach : reaches config world j st)
        (Hexhausted : Qle_bool (timeoutMs config) (inject_Z (elapsed (world j))) = true) :
  runAgentLoop config world
  = Ok {| res_steps := steps st;
          res_finalStatus := if (j =? 0)%nat then fail else partial;
          res_reason := "Time budget exhausted ("
                        ++ Number_toString (Fin (maxMinutes config)) ++ " minutes)";
          res_completionEvidence := [] |}.
Proof.
  destruct (after_continue _ _ _ _ (proj1 Hreach)) as (Hlen & _ & _ & Hev).
  rewrite (run_breaks j st
             (withOutcome st (match steps st with [] => fail | _ => partial end)
                ("Time budget exhausted (" ++ Number_toString (Fin (maxMinutes config))
                 ++ " minutes)")
                (completionEvidence st)) Hreach).
  - rewrite finish_under_budget; cbn; [|destruct Hreach; lia].
    rewrite Hev. destruct (steps st); cbn in Hlen; subst j; reflexivity.
  - unfold iteration. rewrite Hexhausted. reflexivity.
Qed.

(** X3: [done].  When the agent declares [done], the run ends with the
    terminal step recorded (progress [major]); the status is [success]
    when no success hints are configured or they hold on the page just
    observed, and [partial] otherwise; the evidence is the list of steps
    the agent named. *)
Theorem done_ends_run
        (j : nat) (st : LoopState) (why : string) (evidenceSteps : list number)
        (Hdecides : decides config world j st (Done why evidenceSteps)) :
  let hintsValid := match successHints config with
                    | Some hints => checkSuccessHints (observed (world j)) hints
                    | None => true
                    end in
  runAgentLoop config world
  = Ok {| res_steps := (steps st ++ [mkStep (world j) j (observed (world j))
                                       (Done why evidenceSteps) doneResult])%list;
          res_finalStatus := if hintsValid then success else partial;
          res_reason := if hintsValid then why
                        else "Agent declared done but success hints not fully satisfied";
          res_completionEvidence :=
            map (fun s => "step:" ++ Number_toString s) evidenceSteps |}.
Proof.
  destruct Hdecides as (Hafter & Hj & Htime & (pageKey & Hkey) & Hdecision).
  cbv zeta.
  erewrite (run_breaks j st _ (conj Hafter Hj)).
  2:{ unfold iteration. rewrite Htime, Hkey, Hdecision. reflexivity. }
  rewrite finish_not_fail; cbn; [reflexivity|].
  destruct (match successHints config with Some _ => _ | None => _ end); discriminate.
Qed.

(** *** Invariants of the states the loop goes through *)

Lemma after_numbered (k : nat) :
  map i (steps (fst (after config world k)))
  = seq 0 (length (steps (fst (after config world k)))).
Proof.
  induction k as [|k IH]; [reflexivity|].
  rewrite after_S. destruct (after config world k) as [st [| |e]] eqn:E; cbn [fst] in *;
    try exact IH.
  destruct (after_continue _ _ _ _ E) as (Hlen & _).
  destruct (iteration config (world k) k st) as [st' c] eqn:Hit. cbn [fst].
  destruct (iteration_record _ _ _ _ _ _ Hit) as ([Hs | (step & key & Hs & Hi & _)] & _).
  - now rewrite Hs.
  - rewrite Hs, map_app, length_app, IH. cbn [map length].
    rewrite Nat.add_1_r, seq_S, Hlen, Hi. reflexivity.
Qed.

Lemma after_success (k : nat) :
  finalStatus (fst (after config world k)) = success ->
  (exists hints, successHints config = Some hints
                 /\ reason (fst (after config world k)) = "Success hints satisfied")
  \/ (exists before step why evidenceSteps,
        steps (fst (after config world k)) = (before ++ [step])%list
        /\ action step = Done why evidenceSteps
        /\ reason (fst (after config world k)) = why).
Proof.
  induction k as [|k IH]; [discriminate|].
  rewrite after_S. destruct (after config world k) as [st [| |e]] eqn:E; cbn [fst] in *;
    try exact IH.
  destruct (after_continue _ _ _ _ E) as (_ & Hstatus & _).
  destruct (iteration config (world k) k st) as [st' c] eqn:Hit. cbn [fst].
  intros Hs. destruct (iteration_record _ _ _ _ _ _ Hit) as (_ & Hsucc & _).
  destruct (Hsucc Hs) as [Hold | [Hhints | (step & why & ev & H1 & H2 & H3)]].
  - congruence.
  - now left.
  - right. now exists (steps st), step, why, ev.
Qed.

(** X4: the recorded steps are numbered.  Whatever the world answers, a
    run records at most [maxSteps] steps, and the step at position [n] of
    the result carries the index [n]: indices start at 0 and have no gap
    and no repeat. *)
Theorem recorded_steps_are_numbered (r : AgentLoopResult)
        (Hrun : runAgentLoop config world = Ok r) :
  (length (res_steps r) <= maxSteps config)%nat
  /\ map i (res_steps r) = seq 0 (length (res_steps r)).
Proof.
  unfold runAgentLoop in Hrun.
  pose proof (after_length config world (maxSteps config)) as Hlen.
  pose proof (after_numbered (maxSteps config)) as Hnum.
  destruct (after config world (maxSteps config)) as [st [| |e]]; cbn [fst] in *;
    try discriminate; inversion Hrun; subst r;
    unfold finish; destruct (_ && _); cbn; auto.
Qed.

(** X5: success is never the loop's own verdict.  A run ends with status
    [success] only if success hints are configured and were found
    satisfied after a step, or if the last recorded step is the agent's
    [done], whose reason is then the reason of the run. *)
Theorem success_needs_done_or_hints (r : AgentLoopResult)
        (Hrun : runAgentLoop config world = Ok r)
        (Hsuccess : res_finalStatus r = success) :
  (exists hints, successHints config = Some hints
                 /\ res_reason r = "Success hints satisfied")
  \/ (exists before step why evidenceSteps,
        res_steps r = (before ++ [step])%list
        /\ action step = Done why evidenceSteps
        /\ res_reason r = why).
Proof.
  unfold runAgentLoop in Hrun.
  pose proof (after_success (maxSteps config)) as Hinv.
  destruct (after config world (maxSteps config)) as [st [| |e]]; cbn [fst] in *;
    try discriminate; inversion Hrun; subst r; clear Hrun;
    unfold finish in *; destruct (finalStatus st) eqn:Est;
    rewrite ?andb_false_r in *; cbn in Hsuccess |- *;
    try discriminate; try (destruct (_ <=? _)%nat; discriminate);
    apply Hinv; reflexivity.
Qed.

(** X6: an invalid page URL escapes the loop.  [getPageKey] is called
    outside both [try] blocks: if [new URL] rejects the URL of the page
    observed at an iteration the loop reaches with time left, its
    [TypeError] escapes [runAgentLoop], which then returns no result. *)
Theorem invalid_page_url_escapes
        (j : nat) (st : LoopState)
        (Hreach : reaches config world j st)
        (Htime : timeLeft config (world j))
        (Hurl : URL_parse (snap_url (observed (world j))) = None) :
  runAgentLoop config world = Throw InvalidURL.
Proof.
  destruct Hreach as (Hafter & Hj).
  assert (Hit : iteration config (world j) j st = (st, Raise InvalidURL)).
  { unfold iteration. unfold timeLeft in Htime. rewrite Htime.
    unfold getPageKey, URL_pathname. rewrite Hurl. reflexivity. }
  assert (HS : after config world (S j) = (st, Raise InvalidURL)).
  { rewrite after_S, Hafter. exact Hit. }
  unfold runAgentLoop.
  rewrite (after_stopped config world (S j) (maxSteps config) st _ HS); [reflexivity| |lia].
  discriminate.
Qed.

(** X7: the step budget.  If no iteration breaks, the run records exactly
    [maxSteps] steps and ends with status [partial] and the reason
    "Step budget exhausted (maxSteps steps)". *)
Theorem unbroken_run_exhausts_step_budget (st : LoopState)
        (Hunbroken : after config world (maxSteps config) = (st, Continue)) :
  length (steps st) = maxSteps config
  /\ runAgentLoop config world
     = Ok {| res_steps := steps st;
             res_finalStatus := partial;
             res_reason := "Step budget exhausted (" ++ of_nat (maxSteps config) ++ " steps)";
             res_completionEvidence := [] |}.
Proof.
  destruct (after_continue _ _ _ _ Hunbroken) as (Hlen & Hstatus & _ & Hev).
  split; [exact Hlen|].
  unfold runAgentLoop. rewrite Hunbroken. unfold finish.
  rewrite Hlen, Nat.leb_refl, Hstatus, Hev. reflexivity.
Qed.

Lemma updateHelpLadder_within (l : HelpLadderState) (s : PageSnapshot) (n : Z) :
  ladderWithin l n -> ladderWithin (updateHelpLadder l s) n.
Proof.
  intros (H1 & H2 & H3). unfold ladderWithin.
  destruct (updateHelpLadder_fields l s) as (E & _). rewrite E, updateHelpLadder_phase.
  destruct (_ && _ && _) eqn:C2.
  - apply andb_true_iff in C2. destruct C2 as [C2 _].
    apply andb_true_iff in C2. destruct C2 as [C2 _].
    apply Z.leb_le in C2. repeat split; lia.
  - destruct ((6 <=? stepsWithoutProgress l)%Z && hasSearchBox s) eqn:C1.
    + apply andb_true_iff in C1. destruct C1 as [C1 _].
      apply Z.leb_le in C1. repeat split; lia.
    + repeat split; assumption.
Qed.

Lemma ladderWithin_more (l : HelpLadderState) (n m : Z) :
  (n <= m)%Z -> ladderWithin l n -> ladderWithin l m.
Proof. intros Hle (H1 & H2 & H3). repeat split; lia. Qed.

Lemma updateProgress_within (l : HelpLadderState) (p : ProgressLevel) (n : Z) :
  (0 <= n)%Z -> ladderWithin l n -> ladderWithin (updateProgress l p) (n + 1).
Proof.
  intros Hn (H1 & H2 & H3). unfold ladderWithin.
  destruct (updateProgress_fields l p) as (E0 & E1 & _). rewrite E0, E1.
  repeat split; try lia. destruct p; unfold nextStepsWithoutProgress; lia.
Qed.

Lemma after_within (k : nat) :
  ladderWithin (ladderState (fst (after config world k)))
               (Z.of_nat (length (steps (fst (after config world k))))).
Proof.
  induction k as [|k IH].
  { unfold ladderWithin. cbn [after fst initialState ladderState steps length Z.of_nat
                               stepsWithoutProgress phase]. repeat split; lia. }
  rewrite after_S. destruct (after config world k) as [st [| |e]]; cbn [fst] in *;
    try exact IH.
  destruct (iteration config (world k) k st) as [st' c] eqn:Hit. cbn [fst].
  destruct (iteration_cases _ _ _ _ _ _ Hit)
    as [(Hs & _ & [Hl | Hl]) | [(step & Hs & _ & _ & Hl) | (step & Hs & _ & Hl)]];
    rewrite Hs, Hl; rewrite ?length_app; cbn [length];
    rewrite ?Nat2Z.inj_add; cbn [Z.of_nat Pos.of_succ_nat];
    auto using updateHelpLadder_within.
  - eapply ladderWithin_more; [|apply updateHelpLadder_within; exact IH]. lia.
  - apply updateProgress_within; [lia|]. now apply updateHelpLadder_within.
Qed.

(** X8: the ladder needs steps.  After any number of iterations the
    counter [stepsWithoutProgress] is at most the number of recorded
    steps; the phase is 1 or 2 only once 6 steps are recorded, and 2 only
    once 10 are.  So the ceiling of 14 steps without progress cannot be
    met in a run that has recorded fewer than 14 steps. *)
Theorem ladder_needs_recorded_steps (k : nat) :
  let st := fst (after config world k) in
  let n := Z.of_nat (length (steps st)) in
  (stepsWithoutProgress (ladderState st) <= n <= Z.of_nat k)%Z
  /\ (1 <= phase (ladderState st) -> 6 <= n)%Z
  /\ (phase (ladderState st) = 2%Z -> 10 <= n)%Z
  /\ ((14 <=? stepsWithoutProgress (ladderState st))%Z = true -> (14 <= k)%nat).
Proof.
  cbv zeta. destruct (after_within k) as (H1 & H2 & H3).
  pose proof (after_length config world k) as Hk.
  repeat split; try assumption; lia.
Qed.

Lemma emptyHints_hold (hints : SuccessHints) (snapshot : PageSnapshot) :
  emptyHints hints -> checkSuccessHints snapshot hints = true.
Proof.
  intros (H1 & H2). unfold checkSuccessHints. now rewrite H1, H2.
Qed.

(** X9: empty success hints.  Hints that name no text and no URL fragment
    hold on every page.  Since the loop checks any configured hints after
    each executed step, a run configured with such hints ends with
    [success], "Success hints satisfied", right after its first executed
    step, whatever that step did. *)
Theorem empty_hints_end_run_after_first_step
        (hints : SuccessHints) (decided : AgentAction)
        (Hconfigured : successHints config = Some hints)
        (Hempty : emptyHints hints)
        (Hdecides : decides config world 0 initialState decided)
        (Hnotdone : isDone decided = false)
        (Hsafe : isDestructiveAction decided (goal config) = false) :
  (forall snapshot, checkSuccessHints snapshot hints = true)
  /\ exists step,
       action step = decided
       /\ runAgentLoop config world
          = Ok {| res_steps := [step];
                  res_finalStatus := success;
                  res_reason := "Success hints satisfied";
                  res_completionEvidence := ["step:0"] |}.
Proof.
  split; [intros snapshot; now apply emptyHints_hold|].
  destruct Hdecides as (Hafter & Hj & Htime & (pageKey & Hkey) & Hdecision).
  assert (Hit : exists result,
             iteration config (world 0) 0 initialState
             = (withOutcome
                  {| steps := [mkStep (world 0) 0 (observed (world 0)) decided result];
                     ladderState := updateProgress
                                      (updateHelpLadder (ladderState initialState)
                                         (observed (world 0)))
                                      (progress result);
                     visitedPages := visit [] pageKey;
                     previousState := Some {| prev_url := snap_url (observed (world 0));
                                              prev_title := snap_title (observed (world 0));
                                              prev_pageKey := pageKey |};
                     finalStatus := fail; reason := "Unknown"; completionEvidence := [] |}
                  success "Success hints satisfied" ["step:0"], Break)).
  { unfold iteration. rewrite Htime, Hkey, Hdecision.
    destruct decided; try discriminate; rewrite Hsafe;
      match goal with
      | |- context [executeAction ?e ?a ?s ?p] => destruct (executeAction e a s p) as [r|err]
      end;
      eexists;
      match goal with
      | |- context [progress ?r] => destruct (progress r) eqn:Eprog
      end; cbn; rewrite Hconfigured, (emptyHints_hold hints _ Hempty); cbn;
      rewrite ?Eprog; reflexivity. }
  destruct Hit as (result & Hit).
  eexists. split; [|rewrite (run_breaks 0 initialState _ (conj Hafter Hj) Hit);
                    rewrite finish_not_fail; [reflexivity | discriminate]].
  reflexivity.
Qed.

End Extras.

Lemma lower_char_idempotent (c : ascii) : lower_char (lower_char c) = lower_char c.
Proof.
  destruct c as [[] [] [] [] [] [] [] []]; reflexivity.
Qed.

Lemma toLowerCase_idempotent (s : string) : toLowerCase (toLowerCase s) = toLowerCase s.
Proof.
  induction s as [|c s IH]; [reflexivity|].
  cbn [toLowerCase]. now rewrite lower_char_idempotent, IH.
Qed.

(** X10: the destructive check.  It ignores the case of both the target and
    the goal; it spares every click whose target text, case aside, is the
    goal itself; and it never flags an action that is not a click. *)
Theorem destructive_check_ignores_case_and_spares_the_goal (target goal : string) :
  isDestructiveAction (Click target) goal
  = isDestructiveAction (Click (toLowerCase target)) (toLowerCase goal)
  /\ (toLowerCase goal = toLowerCase target ->
      isDestructiveAction (Click target) goal = false)
  /\ (forall action, typeName action <> "click" ->
                     isDestructiveAction action goal = false).
Proof.
  split; [|split].
  - cbn [isDestructiveAction]. now rewrite !toLowerCase_idempotent.
  - intros Hg. cbn [isDestructiveAction]. rewrite Hg.
    induction DESTRUCTIVE_PATTERNS as [|p ps IH]; [reflexivity|].
    cbn [existsb]. rewrite IH. now destruct (JSRegExp.test p (toLowerCase target)).
  - intros action Hn. destruct action; try reflexivity. now contradiction Hn.
Qed.

End LoopExtras.

Module LoopExtraExamples.
Import JSString JSValue AgentLoop Runs Outcomes Episodes LoopExtras.

Lemma decision_error_ends_run_with_fail_witness :
  let P := Reference.platform in
  runAgentLoop (Scenario.browse 5) (fun _ => mute (Scenario.page false false))
  = Ok {| res_steps := [];
          res_finalStatus := fail;
          res_reason := "Decision error: No JSON found in response: I cannot decide.";
          res_completionEvidence := [] |}.
Proof.
  intros P.
  refine (decision_error_ends_run_with_fail (P := P) (Scenario.browse 5)
            (fun _ => mute (Scenario.page false false)) 0 initialState noJson _ _ _ _).
  - split; [reflexivity | cbn; lia].
  - reflexivity.
  - eexists. reflexivity.
  - reflexivity.
Defined.

Lemma time_budget_ends_run_witness :
  let P := Reference.platform in
  let st := fst (after (Scenario.browse 5) scrollThenLate 1) in
  length (steps st) = 1%nat
  /\ runAgentLoop (Scenario.browse 5) scrollThenLate
     = Ok {| res_steps := steps st;
             res_finalStatus := partial;
             res_reason := "Time budget exhausted (6 minutes)";
             res_completionEvidence := [] |}.
Proof.
  intros P st. split; [reflexivity|].
  refine (time_budget_ends_run (P := P) (Scenario.browse 5) scrollThenLate 1 st _ _).
  - split; [vm_compute; reflexivity | cbn; lia].
  - reflexivity.
Defined.

(** The budget of [brief] is 4140.000000000001 ms: at 4140 ms the loop
    goes on to the step budget, at 4141 ms it stops. *)
Lemma time_budget_is_a_product_of_doubles :
  let P := Reference.platform in
  Qle_bool (timeoutMs brief) (inject_Z 4140) = false
  /\ Qle_bool (maxMinutes brief * 60 * 1000)%Q (inject_Z 4140) = true
  /\ match runAgentLoop brief (scrollThenAt 4140) with
     | Ok r => length (res_steps r) = 5%nat /\ res_finalStatus r = partial
     | Throw _ => False
     end
  /\ match runAgentLoop brief (scrollThenAt 4141) with
     | Ok r => length (res_steps r) = 1%nat
               /\ res_reason r = "Time budget exhausted (0.069 minutes)"
     | Throw _ => False
     end.
Proof. vm_compute. repeat split. Qed.

Lemma done_ends_run_witness :
  let P := Reference.platform in
  let env := Scenario.quiet (Done "found it" [of_Z 0]) (Scenario.page false false) in
  runAgentLoop (Scenario.browse 5) (fun _ => env)
  = Ok {| res_steps := [mkStep env 0 (Scenario.page false false)
                          (Done "found it" [of_Z 0]) doneResult];
          res_finalStatus := success;
          res_reason := "found it";
          res_completionEvidence := ["step:0"] |}.
Proof.
  intros P env.
  refine (done_ends_run (P := P) (Scenario.browse 5) (fun _ => env) 0 initialState
            "found it" [of_Z 0] _).
  repeat split; first [cbn; lia | eexists; reflexivity | vm_compute; reflexivity].
Defined.

Lemma recorded_steps_are_numbered_witness :
  let P := Reference.platform in
  let world := fun _ : nat => Scenario.quiet (Scroll down) (Scenario.page false false) in
  let r := finish (Scenario.browse 3) (fst (after (Scenario.browse 3) world 3)) in
  (length (res_steps r) <= 3)%nat
  /\ map i (res_steps r) = seq 0 (length (res_steps r)).
Proof.
  intros P world r.
  apply (recorded_steps_are_numbered (P := P) (Scenario.browse 3) world r).
  vm_compute. reflexivity.
Defined.

Lemma success_needs_done_or_hints_witness :
  let P := Reference.platform in
  let world := fun _ : nat =>
                 Scenario.quiet (Done "found it" []) (Scenario.page false false) in
  let r := finish (Scenario.browse 5) (fst (after (Scenario.browse 5) world 5)) in
  (exists hints, successHints (Scenario.browse 5) = Some hints
                 /\ res_reason r = "Success hints satisfied")
  \/ (exists before step why evidenceSteps,
        res_steps r = (before ++ [step])%list
        /\ action step = Done why evidenceSteps
        /\ res_reason r = why).
Proof.
  intros P world r.
  apply (success_needs_done_or_hints (P := P) (Scenario.browse 5) world r).
  - vm_compute. reflexivity.
  - vm_compute. reflexivity.
Defined.

Lemma unbroken_run_exhausts_step_budget_witness :
  let P := Reference.platform in
  let world := fun _ : nat => Scenario.quiet (Scroll down) (Scenario.page false false) in
  let st := fst (after (Scenario.browse 3) world 3) in
  length (steps st) = 3%nat
  /\ runAgentLoop (Scenario.browse 3) world
     = Ok {| res_steps := steps st;
             res_finalStatus := partial;
             res_reason := "Step budget exhausted (3 steps)";
             res_completionEvidence := [] |}.
Proof.
  intros P world st.
  apply (unbroken_run_exhausts_step_budget (P := P) (Scenario.browse 3) world st).
  vm_compute. reflexivity.
Defined.

Lemma invalid_page_url_escapes_witness :
  let P := Reference.platform in
  runAgentLoop (Scenario.browse 5) (fun _ => Scenario.quiet (Scroll down) nowhere)
  = Throw InvalidURL.
Proof.
  intros P.
  refine (invalid_page_url_escapes (P := P) (Scenario.browse 5)
            (fun _ => Scenario.quiet (Scroll down) nowhere) 0 initialState _ _ _).
  - split; [reflexivity | cbn; lia].
  - vm_compute. reflexivity.
  - reflexivity.
Defined.

Lemma empty_hints_end_run_after_first_step_witness :
  let P := Reference.platform in
  let world := fun _ : nat => Scenario.quiet (Scroll down) (Scenario.page false false) in
  (forall snapshot, checkSuccessHints snapshot noHints = true)
  /\ exists step,
       action step = Scroll down
       /\ runAgentLoop (hinted 5) world
          = Ok {| res_steps := [step];
                  res_finalStatus := success;
                  res_reason := "Success hints satisfied";
                  res_completionEvidence := ["step:0"] |}.
Proof.
  intros P world.
  refine (empty_hints_end_run_after_first_step (P := P) (hinted 5) world
            noHints (Scroll down) eq_refl _ _ eq_refl eq_refl).
  - split; reflexivity.
  - repeat split; first [cbn; lia | eexists; reflexivity | vm_compute; reflexivity].
Defined.

End LoopExtraExamples.

Module ResponseFacts.
Import JSString JSValue Normalizer Shapes Responses NormalizerFacts.

Lemma nonempty_truthy (s : string) : s <> "" -> truthy (VStr s) = true.
Proof. intros H. cbn. apply negb_true_iff. now apply String.eqb_neq. Qed.


Section Facts.
Context {P : Platform}.


Lemma plainFields_object (o : obj) :
  forallb (fun kv => convertible (snd kv)) o = true -> plainFields (VObj o).
Proof.
  intros H key. cbn [prop]. induction o as [|[k v] o IH]; [reflexivity|].
  cbn [get]. cbn [forallb snd] in H. apply andb_true_iff in H. destruct H as (Hv & Ho).
  destruct (String.eqb k key); [exact Hv | now apply IH].
Qed.



Lemma dispatch_type (action : value) (a : AgentAction) :
  dispatch action = Ok a -> prop action "type" = VStr (AgentLoop.typeName a).
Proof.
  unfold dispatch.
  destruct (prop action "type") as [| | | |type| |];
    try (destruct (negb (convertible _)); discriminate).
  repeat match goal with
         | |- context [String.eqb type ?lit] =>
             destruct (String.eqb_spec type lit) as [->|?]
         end;
    repeat match goal with
           | |- context [if ?c then Throw _ else _] => destruct c
           end;
    intros H; inversion H; reflexivity.
Qed.

End Facts.
End ResponseFacts.

Module TextFacts.
Import JSString JSValue Normalizer Shapes Responses NormalizerFacts ResponseFacts.

(** *** Texts *)

Lemma all_space_lacks (c : ascii) (s : string) :
  is_space c = false -> all_space s = true -> lacks c s = true.
Proof.
  intros Hc. induction s as [|c' s IH]; [reflexivity|]. cbn [all_space lacks].
  intros H. apply andb_true_iff in H. destruct H as (H1 & H2).
  rewrite (IH H2), andb_true_r. apply negb_true_iff, Ascii.eqb_neq.
  intros ->. congruence.
Qed.

Lemma upto_last_close_lacks (s : string) : lacks "}" s = true -> upto_last_close s = None.
Proof.
  induction s as [|c s IH]; [reflexivity|]. cbn [lacks upto_last_close].
  intros H. apply andb_true_iff in H. destruct H as (H1 & H2).
  rewrite (IH H2). apply negb_true_iff in H1. now rewrite H1.
Qed.

Lemma upto_last_close_app (mid post : string) :
  lacks "}" post = true -> upto_last_close (mid ++ "}" ++ post) = Some (mid ++ "}").
Proof.
  intros Hpost. induction mid as [|c mid IH].
  - cbn. now rewrite (upto_last_close_lacks _ Hpost).
  - cbn [append upto_last_close] in *. now rewrite IH.
Qed.

Lemma match_braces_app (pre mid post : string) :
  lacks "{" pre = true -> lacks "}" post = true ->
  match_braces (pre ++ "{" ++ mid ++ "}" ++ post) = Some ("{" ++ mid ++ "}").
Proof.
  intros Hpre Hpost. induction pre as [|c pre IH].
  - cbn [append match_braces]. change (Ascii.eqb "{" "{") with true. cbv iota.
    now rewrite (upto_last_close_app _ _ Hpost).
  - cbn [lacks] in Hpre. apply andb_true_iff in Hpre. destruct Hpre as (H1 & H2).
    cbn [append match_braces]. apply negb_true_iff in H1. rewrite H1. now apply IH.
Qed.

Lemma match_braces_space (s : string) : all_space s = true -> match_braces s = None.
Proof.
  induction s as [|c s IH]; [reflexivity|]. cbn [all_space match_braces].
  intros H. apply andb_true_iff in H. destruct H as (H1 & H2).
  destruct (Ascii.eqb_spec c "{") as [->|_]; [discriminate | now apply IH].
Qed.

Lemma upto_last_close_trimEnd (s : string) :
  upto_last_close (trimEnd s) = upto_last_close s.
Proof.
  induction s as [|c s IH]; [reflexivity|]. cbn [trimEnd].
  destruct (all_space (String c s)) eqn:E.
  - symmetry. apply upto_last_close_lacks. now apply all_space_lacks.
  - cbn [upto_last_close]. now rewrite IH.
Qed.

Lemma match_braces_trimEnd (s : string) : match_braces (trimEnd s) = match_braces s.
Proof.
  induction s as [|c s IH]; [reflexivity|]. cbn [trimEnd].
  destruct (all_space (String c s)) eqn:E.
  - symmetry. now apply match_braces_space.
  - cbn [match_braces]. now rewrite upto_last_close_trimEnd, IH.
Qed.

Lemma match_braces_trimStart (s : string) : match_braces (trimStart s) = match_braces s.
Proof.
  induction s as [|c s IH]; [reflexivity|]. cbn [trimStart].
  destruct (is_space c) eqn:E; [|reflexivity].
  rewrite IH. cbn [match_braces].
  destruct (Ascii.eqb_spec c "{") as [->|_]; [discriminate | reflexivity].
Qed.

Lemma match_braces_trim (s : string) : match_braces (trim s) = match_braces s.
Proof. unfold trim. now rewrite match_braces_trimEnd, match_braces_trimStart. Qed.

Lemma lacks_app (c : ascii) (s t : string) :
  lacks c (s ++ t) = lacks c s && lacks c t.
Proof.
  induction s as [|c' s IH]; [reflexivity|]. cbn [append lacks].
  now rewrite IH, andb_assoc.
Qed.

(** Without a backtick in the text there is no fence to strip. *)
Lemma removeAll_lacks (lit : string) (s : string) :
  lacks "`" s = true -> removeAll (String "`" lit) s = s.
Proof.
  unfold removeAll. induction s as [|c s IH]; [reflexivity|].
  cbn [lacks]. intros H. apply andb_true_iff in H. destruct H as (H1 & H2).
  cbn [remove_lit_spaces startsWith]. apply negb_true_iff in H1.
  rewrite Ascii.eqb_sym, H1. cbn [andb]. now rewrite (IH H2).
Qed.

Lemma trim_blank (s : string) : trim s = "" -> match_braces s = None.
Proof. intros H. rewrite <- match_braces_trim, H. reflexivity. Qed.

Section Facts.
Context {P : Platform}.

Lemma normalize_not_EmptyResponse (parsed : value) : normalize parsed <> Throw EmptyResponse.
Proof.
  unfold normalize, resolve.
  destruct (negb (truthy (unwrapNested _))); cbn [rbind]; [discriminate|].
  destruct (negb (truthy (prop _ "type"))); cbn [rbind]; [discriminate|].
  unfold dispatch.
  destruct (prop _ "type");
    repeat match goal with
           | |- context [if ?c then _ else _] => destruct c
           end; discriminate.
Qed.

End Facts.
End TextFacts.

Module ResponseExtras.
Import JSString JSValue Normalizer Shapes Responses NormalizerFacts ResponseFacts
       TextFacts.

Section Extras.
Context {P : Platform}.

Lemma unwrapNested_truthy (action : value) : truthy (unwrapNested action) = truthy action.
Proof.
  unfold unwrapNested.
  destruct (truthy action) eqn:E; cbn [andb]; [|exact E].
  destruct (typeof_object action && _); [|exact E].
  destruct (nullish _ _); try exact E.
  destruct (truthy (get _ "thinking")); reflexivity.
Qed.


(** X13: prose around the object is ignored, and the match is greedy.  In a
    text without code fences, whatever stands before the first opening
    brace and after the last closing brace is dropped, and everything in
    between, further braces included, is what [JSON.parse] receives. *)
Theorem prose_around_the_object_is_ignored
        (pre mid post : string)
        (Hpre : lacks "{" pre = true)
        (Hpost : lacks "}" post = true)
        (Hplain : lacks "`" (pre ++ "{" ++ mid ++ "}" ++ post) = true) :
  parseActionResponse (pre ++ "{" ++ mid ++ "}" ++ post)
  = match JSON_parse ("{" ++ mid ++ "}") with
    | Throw e => Throw (InvalidJson (substring 0 200 ("{" ++ mid ++ "}")) e)
    | Ok parsed => normalize parsed
    end.
Proof.
  set (text := pre ++ "{" ++ mid ++ "}" ++ post) in *.
  pose proof (match_braces_app pre mid post Hpre Hpost) as Hm. fold text in Hm.
  unfold parseActionResponse.
  assert (H1 : String.eqb text "" = false).
  { destruct (String.eqb_spec text "") as [E|_]; [|reflexivity].
    rewrite E in Hm. discriminate. }
  assert (H2 : String.eqb (trim text) "" = false).
  { destruct (String.eqb_spec (trim text) "") as [E|_]; [|reflexivity].
    rewrite (trim_blank _ E) in Hm. discriminate. }
  rewrite H1, H2. cbn [orb].
  change "```json" with (String "`" "``json"). change "```" with (String "`" "``").
  rewrite (removeAll_lacks _ _ Hplain), (removeAll_lacks _ _ Hplain).
  rewrite match_braces_trim, Hm. reflexivity.
Qed.

(** X14: a blank text is the only empty response.  [parseActionResponse]
    throws "Empty response" exactly when the text is empty or white space;
    no later stage reports that error. *)
Theorem empty_response_means_blank_text (text : string) :
  parseActionResponse text = Throw EmptyResponse <-> trim text = "".
Proof.
  unfold parseActionResponse. split.
  - destruct (String.eqb_spec text "") as [->|_]; [reflexivity|].
    destruct (String.eqb_spec (trim text) "") as [E|_]; [intros _; exact E|].
    cbn [orb]. destruct (match_braces _); [|discriminate].
    destruct (JSON_parse _); [|discriminate].
    intros H. now apply normalize_not_EmptyResponse in H.
  - intros E. rewrite E. cbn. now rewrite orb_true_r.
Qed.

(** X15: the action type decides.  A returned action has the type the
    normalised payload names.  "Unknown action type" is thrown exactly
    when that type is not one of the nine strings of the [switch] and can
    be written into the message; the comparison is exact, so a type in
    another letter case is unknown.  A type that cannot be converted to a
    string (an object with a [toString] key of its own) makes the template
    literal of the message throw a [TypeError] instead. *)
Theorem dispatch_follows_the_type (action : value) :
  (forall a, dispatch action = Ok a -> prop action "type" = VStr (AgentLoop.typeName a))
  /\ (forall ty,
        dispatch action = Throw (UnknownActionType ty)
        <-> ty = prop action "type"
            /\ convertible ty = true
            /\ forall t, ty = VStr t -> ~ In t actionTypes)
  /\ (isString (prop action "type") = false ->
      convertible (prop action "type") = false ->
      dispatch action = Throw NotPrimitive).
Proof.
  split; [intros a; apply dispatch_type|].
  split.
  2:{ unfold dispatch. destruct (prop action "type"); try discriminate;
        intros _ Hc; rewrite Hc; reflexivity. }
  intros ty. unfold dispatch.
  destruct (prop action "type") as [| | | |type|xs|o] eqn:Etype;
    try (split; [intros H; inversion H; repeat split; discriminate
                | intros (-> & _); reflexivity]).
  - unfold actionTypes.
    repeat match goal with
           | |- context [String.eqb type ?lit] =>
               destruct (String.eqb_spec type lit) as [->|?]
           end;
      try (split;
           [ repeat match goal with
                    | |- context [if ?c then Throw _ else _] => destruct c
                    end; discriminate
           | intros (-> & _ & Hnot); exfalso; apply (Hnot _ eq_refl); cbn; tauto ]).
    split.
    + intros H. inversion H. split; [reflexivity|]. split; [reflexivity|].
      intros t Ht. inversion Ht; subst t. cbn. intuition congruence.
    + intros (-> & _). reflexivity.
  - destruct (convertible (VArr xs)) eqn:Ec; cbn [negb]; split.
    + intros H. inversion H. subst ty. repeat split; [exact Ec | discriminate].
    + intros (-> & _). reflexivity.
    + discriminate.
    + intros (-> & Hc & _). congruence.
  - destruct (convertible (VObj o)) eqn:Ec; cbn [negb]; split.
    + intros H. inversion H. subst ty. repeat split; [exact Ec | discriminate].
    + intros (-> & _). reflexivity.
    + discriminate.
    + intros (-> & Hc & _). congruence.
Qed.

(** X16: five action types are rejected by a conversion only.  Once the
    payload's type is scroll, back, wait, openHelp or done, the only error
    [parseActionResponse] can still throw is the [TypeError] of
    [Number(action.ms)], of [String(reason)] or of
    [evidenceSteps.map(Number)], for a wait or a done.  A scroll, a back
    and an openHelp are never rejected, and neither is a wait or a done
    whose fields can all be converted: missing or ill-typed fields are
    replaced by defaults, not reported. *)
Theorem lenient_types_fail_only_in_conversion
        (action : value) (t : string)
        (Htype : prop action "type" = VStr t)
        (Hlenient : In t lenientTypes) :
  (forall e, dispatch action = Throw e ->
             e = NotPrimitive /\ (t = "wait" \/ t = "done"))
  /\ (plainFields action ->
      exists a, dispatch action = Ok a /\ AgentLoop.typeName a = t)
  /\ (t = "wait" -> convertible (prop action "ms") = false ->
      dispatch action = Throw NotPrimitive).
Proof.
  unfold dispatch. rewrite Htype. cbn in Hlenient.
  destruct Hlenient as [<-|[<-|[<-|[<-|[<-|[]]]]]]; cbn [String.eqb Ascii.eqb Bool.eqb].
  - repeat split; try discriminate. intros _. eexists. split; reflexivity.
  - repeat split; try discriminate. intros _. eexists. split; reflexivity.
  - destruct (convertible (prop action "ms")) eqn:Ec; cbn [negb]; repeat split;
      try discriminate; try (intros; congruence); try (now left);
      try (intros _; eexists; split; reflexivity);
      try (intros Hplain; rewrite (Hplain "ms") in Ec; discriminate).
  - repeat split; try discriminate. intros _. eexists. split; reflexivity.
  - match goal with
    | |- context [if negb ?c then _ else _] => destruct c eqn:Ec
    end; cbn [negb]; repeat split; try discriminate; try (intros; congruence);
      try (now right).
    + intros _. eexists. split; reflexivity.
    + intros Hplain. exfalso.
      apply andb_false_iff in Ec. destruct Ec as [Ec|Ec].
      * unfold or_else in Ec.
        destruct (truthy (getProperty action ["reason"; "message"; "explanation"]));
          [|discriminate].
        unfold getProperty in Ec.
        repeat match type of Ec with
               | context [if ?c then _ else _] => destruct c
               end; try discriminate;
          match type of Ec with
          | convertible (prop action ?k) = false => rewrite (Hplain k) in Ec
          end; discriminate.
      * pose proof (Hplain "evidenceSteps") as He.
        destruct (prop action "evidenceSteps"); try discriminate.
        cbn [convertible] in He. congruence.
Qed.

(** X17: "No action" means a falsy payload that is not a string.  The
    payload is [parsed.action ?? parsed.command]; [resolve] throws "No
    action in response" exactly when it is undefined, null, false, zero or
    NaN.  An empty string is not among them: it is first turned into an
    object. *)
Theorem no_action_means_a_falsy_payload (parsed : value) :
  resolve parsed = Throw NoAction
  <-> truthy (payload parsed) = false /\ isString (payload parsed) = false.
Proof.
  unfold resolve. fold (payload parsed).
  rewrite unwrapNested_truthy.
  destruct (payload parsed) as [| |b|n|s|xs|o] eqn:E; cbn [truthy isString negb].
  - split; [split; reflexivity | reflexivity].
  - split; [split; reflexivity | reflexivity].
  - destruct b; cbn [negb].
    + destruct (negb (truthy _)); split; try discriminate; intros (H & _); discriminate.
    + split; [split; reflexivity | reflexivity].
  - destruct (number_truthy n); cbn [negb].
    + destruct (negb (truthy _)); split; try discriminate; intros (H & _); discriminate.
    + split; [split; reflexivity | reflexivity].
  - unfold fromFlat. cbn [truthy negb].
    destruct (negb (truthy _)); split; try discriminate; intros (_ & H); discriminate.
  - destruct (negb (truthy _)); split; try discriminate; intros (H & _); discriminate.
  - destruct (negb (truthy _)); split; try discriminate; intros (H & _); discriminate.
Qed.

End Extras.
End ResponseExtras.

Module ResponseExtraExamples.
Import JSString JSValue Normalizer Shapes Responses Chat ResponseExtras.


Lemma prose_around_the_object_is_ignored_witness :
  parseActionResponse (P := Reference.platform) (before ++ "{" ++ fields ++ "}" ++ behind)
  = Ok Back.
Proof.
  rewrite (prose_around_the_object_is_ignored (P := Reference.platform)
             before fields behind eq_refl eq_refl eq_refl).
  vm_compute. reflexivity.
Defined.

Lemma lenient_types_fail_only_in_conversion_witness :
  exists a,
    dispatch (P := Reference.platform)
             (VObj [("type", VStr "done"); ("reason", VNum (of_Z 3))]) = Ok a
    /\ AgentLoop.typeName a = "done".
Proof.
  destruct (lenient_types_fail_only_in_conversion (P := Reference.platform)
              (VObj [("type", VStr "done"); ("reason", VNum (of_Z 3))]) "done")
    as (_ & Hplain & _).
  - reflexivity.
  - cbn. tauto.
  - apply Hplain, ResponseFacts.plainFields_object. reflexivity.
Defined.

End ResponseExtraExamples.

Module SnapshotFacts.
Import JSString SnapshotBuilder Pages.

(** Induction on a tree whose children are already covered. *)
Lemma A11yNode_induction (Q : A11yNode -> Prop)
      (step : forall role name value disabled focused children,
          Forall Q children -> Q (Node role name value disabled focused children))
      (node : A11yNode) : Q node.
Proof.
  revert node. fix IH 1. intros [role name value disabled focused children].
  apply step. induction children as [|child rest IHrest]; constructor.
  - apply IH.
  - exact IHrest.
Qed.

Lemma of_nat_decoded (n : nat) :
  NilZero.uint_of_string (of_nat n) = Some (Nat.to_uint n).
Proof.
  unfold of_nat. apply NilZero.usu. intros E.
  pose proof (DecimalNat.Unsigned.of_to n) as H. rewrite E in H. cbn in H. subst n.
  discriminate.
Qed.

Lemma of_nat_inj (n m : nat) : of_nat n = of_nat m -> n = m.
Proof.
  intros E. apply DecimalNat.Unsigned.to_uint_inj.
  pose proof (of_nat_decoded n) as Hn. rewrite E, of_nat_decoded in Hn. congruence.
Qed.

Lemma prefix_three (role : string) :
  has INTERACTIVE_ROLES role = true ->
  exists a b c, toLowerCase (substring 0 3 role) = String a (String b (String c "")).
Proof.
  unfold has. intros H. apply existsb_exists in H. destruct H as (r & Hin & Heq).
  apply String.eqb_eq in Heq. subst r. cbn in Hin.
  repeat (destruct Hin as [<-|Hin]; [do 3 eexists; reflexivity|]). destruct Hin.
Qed.

Lemma generateRef_inj (role role' : string) (n m : nat) :
  has INTERACTIVE_ROLES role = true -> has INTERACTIVE_ROLES role' = true ->
  generateRef role n = generateRef role' m -> n = m.
Proof.
  unfold generateRef. cbv zeta. intros H H'.
  destruct (prefix_three _ H) as (a & b & c & ->).
  destruct (prefix_three _ H') as (a' & b' & c' & ->).
  cbn [append]. intros E. inversion E. now apply of_nat_inj.
Qed.

Lemma built_empty : built emptyBuilder.
Proof.
  unfold built, emptyBuilder, MAX_HEADINGS, MAX_NAV_LINKS, MAX_INTERACTIVE_ELEMENTS.
  cbn. repeat split; try lia; try constructor.
  all: destruct k; discriminate.
Qed.

Lemma pushed_within (A : Type) (xs : list A) (x : A) (c : bool) (limit : nat) :
  (length xs <= limit)%nat ->
  (length (if c && (length xs <? limit)%nat then (xs ++ [x])%list else xs) <= limit)%nat.
Proof.
  intros H. destruct c; cbn [andb]; [|exact H].
  destruct (length xs <? limit)%nat eqn:E; [|exact H].
  apply Nat.ltb_lt in E. rewrite length_app. cbn. lia.
Qed.

Ltac kept :=
  unfold built;
  cbn [b_headings b_navLinks b_elements b_hasSearchBox b_hasHelpLink refCounter];
  repeat split; try assumption;
  match goal with
  | Hrefs : forall k el, nth_error _ k = Some el -> _, H : nth_error _ _ = Some _ |- _ =>
      apply Hrefs in H; tauto
  end.

Lemma visitNode_built (role name : string) (value : option string)
      (disabled focused isNavRegion : bool) (b : Builder) :
  built b -> built (visitNode role name value disabled focused isNavRegion b).
Proof.
  intros (Hh & Hn & He & Hne & Hc & Hrefs & Hs & Hl).
  assert (Hh' : (length (if has HEADING_ROLES role && negb (String.eqb name "")
                            && (length (b_headings b) <? MAX_HEADINGS)%nat
                         then (b_headings b ++ [name])%list else b_headings b)
                 <= MAX_HEADINGS)%nat) by (apply pushed_within; exact Hh).
  assert (Hn' : (length (if isNavRegion && String.eqb role "link"
                            && negb (String.eqb name "")
                            && (length (b_navLinks b) <? MAX_NAV_LINKS)%nat
                         then (b_navLinks b ++ [name])%list else b_navLinks b)
                 <= MAX_NAV_LINKS)%nat) by (apply pushed_within; exact Hn).
  assert (Hne' : Forall (fun heading => heading <> "")
                        (if has HEADING_ROLES role && negb (String.eqb name "")
                            && (length (b_headings b) <? MAX_HEADINGS)%nat
                         then (b_headings b ++ [name])%list else b_headings b)).
  { destruct (has HEADING_ROLES role); cbn [andb]; [|exact Hne].
    destruct (String.eqb_spec name "") as [|Hname]; cbn [negb andb]; [exact Hne|].
    destruct (_ <? _)%nat; [|exact Hne].
    apply Forall_app. split; [exact Hne | now repeat constructor]. }
  unfold visitNode.
  destruct (has INTERACTIVE_ROLES role) eqn:Hrole; cbn [andb];
    [|kept].
  destruct (String.eqb_spec name "") as [|Hname]; cbn [negb andb];
    [kept|].
  destruct (length (b_elements b) <? MAX_INTERACTIVE_ELEMENTS)%nat eqn:Hroom;
    [|kept].
  apply Nat.ltb_lt in Hroom.
  unfold built.
  cbn [b_headings b_navLinks b_elements b_hasSearchBox b_hasHelpLink refCounter].
  rewrite length_app, map_app, !existsb_app. cbn [length map existsb].
  repeat split; try assumption.
  - lia.
  - lia.
  - destruct (Nat.lt_ge_cases k (length (b_elements b))) as [Hk|Hk].
    + rewrite nth_error_app1 in H by exact Hk. now apply Hrefs in H.
    + rewrite nth_error_app2 in H by exact Hk.
      destruct (k - length (b_elements b))%nat as [|k'] eqn:Ek;
        [|destruct k'; discriminate].
      cbn in H. inversion H; subst el. cbn [element el_ref el_role].
      f_equal. f_equal. lia.
  - destruct (Nat.lt_ge_cases k (length (b_elements b))) as [Hk|Hk].
    + rewrite nth_error_app1 in H by exact Hk. now apply Hrefs in H.
    + rewrite nth_error_app2 in H by exact Hk.
      destruct (k - length (b_elements b))%nat as [|k']; [|destruct k'; discriminate].
      cbn in H. inversion H; subst el. exact Hrole.
  - destruct (Nat.lt_ge_cases k (length (b_elements b))) as [Hk|Hk].
    + rewrite nth_error_app1 in H by exact Hk. now apply Hrefs in H.
    + rewrite nth_error_app2 in H by exact Hk.
      destruct (k - length (b_elements b))%nat as [|k']; [|destruct k'; discriminate].
      cbn in H. inversion H; subst el. exact Hname.
  - rewrite <- Hs. unfold searchLike. cbn [element el_role el_name].
    destruct (b_hasSearchBox b), (String.eqb role "searchbox"),
      (String.eqb role "textbox"), (JSRegExp.test searchPattern name); reflexivity.
  - rewrite <- Hl. unfold helpLike. cbn [element el_role el_name].
    destruct (b_hasHelpLink b), (String.eqb role "link"),
      (JSRegExp.test helpPattern name); reflexivity.
Qed.

Lemma processNode_built (node : A11yNode) :
  forall inNav b, built b -> built (processNode node inNav b).
Proof.
  induction node as [role name value disabled focused children IH]
    using A11yNode_induction.
  intros inNav b Hb. cbn [processNode].
  set (r := match role with Some r => toLowerCase r | None => "" end).
  set (n := match name with Some n => trim n | None => "" end).
  generalize (visitNode_built r n value disabled focused (inNav || has NAV_ROLES r) b Hb).
  generalize (visitNode r n value disabled focused (inNav || has NAV_ROLES r) b).
  generalize (inNav || has NAV_ROLES r). clear Hb b.
  induction IH as [|child rest Hchild _ IHrest]; intros nav b Hb; [exact Hb|].
  cbn [fold_left]. apply IHrest. now apply Hchild.
Qed.

Lemma find_first {A} (f : A -> bool) (l : list A) (k : nat) (x : A) :
  nth_error l k = Some x -> f x = true ->
  (forall j y, nth_error l j = Some y -> f y = true -> j = k) ->
  find f l = Some x.
Proof.
  revert k. induction l as [|y l IH]; intros k Hk Hx Huniq; [destruct k; discriminate|].
  cbn [find]. destruct (f y) eqn:Ey.
  - pose proof (Huniq 0%nat y eq_refl Ey) as H0. subst k. cbn in Hk. congruence.
  - destruct k as [|k]; [cbn in Hk; congruence|].
    apply (IH k Hk Hx). intros j z Hj Hz.
    specialize (Huniq (S j) z Hj Hz). lia.
Qed.

Lemma find_isFound {A} (f : A -> bool) (l : list A) : isFound (find f l) = existsb f l.
Proof.
  induction l as [|x l IH]; [reflexivity|]. cbn. destruct (f x); [reflexivity | exact IH].
Qed.

End SnapshotFacts.

Module SnapshotExtras.
Import JSString SnapshotBuilder Pages SnapshotFacts.

(** X18: a snapshot is capped and clean.  Whatever the accessibility tree,
    [buildSnapshot] keeps at most 10 headings, 15 navigation links and 50
    interactive elements; no heading is empty, and every element has one
    of the interactive roles and a name that is not empty. *)
Theorem snapshot_is_capped_and_clean (url title : string) (root : A11yNode) :
  let s := buildSnapshot url title root in
  (length (headings s) <= 10)%nat
  /\ (length (navLinks s) <= 15)%nat
  /\ (length (interactiveElements s) <= 50)%nat
  /\ Forall (fun heading => heading <> "") (headings s)
  /\ Forall (fun el => has INTERACTIVE_ROLES (el_role el) = true /\ el_name el <> "")
            (interactiveElements s).
Proof.
  cbn zeta. unfold buildSnapshot.
  cbn [headings navLinks interactiveElements].
  destruct (processNode_built root false emptyBuilder built_empty)
    as (Hh & Hn & He & Hne & _ & Hrefs & _).
  rewrite length_map. repeat split; try assumption.
  apply Forall_forall. intros el Hin. apply in_map_iff in Hin.
  destruct Hin as (full & <- & Hin). apply In_nth_error in Hin. destruct Hin as (k & Hk).
  destruct (Hrefs k full Hk) as (_ & Hrole & Hname). now split.
Qed.

(** X19: refs number the elements, and a ref finds its element.  The
    element at position [k] has the ref made of the first three letters of
    its role, an underscore and [k + 1]; so refs are pairwise distinct, and
    looking up an element's ref, as a click on it does, gives back that
    element even when the ref is part of another element's name. *)
Theorem ref_finds_its_element (url title : string) (root : A11yNode) :
  let s := buildSnapshot url title root in
  (forall k el,
      nth_error (interactiveElements s) k = Some el ->
      el_ref el = generateRef (el_role el) (S k)
      /\ findElementByRef s (el_ref el) = Some el
      /\ locate s (el_ref el) = Some el)
  /\ NoDup (map el_ref (interactiveElements s)).
Proof.
  cbn zeta.
  destruct (processNode_built root false emptyBuilder built_empty)
    as (_ & _ & _ & _ & _ & Hrefs & _).
  assert (Hnum : forall k el,
             nth_error (interactiveElements (buildSnapshot url title root)) k = Some el ->
             el_ref el = generateRef (el_role el) (S k)
             /\ has INTERACTIVE_ROLES (el_role el) = true).
  { unfold buildSnapshot. cbn [interactiveElements]. intros k el Hk.
    rewrite nth_error_map in Hk.
    destruct (nth_error (b_elements _) k) as [full|] eqn:E; [|discriminate].
    inversion Hk; subst el. destruct (Hrefs k full E) as (H1 & H2 & _). now split. }
  assert (Hfind : forall k el,
             nth_error (interactiveElements (buildSnapshot url title root)) k = Some el ->
             findElementByRef (buildSnapshot url title root) (el_ref el) = Some el).
  { intros k el Hk. unfold findElementByRef.
    apply (find_first _ _ k el Hk); [apply String.eqb_refl|].
    intros j other Hj Heq. apply String.eqb_eq in Heq.
    destruct (Hnum _ _ Hk) as (Hr & Hrole). destruct (Hnum _ _ Hj) as (Hr' & Hrole').
    rewrite Hr, Hr' in Heq.
    pose proof (generateRef_inj _ _ _ _ Hrole' Hrole Heq). lia. }
  split.
  - intros k el Hk. destruct (Hnum _ _ Hk) as (Hr & _).
    split; [exact Hr|]. split; [now apply (Hfind k)|].
    unfold locate. now rewrite (Hfind k el Hk).
  - apply NoDup_nth_error. intros j k Hj E.
    rewrite length_map in Hj. rewrite !nth_error_map in E.
    destruct (nth_error _ j) as [a|] eqn:Ea; [|apply nth_error_None in Ea; lia].
    destruct (nth_error _ k) as [b|] eqn:Eb; [|discriminate].
    cbn in E. inversion E as [Eref].
    destruct (Hnum _ _ Ea) as (Hr & Hrole). destruct (Hnum _ _ Eb) as (Hr' & Hrole').
    rewrite Hr, Hr' in Eref.
    pose proof (generateRef_inj _ _ _ _ Hrole Hrole' Eref). lia.
Qed.

(** X20: the flags of a snapshot say what the finders find.
    [hasSearchBox] is true exactly when [findSearchBox] returns an element,
    and [hasHelpLink] exactly when [findHelpLink] does: the help ladder and
    the search and help actions never disagree about a page. *)
Theorem flags_agree_with_the_finders (url title : string) (root : A11yNode) :
  let s := buildSnapshot url title root in
  hasSearchBox s = isFound (findSearchBox s)
  /\ hasHelpLink s = isFound (findHelpLink s).
Proof.
  cbn zeta. unfold findSearchBox, findHelpLink. rewrite !find_isFound.
  unfold buildSnapshot. cbn [hasSearchBox hasHelpLink interactiveElements].
  destruct (processNode_built root false emptyBuilder built_empty)
    as (_ & _ & _ & _ & _ & _ & Hs & Hl).
  split; assumption.
Qed.

End SnapshotExtras.

Module EvaluatorExtras.
Import JSString AgentLoop Evaluator Traces Reports EvaluatorFacts.

(** *** Sorting *)

Lemma insertBySeverity_ranked (x : Finding) (sorted : list Finding) :
  ranked sorted -> ranked (insertBySeverity x sorted).
Proof.
  unfold ranked. induction 1 as [|y rest Hrest IH Hy]; cbn [insertBySeverity].
  - repeat constructor.
  - destruct (severityOrder (severity y) <=? severityOrder (severity x))%nat eqn:E.
    + constructor; [exact IH|].
      apply Nat.leb_le in E.
      rewrite Forall_forall in Hy |- *. intros z Hz.
      apply (Permutation_in _ (insertBySeverity_perm x rest)) in Hz.
      destruct Hz as [<- | Hz]; [exact E | now apply Hy].
    + apply Nat.leb_gt in E. constructor; [now constructor|].
      constructor; [lia|].
      rewrite Forall_forall in Hy |- *. intros z Hz. specialize (Hy z Hz). lia.
Qed.

Lemma sortBySeverity_ranked (findings : list Finding) : ranked (sortBySeverity findings).
Proof.
  unfold sortBySeverity.
  assert (G : forall acc, ranked acc ->
                          ranked (fold_left (fun sorted x => insertBySeverity x sorted)
                                            findings acc)).
  { induction findings as [|x rest IH]; intros acc Hacc; cbn [fold_left]; [exact Hacc|].
    apply IH. now apply insertBySeverity_ranked. }
  apply G. constructor.
Qed.

Lemma firstn_ranked (n : nat) (findings : list Finding) :
  ranked findings -> ranked (firstn n findings).
Proof.
  unfold ranked. intros H. revert n.
  induction H as [|y rest Hrest IH Hy]; intros [|n]; cbn [firstn]; try constructor.
  - apply IH.
  - rewrite Forall_forall in Hy |- *. intros z Hz. apply Hy.
    eapply (In_nth_error) in Hz. destruct Hz as (k & Hk).
    apply nth_error_In with (n := k).
    rewrite nth_error_firstn in Hk. destruct (k <? n)%nat; [exact Hk | discriminate].
Qed.

(** In a ranked list, nothing after a finding is more severe than it. *)
Lemma insertBySeverity_filter (s : Severity) (x : Finding) (sorted : list Finding) :
  ranked sorted ->
  filter (hasSeverity s) (insertBySeverity x sorted)
  = (filter (hasSeverity s) sorted ++ (if hasSeverity s x then [x] else []))%list.
Proof.
  unfold ranked. induction 1 as [|y rest Hrest IH Hy]; cbn [insertBySeverity filter].
  - reflexivity.
  - destruct (severityOrder (severity y) <=? severityOrder (severity x))%nat eqn:E.
    + cbn [filter]. rewrite IH. now destruct (hasSeverity s y).
    + apply Nat.leb_gt in E. cbn [filter].
      destruct (hasSeverity s x) eqn:Ex; [|now rewrite app_nil_r].
      unfold hasSeverity in Ex. apply Nat.eqb_eq in Ex.
      assert (Hy' : hasSeverity s y = false).
      { unfold hasSeverity. apply Nat.eqb_neq. lia. }
      assert (Hrest' : filter (hasSeverity s) rest = []).
      { clear IH Hrest. induction Hy as [|z rest' Hz _ IHrest]; cbn [filter];
          [reflexivity|].
        rewrite IHrest.
        assert (Hz' : hasSeverity s z = false)
          by (unfold hasSeverity; apply Nat.eqb_neq; lia).
        now rewrite Hz'. }
      rewrite Hy', Hrest'. reflexivity.
Qed.

Lemma sortBySeverity_stable (s : Severity) (findings : list Finding) :
  filter (hasSeverity s) (sortBySeverity findings) = filter (hasSeverity s) findings.
Proof.
  unfold sortBySeverity.
  assert (G : forall acc,
             ranked acc ->
             filter (hasSeverity s)
                    (fold_left (fun sorted x => insertBySeverity x sorted) findings acc)
             = (filter (hasSeverity s) acc ++ filter (hasSeverity s) findings)%list).
  { induction findings as [|x rest IH]; intros acc Hacc; cbn [fold_left filter].
    - now rewrite app_nil_r.
    - rewrite IH by (now apply insertBySeverity_ranked).
      rewrite insertBySeverity_filter by exact Hacc.
      rewrite <- app_assoc. now destruct (hasSeverity s x). }
  rewrite G by constructor. reflexivity.
Qed.

Section Extras.
Context {P : Platform}.

(** X21: the findings are ranked and capped.  Whatever the trace and the
    metrics, [identifyFindings] returns at most 7 findings, and no finding
    in the list is followed by a more severe one. *)
Theorem findings_are_ranked_and_capped
        (steps : list StepLog) (metrics : RunMetrics) (findings : list Finding)
        (Hfound : identifyFindings steps metrics = Ok findings) :
  (length findings <= 7)%nat /\ ranked findings.
Proof.
  unfold identifyFindings in Hfound.
  destruct (collectFindings steps metrics) as [collected|e]; cbn [rbind] in Hfound;
    [|discriminate].
  assert (Hlist : findings = firstn 7 (sortBySeverity collected)) by congruence.
  clear Hfound. subst findings. split.
  - rewrite length_firstn. lia.
  - apply firstn_ranked, sortBySeverity_ranked.
Qed.

(** X22: the sort is stable and loses nothing.  The list [identifyFindings]
    truncates is a rearrangement of the findings in the order they were
    pushed, in which the findings of any one severity keep that order. *)
Theorem findings_keep_discovery_order
        (steps : list StepLog) (metrics : RunMetrics) (findings : list Finding)
        (Hfound : identifyFindings steps metrics = Ok findings) :
  exists pushed,
    collectFindings steps metrics = Ok pushed
    /\ findings = firstn 7 (sortBySeverity pushed)
    /\ Permutation (sortBySeverity pushed) pushed
    /\ forall s, filter (hasSeverity s) (sortBySeverity pushed)
                 = filter (hasSeverity s) pushed.
Proof.
  unfold identifyFindings in Hfound.
  destruct (collectFindings steps metrics) as [collected|e]; cbn [rbind] in Hfound;
    [|discriminate].
  assert (Hlist : findings = firstn 7 (sortBySeverity collected)) by congruence.
  clear Hfound. subst findings. exists collected. repeat split.
  - apply sortBySeverity_perm.
  - intros s. apply sortBySeverity_stable.
Qed.

End Extras.
End EvaluatorExtras.

Module MetricsFacts.
Import JSString AgentLoop Evaluator Traces Reports EvaluatorFacts.

Lemma runEvents_bound (keys : list string) :
  forall (run : nat) (last : string),
    (runEvents run last keys <= (run mod 3 + length keys) / 3)%nat.
Proof.
  induction keys as [|key rest IH]; intros run last; [cbn; lia|].
  pose proof (Nat.mod_upper_bound run 3 ltac:(lia)) as Hb.
  cbn [runEvents length]. destruct (String.eqb key last).
  - specialize (IH (S run) last). rewrite mod3_S in IH |- *.
    destruct (run mod 3 =? 2)%nat eqn:E.
    + apply Nat.eqb_eq in E. rewrite E.
      change (0 =? 0)%nat with true. cbv iota.
      replace (2 + S (length rest))%nat with (1 * 3 + (0 + length rest))%nat by lia.
      rewrite Nat.div_add_l by lia. lia.
    + replace (S (run mod 3) =? 0)%nat with false by reflexivity. cbv iota.
      replace (run mod 3 + S (length rest))%nat with (S (run mod 3) + length rest)%nat by lia.
      lia.
  - specialize (IH 1%nat key). change (1 mod 3)%nat with 1%nat in IH.
    etransitivity; [exact IH|]. apply Nat.Div0.div_le_mono. lia.
Qed.

Section Facts.
Context {P : Platform}.

Lemma metricsLoop_pageKeys (steps : list StepLog) :
  forall prev visits m m',
    metricsLoop steps prev visits m = Ok m' -> exists keys, pageKeys steps = Ok keys.
Proof.
  induction steps as [|step rest IH]; intros prev visits m m' H.
  - eexists. reflexivity.
  - cbn [metricsLoop] in H. cbn [pageKeys].
    match type of H with rbind ?t _ = _ => destruct t as [transitions|e] end;
      cbn [rbind] in H; [|discriminate].
    destruct (getPageKey (snapshot step)) as [key|e]; cbn [rbind] in H |- *; [|discriminate].
    destruct (IH _ _ _ _ H) as (keys & Hk). rewrite Hk. eexists. reflexivity.
Qed.

(** What the loop of [calculateMetrics] adds to its counters. *)
Lemma metricsLoop_counts (steps : list StepLog) :
  forall prev visits m m',
    metricsLoop steps prev visits m = Ok m' ->
    m_steps m' = m_steps m
    /\ searchUsed m' = existsb (fun s => isSearch (action s)) steps || searchUsed m
    /\ consoleErrors m'
       = (consoleErrors m + length (flat_map (fun s => console (errors s)) steps))%nat
    /\ failedRequests m'
       = (failedRequests m + length (flat_map (fun s => network (errors s)) steps))%nat
    /\ (pageTransitions m' <= pageTransitions m + length steps)%nat
    /\ (backtracks m' <= backtracks m + length steps)%nat.
Proof.
  induction steps as [|step rest IH]; intros prev visits m m' H.
  - cbn [metricsLoop] in H. inversion H. cbn. repeat split; lia.
  - cbn [metricsLoop] in H.
    match type of H with rbind ?t _ = _ => destruct t as [transitions|e] eqn:Ht end;
      cbn [rbind] in H; [|discriminate].
    destruct (getPageKey (snapshot step)) as [key|e]; cbn [rbind] in H; [|discriminate].
    apply IH in H. cbn [m_steps searchUsed consoleErrors failedRequests pageTransitions
                        backtracks] in H.
    destruct H as (H1 & H2 & H3 & H4 & H5 & H6).
    assert (Htr : (transitions <= S (pageTransitions m))%nat).
    { destruct prev as [prev|]; [|inversion Ht; lia].
      destruct (negb (String.eqb (url step) (url prev))); [|inversion Ht; lia].
      destruct (URL_pathname (url prev)); cbn [rbind] in Ht; [|discriminate].
      destruct (URL_pathname (url step)); cbn [rbind] in Ht; [|discriminate].
      destruct (negb _) in Ht; inversion Ht; lia. }
    cbn [existsb flat_map length]. rewrite !length_app.
    repeat split.
    + exact H1.
    + rewrite H2. now rewrite orb_assoc, (orb_comm (existsb _ _)).
    + lia.
    + lia.
    + lia.
    + destruct (existsb _ visits) in H6; lia.
Qed.

(** The first step of a trace has no predecessor and no visited page. *)
Lemma metricsLoop_first (steps : list StepLog) (m m' : RunMetrics) :
  metricsLoop steps None [] m = Ok m' ->
  (pageTransitions m' <= pageTransitions m + pred (length steps))%nat
  /\ (backtracks m' <= backtracks m + pred (length steps))%nat.
Proof.
  destruct steps as [|step rest]; intros H.
  - inversion H. cbn. lia.
  - cbn [metricsLoop rbind] in H.
    destruct (getPageKey (snapshot step)) as [key|e]; cbn [rbind] in H; [|discriminate].
    apply metricsLoop_counts in H.
    cbn [pageTransitions backtracks existsb length pred] in H |- *. tauto.
Qed.

(** [pageVisits] keeps every key and [seenPages] each key once: the same
    keys are found in both. *)
Lemma metricsLoop_backtrackLoop (steps : list StepLog) :
  forall prev visits seen m m' found found',
    (forall key, existsb (String.eqb key) visits = existsb (String.eqb key) seen) ->
    metricsLoop steps prev visits m = Ok m' ->
    backtrackLoop steps found seen = Ok found' ->
    (backtracks m' + length found = backtracks m + length found')%nat.
Proof.
  induction steps as [|step rest IH]; intros prev visits seen m m' found found' Hsame Hm Hb.
  - cbn in Hm, Hb. inversion Hm. inversion Hb. reflexivity.
  - cbn [metricsLoop] in Hm. cbn [backtrackLoop] in Hb.
    match type of Hm with rbind ?t _ = _ => destruct t as [transitions|e] end;
      cbn [rbind] in Hm; [|discriminate].
    destruct (getPageKey (snapshot step)) as [key|e]; cbn [rbind] in Hm, Hb; [|discriminate].
    rewrite <- Hsame in Hb.
    destruct (existsb (String.eqb key) visits) eqn:E.
    + assert (G : forall k, existsb (String.eqb k) (visits ++ [key])
                            = existsb (String.eqb k) seen).
      { intros k. rewrite existsb_app. cbn [existsb]. rewrite orb_false_r.
        destruct (String.eqb_spec k key) as [->|_].
        - rewrite orb_true_r. now rewrite <- Hsame.
        - rewrite orb_false_r. apply Hsame. }
      pose proof (IH _ _ _ _ _ _ _ G Hm Hb) as Hcount.
      cbn [backtracks] in Hcount. rewrite length_app in Hcount.
      cbn [length] in Hcount. lia.
    + refine (IH _ _ _ _ _ _ _ _ Hm Hb).
      intros k. rewrite !existsb_app, Hsame. reflexivity.
Qed.

Lemma calculateMetrics_steps (steps : list StepLog) (metrics : RunMetrics) :
  calculateMetrics steps = Ok metrics -> m_steps metrics = length steps.
Proof.
  unfold calculateMetrics. intros H.
  destruct (metricsLoop steps None [] _) as [m|e] eqn:Hm; cbn [rbind] in H; [|discriminate].
  destruct (detectStuckEvents steps); cbn [rbind] in H; [|discriminate].
  destruct (metricsLoop_counts _ _ _ _ _ Hm) as (H1 & _).
  inversion H. exact H1.
Qed.

End Facts.
End MetricsFacts.

Module MetricsExtras.
Import JSString AgentLoop Evaluator Traces Reports EvaluatorFacts MetricsFacts.

Section Extras.
Context {P : Platform}.

(** X23: what the metrics count.  When [calculateMetrics] returns, [steps]
    is the length of the trace, three times [stuckEvents] is at most that
    length, [backtracks] and [pageTransitions] are below it (the first step
    has no predecessor), [searchUsed] says whether some step is a search,
    and the two error counters are the numbers of console and network
    messages in the whole trace. *)
Theorem metrics_are_bounded_by_the_trace
        (steps : list StepLog) (metrics : RunMetrics)
        (Hmetrics : calculateMetrics steps = Ok metrics) :
  m_steps metrics = length steps
  /\ (3 * stuckEvents metrics <= length steps)%nat
  /\ (backtracks metrics <= pred (length steps))%nat
  /\ (pageTransitions metrics <= pred (length steps))%nat
  /\ searchUsed metrics = existsb (fun s => isSearch (action s)) steps
  /\ consoleErrors metrics = length (flat_map (fun s => console (errors s)) steps)
  /\ failedRequests metrics = length (flat_map (fun s => network (errors s)) steps).
Proof.
  unfold calculateMetrics in Hmetrics.
  destruct (metricsLoop steps None [] _) as [m|e] eqn:Hm; cbn [rbind] in Hmetrics;
    [|discriminate].
  destruct (metricsLoop_pageKeys _ _ _ _ _ Hm) as (keys & Hk).
  rewrite (detectStuckEvents_runEvents _ _ Hk) in Hmetrics. cbn [rbind] in Hmetrics.
  assert (Heq : metrics
                = {| m_steps := m_steps m; pageTransitions := pageTransitions m;
                     backtracks := backtracks m; searchUsed := searchUsed m;
                     stuckEvents := runEvents 0 "" keys; consoleErrors := consoleErrors m;
                     failedRequests := failedRequests m |}) by congruence.
  subst metrics. clear Hmetrics.
  cbn [m_steps pageTransitions backtracks searchUsed stuckEvents consoleErrors
       failedRequests].
  destruct (metricsLoop_first _ _ _ Hm) as (Ht & Hb).
  destruct (metricsLoop_counts _ _ _ _ _ Hm) as (H1 & H2 & H3 & H4 & _ & _).
  cbn [m_steps pageTransitions backtracks searchUsed consoleErrors failedRequests]
    in H1, H2, H3, H4, Ht, Hb.
  pose proof (runEvents_bound keys 0 "") as Hr.
  rewrite (pageKeys_length _ _ Hk) in Hr. change (0 mod 3)%nat with 0%nat in Hr.
  pose proof (Nat.Div0.mul_div_le (length steps) 3) as Hd.
  cbn [Nat.add] in Hr, Ht, Hb, H3, H4.
  rewrite orb_false_r in H2.
  repeat split; try assumption; lia.
Qed.


End Extras.
End MetricsExtras.

Module WindowFacts.
Import JSString AgentLoop Evaluator Traces Reports EvaluatorFacts MetricsFacts.

Lemma div3_S (n : nat) :
  (S n / 3 = n / 3 + (if (S n mod 3 =? 0) then 1 else 0))%nat.
Proof.
  pose proof (Nat.div_mod_eq n 3) as Hn.
  pose proof (Nat.div_mod_eq (S n) 3) as Hs.
  pose proof (Nat.mod_upper_bound n 3 ltac:(lia)) as Hb.
  pose proof (Nat.mod_upper_bound (S n) 3 ltac:(lia)) as Hb'.
  rewrite mod3_S in *. destruct (n mod 3 =? 2)%nat eqn:E.
  - apply Nat.eqb_eq in E. cbn [Nat.eqb]. lia.
  - apply Nat.eqb_neq in E. cbn [Nat.eqb]. lia.
Qed.

Lemma eventsOf_app (windows : list (list StepLog)) (window : list StepLog) :
  eventsOf (windows ++ [window]) = (eventsOf windows + length window / 3)%nat.
Proof. unfold eventsOf. rewrite map_app, list_sum_app. cbn [map list_sum fold_right]. lia. Qed.

Lemma eventsOf_pushed (windows : list (list StepLog)) (current : list StepLog) :
  eventsOf (if (3 <=? length current)%nat then (windows ++ [current])%list else windows)
  = (eventsOf windows + length current / 3)%nat.
Proof.
  destruct (3 <=? length current)%nat eqn:E.
  - apply eventsOf_app.
  - apply Nat.leb_gt in E. rewrite Nat.div_small by exact E. lia.
Qed.

Section Facts.
Context {P : Platform}.

Lemma stall_app (key : string) (current : list StepLog) (step : StepLog) :
  stall key current -> getPageKey (snapshot step) = Ok key ->
  stall key (current ++ [step]).
Proof.
  intros Hc Hk. apply Forall_app. split; [exact Hc|]. now repeat constructor.
Qed.

Lemma stuckWindow_pushed (windows : list (list StepLog)) (current : list StepLog)
      (key : string) :
  Forall stuckWindow windows -> stall key current ->
  Forall stuckWindow
         (if (3 <=? length current)%nat then (windows ++ [current])%list else windows).
Proof.
  intros Hw Hc. destruct (3 <=? length current)%nat eqn:E; [|exact Hw].
  apply Forall_app. split; [exact Hw|]. constructor; [|constructor].
  split; [now apply Nat.leb_le | now exists key].
Qed.

(** The loop of [findStuckWindows] keeps one key per window. *)
Lemma windowLoop_windows (steps : list StepLog) :
  forall windows current last ws cur,
    windowLoop steps windows current last = Ok (ws, cur) ->
    Forall stuckWindow windows -> stall last current ->
    Forall stuckWindow ws /\ exists key, stall key cur.
Proof.
  induction steps as [|step rest IH]; intros windows current last ws cur H Hw Hc.
  - cbn in H. inversion H; subst. split; [exact Hw | now exists last].
  - cbn [windowLoop] in H.
    destruct (getPageKey (snapshot step)) as [key|e] eqn:Hk; cbn [rbind] in H; [|discriminate].
    destruct (String.eqb_spec key last) as [->|_].
    + eapply IH; [exact H | exact Hw | now apply stall_app].
    + eapply IH; [exact H | now apply (stuckWindow_pushed _ _ last) |].
      now repeat constructor.
Qed.

(** The two loops cut the trace into the same runs of equal keys. *)
Lemma windowLoop_runEvents (steps : list StepLog) :
  forall keys windows current last ws cur,
    pageKeys steps = Ok keys ->
    windowLoop steps windows current last = Ok (ws, cur) ->
    (eventsOf ws + length cur / 3
     = eventsOf windows + length current / 3 + runEvents (length current) last keys)%nat.
Proof.
  induction steps as [|step rest IH]; intros keys windows current last ws cur Hk H.
  - cbn in Hk, H. inversion Hk. inversion H. cbn [runEvents]. lia.
  - cbn [pageKeys] in Hk. cbn [windowLoop] in H.
    destruct (getPageKey (snapshot step)) as [key|e]; cbn [rbind] in Hk, H; [|discriminate].
    destruct (pageKeys rest) as [keys'|e] eqn:Hk'; cbn [rbind] in Hk; [|discriminate].
    inversion Hk; subst keys. cbn [runEvents].
    destruct (String.eqb key last).
    + rewrite (IH _ _ _ _ _ _ eq_refl H).
      rewrite length_app. cbn [length]. rewrite Nat.add_1_r.
      rewrite (div3_S (length current)). lia.
    + rewrite (IH _ _ _ _ _ _ eq_refl H).
      rewrite eventsOf_pushed. cbn [length].
      change (1 / 3)%nat with 0%nat. lia.
Qed.

Lemma windowFinding_one (window : list StepLog) :
  (3 <= length window)%nat -> length (windowFinding window) = 1%nat.
Proof.
  intros H. unfold windowFinding.
  destruct (3 <=? length window)%nat eqn:E; [|apply Nat.leb_gt in E; lia].
  destruct window; [cbn in H; lia | reflexivity].
Qed.

End Facts.
End WindowFacts.

Module WindowExtras.
Import JSString AgentLoop Evaluator Traces Reports EvaluatorFacts MetricsFacts WindowFacts.

Section Extras.
Context {P : Platform}.

(** X25: every stuck window is a real one.  Each window [findStuckWindows]
    returns has at least three steps, all with the same page key, so the
    test [window.length >= 3] in [identifyFindings] never fails and every
    window gives exactly one finding. *)
Theorem stuck_windows_are_runs_of_one_page
        (steps : list StepLog) (windows : list (list StepLog))
        (Hwindows : findStuckWindows steps = Ok windows) :
  Forall stuckWindow windows
  /\ length (flat_map windowFinding windows) = length windows.
Proof.
  unfold findStuckWindows in Hwindows.
  destruct (windowLoop steps [] [] "") as [[ws cur]|e] eqn:Hloop; cbn [rbind] in Hwindows;
    [|discriminate].
  destruct (windowLoop_windows _ _ _ _ _ _ Hloop (Forall_nil _) (Forall_nil _))
    as (Hws & key & Hcur).
  assert (Hall : Forall stuckWindow windows).
  { assert (E : windows = if (3 <=? length cur)%nat then (ws ++ [cur])%list else ws)
      by congruence.
    rewrite E. now apply (stuckWindow_pushed _ _ key). }
  split; [exact Hall|].
  clear - Hall. induction Hall as [|window rest (Hlen & _) _ IH]; [reflexivity|].
  cbn [flat_map]. rewrite length_app, IH, (windowFinding_one _ Hlen). reflexivity.
Qed.

(** X26: stuck events are counted window by window.  The [stuckEvents]
    metric is the sum, over the windows of [findStuckWindows], of a third
    of the window's length rounded down; so it is zero exactly when there
    is no stuck window, and then no navigation-difficulty finding. *)
Theorem stuck_events_are_a_third_of_the_windows
        (steps : list StepLog) (metrics : RunMetrics)
        (Hmetrics : calculateMetrics steps = Ok metrics) :
  exists windows,
    findStuckWindows steps = Ok windows
    /\ stuckEvents metrics = eventsOf windows
    /\ (stuckEvents metrics = 0%nat <-> windows = []).
Proof.
  unfold calculateMetrics in Hmetrics.
  destruct (metricsLoop steps None [] _) as [m|e] eqn:Hm; cbn [rbind] in Hmetrics;
    [|discriminate].
  destruct (metricsLoop_pageKeys _ _ _ _ _ Hm) as (keys & Hk).
  rewrite (detectStuckEvents_runEvents _ _ Hk) in Hmetrics. cbn [rbind] in Hmetrics.
  assert (Hstuck : stuckEvents metrics = runEvents 0 "" keys)
    by (inversion Hmetrics; reflexivity).
  clear Hmetrics Hm m.
  destruct (windowLoop steps [] [] "") as [[ws cur]|e] eqn:Hloop.
  2:{ exfalso. clear - Hk Hloop. revert keys Hk Hloop.
      generalize (@nil (list StepLog)), (@nil StepLog), ""%string.
      induction steps as [|step rest IH]; intros windows current last keys Hk H;
        [discriminate|].
      cbn [pageKeys] in Hk. cbn [windowLoop] in H.
      destruct (getPageKey (snapshot step)) as [key|e']; cbn [rbind] in Hk, H;
        [|discriminate].
      destruct (pageKeys rest) as [keys'|e'] eqn:Hk'; [|discriminate].
      destruct (String.eqb key last); eapply IH; eauto. }
  pose proof (windowLoop_runEvents _ _ _ _ _ _ _ Hk Hloop) as Hsum.
  cbn [length] in Hsum. change (eventsOf []) with 0%nat in Hsum.
  change (0 / 3)%nat with 0%nat in Hsum. cbn [Nat.add] in Hsum.
  destruct (windowLoop_windows _ _ _ _ _ _ Hloop (Forall_nil _) (Forall_nil _))
    as (Hws & key & Hcur).
  pose proof (stuckWindow_pushed ws cur key Hws Hcur) as Hall.
  pose proof (eventsOf_pushed ws cur) as Hev.
  exists (if (3 <=? length cur)%nat then (ws ++ [cur])%list else ws).
  split; [unfold findStuckWindows; rewrite Hloop; reflexivity|].
  split; [lia|].
  rewrite Hstuck, <- Hsum, <- Hev.
  destruct (if (3 <=? length cur)%nat then (ws ++ [cur])%list else ws)
    as [|window rest]; [tauto|].
  split; [|discriminate].
  inversion Hall as [|? ? (Hlen & _) _]; subst.
  unfold eventsOf. cbn [map list_sum fold_right]. intros H0.
  assert (length window / 3 = 0)%nat by lia.
  apply Nat.div_small_iff in H; lia.
Qed.

End Extras.
End WindowExtras.

Module TraceExtras.
Import JSString AgentLoop Evaluator Traces Reports Runs LoopFacts LoopRecord
       EvaluatorFacts MetricsFacts.

Section Extras.
Context {P : Platform}.

Lemma keyed_pathname (step : StepLog) :
  keyed step -> exists path, URL_pathname (url step) = Ok path.
Proof.
  intros ((key & Hk) & Hu). rewrite Hu. unfold getPageKey in Hk.
  destruct (URL_pathname (snap_url (snapshot step))) as [path|e]; [|discriminate].
  now exists path.
Qed.

Lemma pageKeys_keyed (steps : list StepLog) :
  Forall keyed steps -> exists keys, pageKeys steps = Ok keys.
Proof.
  induction 1 as [|step rest ((key & Hk) & _) _ (keys & IH)]; [now eexists|].
  cbn [pageKeys]. rewrite Hk, IH. now eexists.
Qed.

Lemma metricsLoop_keyed (steps : list StepLog) :
  Forall keyed steps ->
  forall prev visits m,
    (forall p, prev = Some p -> keyed p) ->
    exists m', metricsLoop steps prev visits m = Ok m'.
Proof.
  induction 1 as [|step rest Hstep _ IH]; intros prev visits m Hprev; [now eexists|].
  cbn [metricsLoop].
  destruct (keyed_pathname _ Hstep) as (path & Hpath).
  destruct Hstep as ((key & Hk) & Hu).
  assert (Ht : exists transitions,
             match prev with
             | Some prev =>
                 if negb (String.eqb (url step) (url prev)) then
                   (prevPath <- URL_pathname (url prev) ;;
                    currPath <- URL_pathname (url step) ;;
                    Ok (if negb (String.eqb prevPath currPath)
                        then S (pageTransitions m) else pageTransitions m))%result
                 else Ok (pageTransitions m)
             | None => Ok (pageTransitions m)
             end = Ok transitions).
  { destruct prev as [p|]; [|now eexists].
    destruct (negb _); [|now eexists].
    destruct (keyed_pathname p (Hprev p eq_refl)) as (path' & Hpath').
    rewrite Hpath', Hpath. cbn [rbind]. now eexists. }
  destruct Ht as (transitions & ->). cbn [rbind]. rewrite Hk. cbn [rbind].
  apply IH. intros p Hp. inversion Hp; subst. split; [now exists key | exact Hu].
Qed.

Lemma windowLoop_returns (steps : list StepLog) :
  forall keys windows current last,
    pageKeys steps = Ok keys ->
    exists r, windowLoop steps windows current last = Ok r.
Proof.
  induction steps as [|step rest IH]; intros keys windows current last Hk; [now eexists|].
  cbn [pageKeys] in Hk. cbn [windowLoop].
  destruct (getPageKey (snapshot step)) as [key|e]; cbn [rbind] in Hk |- *; [|discriminate].
  destruct (pageKeys rest) as [keys'|e]; [|discriminate].
  destruct (String.eqb key last); eapply IH; reflexivity.
Qed.

Lemma evaluate_keyed (steps : list StepLog) :
  Forall keyed steps ->
  exists metrics findings, evaluate steps = Ok (metrics, findings).
Proof.
  intros Hsteps. unfold evaluate, calculateMetrics.
  destruct (pageKeys_keyed _ Hsteps) as (keys & Hk).
  destruct (metricsLoop_keyed _ Hsteps None []
              {| m_steps := length steps; pageTransitions := 0; backtracks := 0;
                 searchUsed := false; stuckEvents := 0; consoleErrors := 0;
                 failedRequests := 0 |}) as (m & ->); [discriminate|].
  cbn [rbind]. rewrite (detectStuckEvents_runEvents _ _ Hk). cbn [rbind].
  unfold identifyFindings, collectFindings, findStuckWindows.
  destruct (windowLoop_returns steps keys [] [] "" Hk) as ((windows & current) & ->).
  cbn [rbind].
  destruct (backtrackLoop_returns steps keys [] [] Hk) as (found & Hfound).
  unfold findBacktrackSteps. rewrite Hfound.
  destruct (3 <=? _)%nat; cbn [rbind]; do 2 eexists; reflexivity.
Qed.

Variable config : AgentLoopConfig.
Variable world : nat -> Env.

Lemma after_keyed (k : nat) : Forall keyed (steps (fst (after config world k))).
Proof.
  induction k as [|k IH]; [constructor|].
  rewrite after_S. destruct (after config world k) as [st [| |e]] eqn:E; cbn [fst] in *;
    try exact IH.
  destruct (iteration config (world k) k st) as [st' c] eqn:Hit. cbn [fst].
  destruct (iteration_record _ _ _ _ _ _ Hit)
    as ([Hs | (step & key & Hs & _ & Hsnap & Hurl & Hkey & _)] & _).
  - now rewrite Hs.
  - rewrite Hs. apply Forall_app. split; [exact IH|].
    constructor; [|constructor]. split; [now exists key|].
    now rewrite Hurl, Hsnap.
Qed.

(** X27: the evaluator accepts every trace the loop returns.  Each recorded
    step carries the snapshot whose page key the loop computed and that
    snapshot's URL, so neither [new URL(step.url)] nor
    [getPageKey(step.snapshot)] can throw in [calculateMetrics] or
    [identifyFindings]: metrics and findings are always produced, and the
    [steps] metric is within the step budget. *)
Theorem evaluator_accepts_every_recorded_trace
        (r : AgentLoopResult)
        (Hrun : runAgentLoop config world = Ok r) :
  Forall keyed (res_steps r)
  /\ exists metrics findings,
       evaluate (res_steps r) = Ok (metrics, findings)
       /\ (m_steps metrics <= maxSteps config)%nat.
Proof.
  assert (Hsteps : res_steps r = steps (fst (after config world (maxSteps config)))).
  { unfold runAgentLoop in Hrun.
    destruct (after config world (maxSteps config)) as [st [| |e]];
      inversion Hrun; cbn [fst]; unfold finish; destruct (_ && _); reflexivity. }
  pose proof (after_keyed (maxSteps config)) as Hkeyed. rewrite <- Hsteps in Hkeyed.
  split; [exact Hkeyed|].
  destruct (evaluate_keyed _ Hkeyed) as (metrics & findings & Hev).
  exists metrics, findings. split; [exact Hev|].
  unfold evaluate in Hev.
  destruct (calculateMetrics (res_steps r)) as [m|e] eqn:Hm; cbn [rbind] in Hev;
    [|discriminate].
  destruct (identifyFindings (res_steps r) m); cbn [rbind] in Hev; [|discriminate].
  assert (m = metrics) by congruence. subst m.
  rewrite (calculateMetrics_steps _ _ Hm).
  rewrite Hsteps. apply after_length.
Qed.

End Extras.
End TraceExtras.

Module StallClaims.
Import JSString AgentLoop Evaluator Traces Reports EvaluatorFacts EvaluatorExtras
       MetricsFacts TraceExtras.

Lemma filter_both {A} (f g : A -> bool) (l : list A) :
  filter (fun x => f x && g x) l = filter f (filter g l).
Proof.
  induction l as [|x l IH]; [reflexivity|]. cbn [filter].
  destruct (g x); cbn [filter]; rewrite ?andb_true_r, ?andb_false_r;
    [destruct (f x); now rewrite IH | exact IH].
Qed.

Lemma isHighDiscoverability_split (f : Finding) :
  isHighDiscoverability f
  = match f_type f with discoverability => true | _ => false end && hasSeverity high f.
Proof. unfold isHighDiscoverability, hasSeverity. destruct (f_type f), (severity f); reflexivity. Qed.

(** Sorting moves no high discoverability finding past another. *)
Lemma sortBySeverity_high (findings : list Finding) :
  filter isHighDiscoverability (sortBySeverity findings)
  = filter isHighDiscoverability findings.
Proof.
  rewrite !(filter_ext _ _ isHighDiscoverability_split), !filter_both.
  now rewrite sortBySeverity_stable.
Qed.

Lemma searchFinding_not_high (steps : list StepLog) :
  filter isHighDiscoverability (searchFinding steps) = [].
Proof.
  unfold searchFinding. destruct (2 <=? _)%nat; [|reflexivity].
  destruct (filter _ steps); reflexivity.
Qed.

Lemma consoleFinding_not_high (steps : list StepLog) (metrics : RunMetrics) :
  filter isHighDiscoverability (consoleFinding steps metrics) = [].
Proof. unfold consoleFinding. destruct (filter _ steps); reflexivity. Qed.

Lemma networkFinding_not_high (steps : list StepLog) (metrics : RunMetrics) :
  filter isHighDiscoverability (networkFinding steps metrics) = [].
Proof. unfold networkFinding. destruct (filter _ steps); reflexivity. Qed.

Lemma validationFinding_not_high (steps : list StepLog) :
  filter isHighDiscoverability (validationFinding steps) = [].
Proof. unfold validationFinding. destruct (filter _ steps); reflexivity. Qed.

Lemma helpFinding_not_high (steps : list StepLog) :
  filter isHighDiscoverability (helpFinding steps) = [].
Proof. unfold helpFinding. destruct (find _ steps); reflexivity. Qed.

Lemma windowFinding_six (steps : list StepLog) :
  length steps = 6%nat ->
  exists f, windowFinding steps = [f]
            /\ f_type f = discoverability /\ severity f = high
            /\ isWindowFinding f = true.
Proof.
  intros H. unfold windowFinding. rewrite H.
  destruct steps as [|first rest]; [discriminate|].
  eexists. repeat split.
Qed.

Section Claims.
Context {P : Platform}.

Lemma calculateMetrics_parts (steps : list StepLog) (metrics : RunMetrics) :
  calculateMetrics steps = Ok metrics ->
  detectStuckEvents steps = Ok (stuckEvents metrics)
  /\ forall found, findBacktrackSteps steps = Ok found -> backtracks metrics = length found.
Proof.
  unfold calculateMetrics. intros H.
  destruct (metricsLoop steps None [] _) as [m|e] eqn:Hm; cbn [rbind] in H; [|discriminate].
  destruct (detectStuckEvents steps) as [stuck|e]; cbn [rbind] in H; [|discriminate].
  assert (Hs : stuckEvents metrics = stuck) by (inversion H; reflexivity).
  assert (Hb : backtracks metrics = backtracks m) by (inversion H; reflexivity).
  split; [now rewrite Hs|].
  intros found Hfound. unfold findBacktrackSteps in Hfound.
  pose proof (metricsLoop_backtrackLoop steps None [] [] _ _ [] found
                (fun _ => eq_refl) Hm Hfound) as Hcount.
  cbn [backtracks length] in Hcount. lia.
Qed.

(** In a stall every step but the first revisits the page. *)
Lemma backtrackLoop_stall (key : string) (rest : list StepLog) :
  stall key rest ->
  forall found seen,
    existsb (String.eqb key) seen = true ->
    backtrackLoop rest found seen = Ok (found ++ rest)%list.
Proof.
  induction 1 as [|step rest Hk _ IH]; intros found seen Hseen.
  - cbn. now rewrite app_nil_r.
  - cbn [backtrackLoop]. rewrite Hk. cbn [rbind]. rewrite Hseen.
    rewrite (IH _ _ Hseen), <- app_assoc. reflexivity.
Qed.

Lemma findBacktrackSteps_stall (key : string) (steps : list StepLog) :
  stall key steps -> findBacktrackSteps steps = Ok (tl steps).
Proof.
  intros Hs. unfold findBacktrackSteps.
  destruct steps as [|first rest]; [reflexivity|].
  inversion Hs as [|? ? Hk Hrest]; subst.
  cbn [backtrackLoop tl]. rewrite Hk. cbn [rbind existsb app].
  apply (backtrackLoop_stall key rest Hrest [] [key]).
  cbn. now rewrite String.eqb_refl.
Qed.

(** C6, as the code has it.  The [stuckEvents] metric counts one event
    each time a run of equal page keys reaches length 3, 6, 9, ... (the
    counter is reset at every event).  On a stall of exactly 6 steps the
    evaluator therefore reports 2 stuck events, and on a stall of 7 steps 2
    as well.  The 6-step stall is one stuck window, and the evaluator
    returns exactly one finding for it, of type discoverability and
    severity high.  It is not the only finding of that type and severity:
    five of the six steps revisit the page, so [backtracks] is 5 and the
    finding "Excessive navigation backtracking" is high as well. *)
Theorem six_step_stall_two_events_one_high_finding
        (key : string) (steps : list StepLog)
        (Hstall : stall key steps) (Hsix : length steps = 6%nat)
        (Hurls : Forall (fun step => url step = snap_url (snapshot step)) steps) :
  (forall trace metrics,
      calculateMetrics trace = Ok metrics ->
      exists keys, pageKeys trace = Ok keys /\ stuckEvents metrics = runEvents 0 "" keys)
  /\ (forall longer metrics,
        stall key longer -> length longer = 7%nat ->
        calculateMetrics longer = Ok metrics -> stuckEvents metrics = 2%nat)
  /\ exists metrics findings f b,
       evaluate steps = Ok (metrics, findings)
       /\ stuckEvents metrics = 2%nat
       /\ backtracks metrics = 5%nat
       /\ findStuckWindows steps = Ok [steps]
       /\ windowFinding steps = [f]
       /\ f_type f = discoverability
       /\ severity f = high
       /\ filter isWindowFinding findings = [f]
       /\ backtrackFinding metrics (tl steps) = [b]
       /\ filter isHighDiscoverability findings = [f; b].
Proof.
  split.
  { intros trace metrics Hm.
    destruct (calculateMetrics_parts _ _ Hm) as (Hstuck & _).
    unfold calculateMetrics in Hm.
    destruct (metricsLoop trace None [] _) as [m|e] eqn:Hloop; cbn [rbind] in Hm;
      [|discriminate].
    destruct (metricsLoop_pageKeys _ _ _ _ _ Hloop) as (keys & Hk).
    exists keys. split; [exact Hk|].
    rewrite (detectStuckEvents_runEvents _ _ Hk) in Hstuck. congruence. }
  split.
  { intros longer metrics Hl H7 Hm.
    destruct (calculateMetrics_parts _ _ Hm) as (Hstuck & _).
    rewrite (detectStuckEvents_stall key longer Hl), H7 in Hstuck.
    change (7 / 3)%nat with 2%nat in Hstuck. congruence. }
  assert (Hkeyed : Forall keyed steps).
  { apply Forall_forall. intros step Hin.
    rewrite Forall_forall in Hurls. unfold stall in Hstall. rewrite Forall_forall in Hstall.
    split; [exists key; now apply Hstall | now apply Hurls]. }
  destruct (evaluate_keyed steps Hkeyed) as (metrics & findings & Hev).
  unfold evaluate in Hev.
  destruct (calculateMetrics steps) as [m|e] eqn:Hm; cbn [rbind] in Hev; [|discriminate].
  destruct (identifyFindings steps m) as [found|e] eqn:Hf; cbn [rbind] in Hev;
    [|discriminate].
  assert (m = metrics) by congruence. assert (found = findings) by congruence.
  subst m found. clear Hev.
  destruct (calculateMetrics_parts _ _ Hm) as (Hstuck & Hback).
  rewrite (detectStuckEvents_stall key steps Hstall), Hsix in Hstuck.
  change (6 / 3)%nat with 2%nat in Hstuck.
  assert (Hstuck2 : stuckEvents metrics = 2%nat) by congruence.
  pose proof (Hback _ (findBacktrackSteps_stall key steps Hstall)) as Hfive.
  assert (Htl : length (tl steps) = 5%nat).
  { destruct steps; [discriminate | cbn in Hsix |- *; lia]. }
  rewrite Htl in Hfive.
  assert (Hlen : (3 <= length steps)%nat) by lia.
  pose proof (findStuckWindows_stall key steps Hstall Hlen) as Hwin.
  (* the findings as pushed *)
  assert (Hpushed : collectFindings steps metrics
                    = Ok (windowFinding steps ++ searchFinding steps
                          ++ backtrackFinding metrics (tl steps)
                          ++ consoleFinding steps metrics ++ networkFinding steps metrics
                          ++ validationFinding steps ++ helpFinding steps)%list).
  { unfold collectFindings. rewrite Hwin. cbn [rbind flat_map]. rewrite app_nil_r.
    rewrite Hfive. change (3 <=? 5)%nat with true. cbv iota.
    rewrite (findBacktrackSteps_stall key steps Hstall). reflexivity. }
  pose proof Hf as Hfound.
  unfold identifyFindings in Hf. rewrite Hpushed in Hf. cbn [rbind] in Hf.
  destruct (windowFinding_six steps Hsix) as (f & Hw & Hftype & Hfsev & Hfwin).
  assert (Hfhigh : isHighDiscoverability f = true)
    by (unfold isHighDiscoverability; now rewrite Hftype, Hfsev).
  assert (Hb : exists b, backtrackFinding metrics (tl steps) = [b]
                         /\ isHighDiscoverability b = true /\ isWindowFinding b = false).
  { destruct (tl steps) as [|second others]; [discriminate|].
    unfold backtrackFinding. rewrite Hfive. eexists. split; [reflexivity|].
    split; reflexivity. }
  destruct Hb as (b & Hb & Hbhigh & Hbwin).
  set (pushed := (windowFinding steps ++ searchFinding steps
                  ++ backtrackFinding metrics (tl steps)
                  ++ consoleFinding steps metrics ++ networkFinding steps metrics
                  ++ validationFinding steps ++ helpFinding steps)%list) in *.
  assert (Hall : findings = sortBySeverity pushed).
  { assert (E : findings = firstn 7 (sortBySeverity pushed)) by congruence.
    rewrite E. apply firstn_all2.
    rewrite (Permutation_length (sortBySeverity_perm _)). unfold pushed.
    rewrite !length_app, Hw, Hb. cbn [length].
    pose proof (proj1 (searchFinding_aside steps)).
    pose proof (proj1 (consoleFinding_aside steps metrics)).
    pose proof (proj1 (networkFinding_aside steps metrics)).
    pose proof (proj1 (validationFinding_aside steps)).
    pose proof (proj1 (helpFinding_aside steps)). lia. }
  exists metrics, findings, f, b.
  split; [unfold evaluate; rewrite Hm; cbn [rbind]; rewrite Hfound; reflexivity|].
  split; [exact Hstuck2|]. split; [exact Hfive|]. split; [exact Hwin|].
  split; [exact Hw|]. split; [exact Hftype|]. split; [exact Hfsev|].
  split; [|split; [exact Hb|]].
  - rewrite Hall. apply Permutation_length_1_inv. symmetry.
    rewrite (filter_perm isWindowFinding _ _ (sortBySeverity_perm _)).
    unfold pushed. rewrite !filter_app, Hw, Hb.
    rewrite (proj2 (searchFinding_aside steps)), (proj2 (consoleFinding_aside steps metrics)),
      (proj2 (networkFinding_aside steps metrics)), (proj2 (validationFinding_aside steps)),
      (proj2 (helpFinding_aside steps)).
    cbn [filter app]. rewrite Hfwin, Hbwin. reflexivity.
  - rewrite Hall, sortBySeverity_high. unfold pushed. rewrite !filter_app, Hw, Hb.
    rewrite searchFinding_not_high, consoleFinding_not_high, networkFinding_not_high,
      validationFinding_not_high, helpFinding_not_high.
    cbn [filter app]. rewrite Hfhigh, Hbhigh. reflexivity.
Qed.

End Claims.
End StallClaims.

Module StallExamples.
Import JSString AgentLoop Evaluator Traces Reports StallClaims.

Lemma six_step_stall_two_events_one_high_finding_witness :
  let P := Reference.platform in
  exists metrics findings f b,
    evaluate sixScrolls = Ok (metrics, findings)
    /\ stuckEvents metrics = 2%nat
    /\ backtracks metrics = 5%nat
    /\ findStuckWindows sixScrolls = Ok [sixScrolls]
    /\ windowFinding sixScrolls = [f]
    /\ f_type f = discoverability
    /\ severity f = high
    /\ filter isWindowFinding findings = [f]
    /\ backtrackFinding metrics (tl sixScrolls) = [b]
    /\ filter isHighDiscoverability findings = [f; b].
Proof.
  intros P.
  destruct (six_step_stall_two_events_one_high_finding (P := P)
              "/home::Home" sixScrolls) as (_ & _ & H).
  - repeat constructor.
  - reflexivity.
  - repeat constructor.
  - exact H.
Defined.

(** C6 as stated fails on the six scrolls the loop records in a quiet
    world: the evaluator returns two findings of type discoverability and
    severity high for that stall, the window's and the backtracking one,
    not exactly one. *)
Lemma six_step_stall_has_two_high_findings :
  let P := Reference.platform in
  exists metrics findings,
    evaluate sixScrolls = Ok (metrics, findings)
    /\ stuckEvents metrics = 2%nat
    /\ map title (filter isHighDiscoverability findings)
       = ["Navigation difficulty at Home"; "Excessive navigation backtracking"]
    /\ length (filter isHighDiscoverability findings) = 2%nat.
Proof.
  intros P. destruct (evaluate sixScrolls) as [[metrics findings]|e] eqn:E;
    [|vm_compute in E; discriminate].
  exists metrics, findings. split; [reflexivity|].
  vm_compute in E. inversion E. subst. repeat split.
Qed.

End StallExamples.

Module EvaluatorExtraExamples.
Import JSString AgentLoop Evaluator Traces Reports EvaluatorExtras MetricsExtras
       WindowExtras TraceExtras.

Lemma findings_are_ranked_and_capped_witness :
  let P := Reference.platform in
  let findings := match identifyFindings sixScrolls noMetrics with
                  | Ok found => found
                  | Throw _ => []
                  end in
  (length findings <= 7)%nat /\ ranked findings.
Proof.
  intros P findings.
  apply (findings_are_ranked_and_capped (P := P) sixScrolls noMetrics findings).
  vm_compute. reflexivity.
Defined.

Lemma findings_keep_discovery_order_witness :
  let P := Reference.platform in
  let findings := match identifyFindings sixScrolls noMetrics with
                  | Ok found => found
                  | Throw _ => []
                  end in
  exists pushed,
    collectFindings sixScrolls noMetrics = Ok pushed
    /\ findings = firstn 7 (sortBySeverity pushed)
    /\ Permutation (sortBySeverity pushed) pushed
    /\ forall s, filter (hasSeverity s) (sortBySeverity pushed)
                 = filter (hasSeverity s) pushed.
Proof.
  intros P findings.
  apply (findings_keep_discovery_order (P := P) sixScrolls noMetrics findings).
  vm_compute. reflexivity.
Defined.

Lemma metrics_are_bounded_by_the_trace_witness :
  let P := Reference.platform in
  let metrics := match calculateMetrics sixScrolls with
                 | Ok m => m
                 | Throw _ => noMetrics
                 end in
  m_steps metrics = 6%nat
  /\ (3 * stuckEvents metrics <= 6)%nat
  /\ (backtracks metrics <= 5)%nat
  /\ (pageTransitions metrics <= 5)%nat.
Proof.
  intros P metrics.
  destruct (metrics_are_bounded_by_the_trace (P := P) sixScrolls metrics)
    as (H1 & H2 & H3 & H4 & _).
  - vm_compute. reflexivity.
  - repeat split; assumption.
Defined.


Lemma stuck_windows_are_runs_of_one_page_witness :
  let P := Reference.platform in
  Forall stuckWindow [sixScrolls]
  /\ length (flat_map windowFinding [sixScrolls]) = 1%nat.
Proof.
  intros P.
  apply (stuck_windows_are_runs_of_one_page (P := P) sixScrolls [sixScrolls]).
  vm_compute. reflexivity.
Defined.

Lemma stuck_events_are_a_third_of_the_windows_witness :
  let P := Reference.platform in
  let metrics := match calculateMetrics sixScrolls with
                 | Ok m => m
                 | Throw _ => noMetrics
                 end in
  exists windows,
    findStuckWindows sixScrolls = Ok windows
    /\ stuckEvents metrics = eventsOf windows
    /\ (stuckEvents metrics = 0%nat <-> windows = []).
Proof.
  intros P metrics.
  apply (stuck_events_are_a_third_of_the_windows (P := P) sixScrolls metrics).
  vm_compute. reflexivity.
Defined.

Lemma evaluator_accepts_every_recorded_trace_witness :
  let P := Reference.platform in
  let world := fun _ : nat => Scenario.quiet (Scroll down) (Scenario.page false false) in
  let r := finish (Scenario.browse 3) (fst (after (Scenario.browse 3) world 3)) in
  Forall keyed (res_steps r)
  /\ exists metrics findings,
       evaluate (res_steps r) = Ok (metrics, findings)
       /\ (m_steps metrics <= 3)%nat.
Proof.
  intros P world r.
  apply (evaluator_accepts_every_recorded_trace (P := P) (Scenario.browse 3) world r).
  vm_compute. reflexivity.
Defined.

End EvaluatorExtraExamples.

Module HistoryExtras.
Import JSString AgentLoop Runs LoopFacts LoopRecord History.

Section Extras.
Context {P : Platform}.
Variable config : AgentLoopConfig.
Variable world : nat -> Env.

(** Every recorded step that failed carries the text of what was thrown. *)
Lemma after_failures (k : nat) :
  Forall (fun step => ok (result_ step) = true
                      \/ exists e, error (result_ step) = Some (as_string e))
         (steps (fst (after config world k))).
Proof.
  induction k as [|k IH]; [constructor|].
  rewrite after_S. destruct (after config world k) as [st [| |e]] eqn:E; cbn [fst] in *;
    try exact IH.
  destruct (iteration config (world k) k st) as [st' c] eqn:Hit. cbn [fst].
  destruct (iteration_record _ _ _ _ _ _ Hit)
    as ([Hs | (step & key & Hs & _ & _ & _ & _ & Hres)] & _).
  - now rewrite Hs.
  - rewrite Hs. apply Forall_app. split; [exact IH|].
    constructor; [exact Hres | constructor].
Qed.

Lemma skipn_seq (n start len : nat) :
  skipn n (seq start len) = seq (start + n) (len - n).
Proof.
  revert start len. induction n as [|n IH]; intros start len.
  - cbn. now rewrite Nat.add_0_r, Nat.sub_0_r.
  - destruct len as [|len]; [reflexivity|]. cbn [seq skipn Nat.sub].
    rewrite IH. f_equal. lia.
Qed.

(** X11: the history names the last eight steps.  While the loop runs, the
    history built for the prompt after [k] iterations has [min(8, k)]
    entries, numbered [k - 8] (or 0) to [k - 1] in order.  The entry at
    position [n] summarises the step recorded at position [k - 8 + n]: it
    carries that step's number and the URL of the page it observed, and its
    result is the notes of the step when the step succeeded, and otherwise
    "FAILED: " followed by the step's own error text, which the loop
    always records for a failed step (so never "FAILED: undefined" for a
    missing one). *)
Theorem history_names_the_last_eight_steps
        (k : nat) (st : LoopState)
        (Hrunning : after config world k = (st, Continue)) :
  let history := buildRecentHistory (steps st) in
  length history = Nat.min 8 k
  /\ map sum_i history = seq (k - 8) (Nat.min 8 k)
  /\ forall n entry,
       nth_error history n = Some entry ->
       exists step,
         nth_error (steps st) (k - 8 + n) = Some step
         /\ sum_i entry = i step
         /\ sum_url entry = snap_url (snapshot step)
         /\ if ok (result_ step)
            then sum_result entry = notes (result_ step)
            else exists e,
                error (result_ step) = Some (as_string e)
                /\ sum_result entry = "FAILED: " ++ as_string e.
Proof.
  cbn zeta. unfold buildRecentHistory, lastOf, HISTORY_LENGTH.
  destruct (after_continue _ _ _ _ Hrunning) as (Hlen & _).
  pose proof (LoopExtras.after_numbered config world k) as Hnum.
  pose proof (TraceExtras.after_keyed config world k) as Hkeyed.
  pose proof (after_failures k) as Hfail.
  rewrite Hrunning in Hnum, Hkeyed, Hfail. cbn [fst] in Hnum, Hkeyed, Hfail.
  rewrite Hlen in *.
  split; [rewrite length_map, length_skipn; lia|].
  split.
  - rewrite map_map.
    change (fun x => sum_i (summarize x)) with i.
    rewrite <- skipn_map, Hnum, skipn_seq. f_equal; lia.
  - intros n entry Hn. rewrite nth_error_map in Hn.
    destruct (nth_error (skipn (k - 8) (steps st)) n) as [step|] eqn:Hstep;
      [|discriminate].
    assert (entry = summarize step) by (cbn in Hn; congruence). subst entry.
    rewrite nth_error_skipn in Hstep.
    exists step. split; [exact Hstep|].
    assert (Hin : In step (steps st)) by (eapply nth_error_In; exact Hstep).
    rewrite Forall_forall in Hkeyed, Hfail.
    destruct (Hkeyed step Hin) as (_ & Hurl).
    split; [reflexivity|]. split; [exact Hurl|].
    unfold summarize. cbn [sum_result].
    destruct (Hfail step Hin) as [Hok | (e & He)].
    + rewrite Hok. reflexivity.
    + destruct (ok (result_ step)); [reflexivity|].
      exists e. split; [exact He | now rewrite He].
Qed.

End Extras.
End HistoryExtras.

Module HistoryExamples.
Import JSString AgentLoop History HistoryExtras.

Lemma history_names_the_last_eight_steps_witness :
  let P := Reference.platform in
  let world := fun _ : nat => Scenario.quiet (Scroll down) (Scenario.page false false) in
  let st := fst (after (Scenario.browse 12) world 10) in
  length (buildRecentHistory (steps st)) = 8%nat
  /\ map sum_i (buildRecentHistory (steps st)) = [2; 3; 4; 5; 6; 7; 8; 9]%nat.
Proof.
  intros P world st.
  destruct (history_names_the_last_eight_steps (P := P) (Scenario.browse 12) world 10 st)
    as (H1 & H2 & _).
  - vm_compute. reflexivity.
  - split; [exact H1 | exact H2].
Defined.

End HistoryExamples.

Module OrchestratorFacts.
Import JSValue Orchestrator.
Local Open Scope Z_scope.

Lemma number_ltb_mono (a b : Z) (limit : number) :
  a <= b -> number_ltb (of_Z b) limit = true -> number_ltb (of_Z a) limit = true.
Proof.
  intros Hab. destruct limit as [| | |q]; cbn; try congruence.
  intros H. apply negb_true_iff in H. apply negb_true_iff.
  apply NormalizerFacts.Qle_bool_false in H. apply NormalizerFacts.Qle_bool_lt.
  eapply Qle_lt_trans; [|exact H]. rewrite <- Zle_Qle. exact Hab.
Qed.

Lemma number_ltb_of_Z (a b : Z) : number_ltb (of_Z a) (of_Z b) = (a <? b).
Proof.
  cbn. destruct (Qle_bool (inject_Z b) (inject_Z a)) eqn:E; cbn [negb]; symmetry.
  - apply Qle_bool_iff in E. rewrite <- Zle_Qle in E. apply Z.ltb_ge. exact E.
  - apply NormalizerFacts.Qle_bool_false in E. rewrite <- Zlt_Qlt in E.
    apply Z.ltb_lt. exact E.
Qed.

Section Facts.
Variable Run : Type.
Variable limit : number.

(** What one call of [processQueue] does to a scheduler within the limit. *)
Lemma processLoop_spec (queue : list Run) :
  forall count done,
    let s := processLoop limit queue count done in
    (executed s ++ pendingQueue s = done ++ queue)%list
    /\ count <= runningCount s
    /\ (runningCount s = count \/ number_ltb (of_Z (runningCount s - 1)) limit = true)
    /\ (pendingQueue s = [] \/ number_ltb (of_Z (runningCount s)) limit = false)
    /\ (number_ltb (of_Z count) limit = false -> executed s = done).
Proof.
  induction queue as [|next rest IH]; intros count done; cbn zeta; cbn [processLoop].
  - cbn. rewrite app_nil_r. repeat split; try lia; try tauto.
  - destruct (number_ltb (of_Z count) limit) eqn:E.
    + specialize (IH (count + 1) (done ++ [next])%list). cbn zeta in IH.
      destruct IH as (H1 & H2 & H3 & H4 & _).
      rewrite <- app_assoc in H1. repeat split; try assumption; try lia; try discriminate.
      right. destruct H3 as [H3|H3]; [|exact H3].
      rewrite H3. replace (count + 1 - 1) with count by lia. exact E.
    + cbn. repeat split; try lia; try tauto.
Qed.

Lemma reaches_invariant (enqueued : list Run) (s : Scheduler Run) :
  reaches limit enqueued s ->
  (executed s ++ pendingQueue s = enqueued)%list
  /\ 0 <= runningCount s
  /\ (runningCount s = 0 \/ number_ltb (of_Z (runningCount s - 1)) limit = true)
  /\ (pendingQueue s = [] \/ number_ltb (of_Z (runningCount s)) limit = false).
Proof.
  induction 1 as [|enqueued s runState _ (H1 & H2 & H3 & H4)
                  |enqueued s _ (H1 & H2 & H3 & H4) Hrun].
  - cbn. repeat split; try lia; tauto.
  - unfold enqueueRun, processQueue.
    cbn [pendingQueue runningCount executed].
    pose proof (processLoop_spec (pendingQueue s ++ [runState]) (runningCount s)
                                 (executed s)) as Hp.
    cbn zeta in Hp. destruct Hp as (P1 & P2 & P3 & P4 & _).
    rewrite app_assoc, H1 in P1.
    repeat split; try assumption; try lia.
    destruct P3 as [P3|P3]; [rewrite P3; exact H3 | right; exact P3].
  - unfold settled, processQueue.
    cbn [pendingQueue runningCount executed].
    pose proof (processLoop_spec (pendingQueue s) (runningCount s - 1) (executed s)) as Hp.
    cbn zeta in Hp. destruct Hp as (P1 & P2 & P3 & P4 & _).
    rewrite H1 in P1.
    repeat split; try assumption; try lia.
    destruct P3 as [P3|P3]; [|right; exact P3].
    rewrite P3. destruct H3 as [H3|H3]; [lia|].
    destruct (Z.eq_dec (runningCount s - 1) 0) as [E0|E0]; [left; exact E0|].
    right. apply (number_ltb_mono _ (runningCount s - 1)); [lia | exact H3].
Qed.

Lemma reaches_NaN (enqueued : list Run) (s : Scheduler Run) :
  limit = NaN -> reaches limit enqueued s ->
  executed s = [] /\ pendingQueue s = enqueued /\ runningCount s = 0.
Proof.
  intros Hnan. induction 1 as [|enqueued s runState _ (H1 & H2 & H3)|enqueued s _ (_ & _ & H3) Hrun].
  - repeat split.
  - unfold enqueueRun, processQueue. cbn [pendingQueue runningCount executed].
    rewrite H1, H2, H3. subst limit.
    destruct (enqueued ++ [runState])%list; repeat split.
  - lia.
Qed.

End Facts.
End OrchestratorFacts.

Module OrchestratorExtras.
Import JSValue Orchestrator OrchestratorFacts.
Local Open Scope Z_scope.

(** X28: runs start in arrival order and none is lost.  In every state the
    queue module can reach, the runs handed to [executeRun], followed by
    the runs still pending, are the enqueued runs in the order of their
    [startRun] calls. *)
Theorem runs_start_in_arrival_order
        (Run : Type) (limit : number) (enqueued : list Run) (s : Scheduler Run)
        (Hreach : reaches limit enqueued s) :
  (executed s ++ pendingQueue s)%list = enqueued.
Proof.
  induction Hreach as [|enqueued s runState _ IH|enqueued s _ IH _].
  - reflexivity.
  - unfold enqueueRun, processQueue. cbn [pendingQueue runningCount executed].
    pose proof (processLoop_spec Run limit (pendingQueue s ++ [runState])
                                 (runningCount s) (executed s)) as Hloop.
    cbn zeta in Hloop. destruct Hloop as (Horder & _).
    now rewrite Horder, app_assoc, IH.
  - unfold settled, processQueue. cbn [pendingQueue runningCount executed].
    pose proof (processLoop_spec Run limit (pendingQueue s)
                                 (runningCount s - 1) (executed s)) as Hloop.
    cbn zeta in Hloop. destruct Hloop as (Horder & _).
    now rewrite Horder, IH.
Qed.

(** X29: the concurrency limit is kept and used.  With a limit of [m] runs,
    at most [m] runs execute at any time, and a run waits in the queue only
    while [m] runs are executing. *)
Theorem limit_is_kept_and_used
        (Run : Type) (m : Z) (enqueued : list Run) (s : Scheduler Run)
        (Hlimit : 1 <= m)
        (Hreach : reaches (of_Z m) enqueued s) :
  0 <= runningCount s <= m
  /\ (pendingQueue s <> [] -> runningCount s = m).
Proof.
  destruct (reaches_invariant Run (of_Z m) enqueued s Hreach) as (_ & H2 & H3 & H4).
  rewrite number_ltb_of_Z in H3, H4.
  assert (Hle : runningCount s <= m).
  { destruct H3 as [H3|H3]; [lia|]. apply Z.ltb_lt in H3. lia. }
  split; [lia|]. intros Hq. destruct H4 as [H4|H4]; [contradiction|].
  apply Z.ltb_ge in H4. lia.
Qed.

Section Limit.
Context {P : Platform}.

(** X30: the limit read from the environment.  Unset or empty, the variable
    gives the limit 2.  Otherwise the limit is at least 1, or it is NaN,
    when the variable is not a number; under a NaN limit the test
    [runningCount < MAX_CONCURRENT_RUNS] never holds, and every enqueued
    run stays pending. *)
Theorem limit_from_the_environment (env : option string) :
  MAX_CONCURRENT_RUNS None = of_Z 2
  /\ MAX_CONCURRENT_RUNS (Some "") = of_Z 2
  /\ (MAX_CONCURRENT_RUNS env = NaN
      \/ number_leb (of_Z 1) (MAX_CONCURRENT_RUNS env) = true)
  /\ (MAX_CONCURRENT_RUNS env = NaN ->
      forall (Run : Type) (enqueued : list Run) (s : Scheduler Run),
        reaches (MAX_CONCURRENT_RUNS env) enqueued s ->
        executed s = [] /\ pendingQueue s = enqueued).
Proof.
  split; [reflexivity|]. split; [reflexivity|]. split.
  - unfold MAX_CONCURRENT_RUNS.
    destruct (Normalizer.ToNumber _) as [| | |q]; [left | right | right |]; try reflexivity.
    right. unfold of_Z. cbn [Math_max].
    destruct (Qle_bool (inject_Z 1) q) eqn:E; cbn [number_leb]; [exact E | reflexivity].
  - intros Hnan Run enqueued s Hreach.
    destruct (reaches_NaN Run _ enqueued s Hnan Hreach) as (H1 & H2 & _). now split.
Qed.

End Limit.
End OrchestratorExtras.

Module OrchestratorExamples.
Import JSValue Orchestrator OrchestratorExtras.

Lemma runs_start_in_arrival_order_witness :
  let limit := of_Z 2 in
  let s := enqueueRun limit (enqueueRun limit (enqueueRun limit idle 1%nat) 2%nat) 3%nat in
  executed s = [1; 2]%nat /\ pendingQueue s = [3]%nat
  /\ (executed s ++ pendingQueue s)%list = [1; 2; 3]%nat.
Proof.
  intros limit s. split; [reflexivity|]. split; [reflexivity|].
  apply (runs_start_in_arrival_order nat limit [1; 2; 3]%nat s).
  apply (reaches_enqueue nat limit [1; 2]%nat _ 3%nat).
  apply (reaches_enqueue nat limit [1]%nat _ 2%nat).
  apply (reaches_enqueue nat limit [] _ 1%nat).
  apply reaches_idle.
Defined.

Lemma limit_is_kept_and_used_witness :
  let limit := of_Z 2 in
  let s := settled limit
             (enqueueRun limit (enqueueRun limit (enqueueRun limit idle 1%nat) 2%nat)
                         3%nat) in
  (0 <= runningCount s <= 2)%Z
  /\ (pendingQueue s <> [] -> runningCount s = 2%Z).
Proof.
  intros limit s.
  apply (limit_is_kept_and_used nat 2%Z [1; 2; 3]%nat s).
  - lia.
  - apply reaches_settled; [|reflexivity].
    apply (reaches_enqueue nat limit [1; 2]%nat _ 3%nat).
    apply (reaches_enqueue nat limit [1]%nat _ 2%nat).
    apply (reaches_enqueue nat limit [] _ 1%nat).
    apply reaches_idle.
Defined.

Lemma limit_from_the_environment_witness :
  let P := Reference.platform in
  MAX_CONCURRENT_RUNS (Some "many") = NaN
  /\ MAX_CONCURRENT_RUNS (Some "3") = of_Z 3
  /\ forall s, reaches (MAX_CONCURRENT_RUNS (Some "many")) [1; 2]%nat s ->
               executed s = [] /\ pendingQueue s = [1; 2]%nat.
Proof.
  intros P. split; [reflexivity|]. split; [reflexivity|].
  destruct (limit_from_the_environment (P := P) (Some "many")) as (_ & _ & _ & Hnan).
  intros s. apply (Hnan eq_refl nat).
Defined.

End OrchestratorExamples.
